(** * KingDom.js: a shallow embedding of [src/kingdom.js]

    The library is a thin layer over the browser's document tree.  The
    development has three layers:

    - strings and class-token lists (what [classList] works on);
    - the host: the document tree with node identities, the console, the
      listener table and the trace of dispatched events, together with the
      host primitives the library calls ([querySelector], [createElement],
      [classList.add], [textContent], [insertAdjacentElement], ...);
    - the library itself, one definition per function of [src/kingdom.js],
      written in a state-and-exception monad over the host state.

    The CSS selector engine, the HTML fragment parser and the stringification
    of host objects are the browser's: they are the fields of the class
    [Host], and the theorems about the library hold for every host.

    [src/kingdom.js] holds two copies of the library.  The embedding follows
    the first, documented one; the second differs from it in [update] and
    [each], and its [update] is [update_plain] below. *)

From Stdlib Require Import String Ascii List Bool Arith Lia.
Import ListNotations.
Open Scope string_scope.
Open Scope list_scope.
Open Scope nat_scope.

(* ------------------------------------------------------------------ *)
(** ** Strings *)

Module Str.

(** ASCII whitespace of the DOM standard: TAB, LF, FF, CR, SPACE. *)
Definition is_ws (c : ascii) : bool :=
  let n := nat_of_ascii c in
  (n =? 9) || (n =? 10) || (n =? 12) || (n =? 13) || (n =? 32).

Definition is_alpha (c : ascii) : bool :=
  let n := nat_of_ascii c in
  ((65 <=? n) && (n <=? 90)) || ((97 <=? n) && (n <=? 122)).

Definition is_digit (c : ascii) : bool :=
  let n := nat_of_ascii c in (48 <=? n) && (n <=? 57).

Definition lower (c : ascii) : ascii :=
  let n := nat_of_ascii c in
  if (65 <=? n) && (n <=? 90) then ascii_of_nat (n + 32) else c.

Definition upper (c : ascii) : ascii :=
  let n := nat_of_ascii c in
  if (97 <=? n) && (n <=? 122) then ascii_of_nat (n - 32) else c.

Fixpoint map (f : ascii -> ascii) (s : string) : string :=
  match s with
  | EmptyString => EmptyString
  | String c s' => String (f c) (map f s')
  end.

Definition to_lower : string -> string := map lower.
Definition to_upper : string -> string := map upper.

Fixpoint existsb (p : ascii -> bool) (s : string) : bool :=
  match s with
  | EmptyString => false
  | String c s' => p c || existsb p s'
  end.

Fixpoint forallb (p : ascii -> bool) (s : string) : bool :=
  match s with
  | EmptyString => true
  | String c s' => p c && forallb p s'
  end.

Definition is_empty (s : string) : bool :=
  match s with EmptyString => true | _ => false end.

(** [s.startsWith(p)] *)
Definition startsWith (p s : string) : bool := String.prefix p s.

(** [s.endsWith(p)] *)
Definition endsWith (p s : string) : bool :=
  (String.length p <=? String.length s)
  && String.eqb (substring (String.length s - String.length p) (String.length p) s) p.

(** [s.replace(/^on/, '')] *)
Definition strip_on (s : string) : string :=
  if startsWith "on" s then substring 2 (String.length s - 2) s else s.

(** [l.join(sep)] *)
Fixpoint join (sep : string) (l : list string) : string :=
  match l with
  | [] => ""
  | [x] => x
  | x :: l' => String.append x (String.append sep (join sep l'))
  end.

(** Split on ASCII whitespace; [cur] is the token being read. *)
Fixpoint split_ws_from (cur s : string) : list string :=
  match s with
  | EmptyString => if is_empty cur then [] else [cur]
  | String c s' =>
      if is_ws c
      then (if is_empty cur then split_ws_from "" s' else cur :: split_ws_from "" s')
      else split_ws_from (String.append cur (String c "")) s'
  end.

Definition split_ws (s : string) : list string := split_ws_from "" s.

(** The characters of [s] that satisfy [p]. *)
Fixpoint filter (p : ascii -> bool) (s : string) : string :=
  match s with
  | EmptyString => EmptyString
  | String c s' => if p c then String c (filter p s') else filter p s'
  end.

(** A line break: LF or CR. *)
Definition is_newline (c : ascii) : bool :=
  let n := nat_of_ascii c in (n =? 10) || (n =? 13).

(** Strip newlines (Infra standard). *)
Definition strip_newlines (s : string) : string :=
  filter (fun c => negb (is_newline c)) s.

(** Strip leading and trailing ASCII whitespace (Infra standard). *)
Fixpoint strip_leading (s : string) : string :=
  match s with
  | EmptyString => EmptyString
  | String c s' => if is_ws c then strip_leading s' else s
  end.

Fixpoint strip_trailing (s : string) : string :=
  match s with
  | EmptyString => EmptyString
  | String c s' =>
      let r := strip_trailing s' in
      if is_ws c && is_empty r then EmptyString else String c r
  end.

Definition trim (s : string) : string := strip_trailing (strip_leading s).

End Str.

(** Membership in a list of strings, as a boolean. *)
Definition mem (x : string) (l : list string) : bool :=
  List.existsb (String.eqb x) l.

(** An ordered set keeps the first occurrence of each item. *)
Fixpoint dedupe (l : list string) : list string :=
  match l with
  | [] => []
  | x :: l' => x :: List.filter (fun y => negb (String.eqb x y)) (dedupe l')
  end.

(** The token set of a [class] attribute value. *)
Definition tokens_of (s : string) : list string := dedupe (Str.split_ws s).

(** The ordered-set serializer. *)
Definition serialize (l : list string) : string := Str.join " " l.

(** A token is acceptable to [classList] when it is not empty and has no
    ASCII whitespace. *)
Definition token_ok (t : string) : bool :=
  negb (Str.is_empty t) && negb (Str.existsb Str.is_ws t).

(* ------------------------------------------------------------------ *)
(** ** Values that cross the library's interface *)

(** A node reference: the identity of an element object. *)
Definition ref := nat.

(** What a caller passes where the library expects "a selector or an
    element": a string, an element reference, the document, the window,
    or nothing ([undefined] / [null]). *)
Inductive target :=
| TUndef
| TNull
| TStr (s : string)
| TNode (r : ref)
| TDocument
| TWindow.

(** Function objects: an opaque callback of the caller's, or the [on]
    shorthand that [$] installs on an element. *)
Inductive func :=
| Callback (h : nat)
| OnShorthand (owner : target).

(** The value of a property in an attribute map ([create], [load]). *)
Inductive aval :=
| AStr (s : string)
| AFun (f : func)
| ANode (r : ref).

(** A JS object used as a map: keys in insertion order, no duplicates. *)
Definition obj := list (string * aval).

Fixpoint obj_get (o : obj) (k : string) : option aval :=
  match o with
  | [] => None
  | (k', v) :: o' => if String.eqb k k' then Some v else obj_get o' k
  end.

(** [o[k] = v]: an existing key keeps its place, a new key goes last. *)
Fixpoint obj_set (o : obj) (k : string) (v : aval) : obj :=
  match o with
  | [] => [(k, v)]
  | (k', v') :: o' =>
      if String.eqb k k' then (k', v) :: o' else (k', v') :: obj_set o' k v
  end.

(** [{...o, ...p}] *)
Definition obj_spread (o p : obj) : obj :=
  List.fold_left (fun acc kv => obj_set acc (fst kv) (snd kv)) p o.

(** [Object.keys(o)] *)
Definition obj_keys (o : obj) : list string := List.map fst o.

(** The content argument of [update]: a string, or an array whose items
    are strings or [{value, label}] objects. *)
Inductive item :=
| IStr (s : string)
| IObj (value label : string).

Inductive content :=
| CStr (s : string)
| CArr (items : list item).

Inductive exn :=
| TypeError
| ReferenceError
| SyntaxError
| InvalidCharacterError
| HierarchyRequestError
| NoModificationAllowedError
| InvalidStateError.

Definition target_eqb (a b : target) : bool :=
  match a, b with
  | TUndef, TUndef | TNull, TNull | TDocument, TDocument | TWindow, TWindow => true
  | TStr s, TStr t => String.eqb s t
  | TNode r, TNode q => r =? q
  | _, _ => false
  end.

Definition func_eqb (f g : func) : bool :=
  match f, g with
  | Callback a, Callback b => a =? b
  | OnShorthand a, OnShorthand b => target_eqb a b
  | _, _ => false
  end.

Definition aval_eqb (a b : aval) : bool :=
  match a, b with
  | AStr s, AStr t => String.eqb s t
  | AFun f, AFun g => func_eqb f g
  | ANode r, ANode q => r =? q
  | _, _ => false
  end.

(** [typeof(v) === 'string'] *)
Definition is_string (v : target) : bool :=
  match v with TStr _ => true | _ => false end.

(** JS truthiness. *)
Definition truthy (v : target) : bool :=
  match v with
  | TUndef | TNull => false
  | TStr s => negb (Str.is_empty s)
  | TNode _ | TDocument | TWindow => true
  end.

Definition aval_truthy (v : option aval) : bool :=
  match v with
  | None => false
  | Some (AStr s) => negb (Str.is_empty s)
  | Some _ => true
  end.

(* ------------------------------------------------------------------ *)
(** ** The document tree *)

(** What an element carries besides its children. *)
Record edata := mk_edata {
  tag : string;                      (* local name, lower case *)
  attrs : list (string * string);    (* attributes, [class] and [id] among them *)
  input_value : string               (* the [value] of a form control *)
}.

(** Elements have an identity; text nodes are only reached through their
    parent.  The induction principle that goes through the child lists is
    [node_induction] below. *)
#[local] Unset Elimination Schemes.
Inductive node :=
| Text (data : string)
| Elem (id : ref) (e : edata) (children : list node).
#[local] Set Elimination Schemes.

Definition forest := list node.

Definition has_id (r : ref) (n : node) : bool :=
  match n with Elem i _ _ => i =? r | Text _ => false end.

Definition is_elem (n : node) : bool :=
  match n with Elem _ _ _ => true | Text _ => false end.

(** The elements of a tree, each with its subtree, in tree order. *)
Fixpoint subtrees (n : node) : list node :=
  match n with
  | Text _ => []
  | Elem _ _ cs => n :: List.flat_map subtrees cs
  end.

Definition all_subtrees (f : forest) : list node := List.flat_map subtrees f.

Definition node_ids (f : forest) : list ref :=
  List.flat_map (fun n => match n with Elem i _ _ => [i] | Text _ => [] end)
                (all_subtrees f).

(** The element with identity [r], if the forest has it. *)
Definition find_node (r : ref) (f : forest) : option node :=
  List.find (has_id r) (all_subtrees f).

(** Apply [g] to the element with identity [r]. *)
Fixpoint alter (r : ref) (g : edata -> list node -> node) (n : node) : node :=
  match n with
  | Text s => Text s
  | Elem i e cs => if i =? r then g e cs else Elem i e (List.map (alter r g) cs)
  end.

(** Cut the subtree of [r] out of a tree it is strictly inside of. *)
Fixpoint prune (r : ref) (n : node) : node :=
  match n with
  | Text s => Text s
  | Elem i e cs =>
      Elem i e (List.filter (fun c => negb (has_id r c)) (List.map (prune r) cs))
  end.

Definition prune_forest (r : ref) (f : forest) : forest :=
  List.filter (fun c => negb (has_id r c)) (List.map (prune r) f).

Definition first_some {A B : Type} (f : A -> option B) : list A -> option B :=
  fix go (l : list A) : option B :=
    match l with
    | [] => None
    | a :: l' => match f a with Some b => Some b | None => go l' end
    end.

(** The element whose child list holds [r]. *)
Fixpoint parent_in (r : ref) (n : node) : option ref :=
  match n with
  | Text _ => None
  | Elem i _ cs =>
      if List.existsb (has_id r) cs then Some i else first_some (parent_in r) cs
  end.

(** [textContent] of a node: the data of its text descendants, in order. *)
Fixpoint text_of (n : node) : string :=
  match n with
  | Text s => s
  | Elem _ _ cs => String.concat "" (List.map text_of cs)
  end.

(** Attributes. *)
Fixpoint attr_get (l : list (string * string)) (k : string) : option string :=
  match l with
  | [] => None
  | (k', v) :: l' => if String.eqb k k' then Some v else attr_get l' k
  end.

Fixpoint attr_set (l : list (string * string)) (k v : string) : list (string * string) :=
  match l with
  | [] => [(k, v)]
  | (k', v') :: l' =>
      if String.eqb k k' then (k', v) :: l' else (k', v') :: attr_set l' k v
  end.

Definition set_attrs (e : edata) (a : list (string * string)) : edata :=
  mk_edata (tag e) a (input_value e).

Definition set_input_value (e : edata) (v : string) : edata :=
  mk_edata (tag e) (attrs e) v.

(** The class tokens of an element: empty when there is no [class]
    attribute. *)
Definition class_tokens (e : edata) : list string :=
  match attr_get (attrs e) "class" with
  | Some v => tokens_of v
  | None => []
  end.

(** Where a node goes among the children of its new parent. *)
Inductive place :=
| AtStart
| AtEnd
| Before (c : ref)
| After (c : ref).

Fixpoint insert_before (c : ref) (ns cs : list node) : list node :=
  match cs with
  | [] => []
  | x :: cs' => if has_id c x then ns ++ x :: cs' else x :: insert_before c ns cs'
  end.

Fixpoint insert_after (c : ref) (ns cs : list node) : list node :=
  match cs with
  | [] => []
  | x :: cs' => if has_id c x then x :: ns ++ cs' else x :: insert_after c ns cs'
  end.

Definition put (w : place) (ns cs : list node) : list node :=
  match w with
  | AtStart => ns ++ cs
  | AtEnd => cs ++ ns
  | Before c => insert_before c ns cs
  | After c => insert_after c ns cs
  end.

(** Markup as the fragment parser returns it: nodes without identity. *)
#[local] Unset Elimination Schemes.
Inductive markup :=
| MText (s : string)
| MElem (t : string) (a : list (string * string)) (children : list markup).
#[local] Set Elimination Schemes.

(** Give the elements of a parsed fragment identities from [n] on. *)
Fixpoint build (m : markup) (n : ref) : node * ref :=
  match m with
  | MText s => (Text s, n)
  | MElem t a cs =>
      let '(cs', n') :=
        (fix go (l : list markup) (k : ref) : list node * ref :=
           match l with
           | [] => ([], k)
           | m' :: l' =>
               let '(x, k1) := build m' k in
               let '(xs, k2) := go l' k1 in
               (x :: xs, k2)
           end) cs (S n) in
      (Elem n (mk_edata t a "") cs', n')
  end.

Fixpoint build_all (l : list markup) (n : ref) : list node :=
  match l with
  | [] => []
  | m :: l' => let '(x, k) := build m n in x :: build_all l' k
  end.

(* ------------------------------------------------------------------ *)
(** ** The host state *)

Record dom := mk_dom {
  doc : forest;                               (* the children of the document *)
  detached : forest;                          (* the roots of the trees outside it *)
  console : list (string * target);           (* the [console.warn] calls *)
  listeners : list (target * string * aval);  (* [addEventListener] registrations *)
  expandos : list (target * string * aval);   (* properties added to host objects *)
  dispatched : list (target * target)         (* [dispatchEvent(new CustomEvent(x))] calls *)
}.

Definition trees (d : dom) : forest := doc d ++ detached d.

Definition set_trees (a b : forest) (d : dom) : dom :=
  mk_dom a b (console d) (listeners d) (expandos d) (dispatched d).

Definition add_warning (w : string * target) (d : dom) : dom :=
  mk_dom (doc d) (detached d) (console d ++ [w]) (listeners d) (expandos d) (dispatched d).

Definition add_listener (l : target * string * aval) (d : dom) : dom :=
  mk_dom (doc d) (detached d) (console d) (listeners d ++ [l]) (expandos d) (dispatched d).

Definition add_expando (x : target * string * aval) (d : dom) : dom :=
  mk_dom (doc d) (detached d) (console d) (listeners d) (x :: expandos d) (dispatched d).

Definition add_dispatched (x : target * target) (d : dom) : dom :=
  mk_dom (doc d) (detached d) (console d) (listeners d) (expandos d) (dispatched d ++ [x]).

(** Apply [g] to the element [r], wherever it is. *)
Definition alter_dom (r : ref) (g : edata -> list node -> node) (d : dom) : dom :=
  set_trees (List.map (alter r g) (doc d)) (List.map (alter r g) (detached d)) d.

Definition lookup (r : ref) (d : dom) : option node := find_node r (trees d).

(** An identity no element has yet. *)
Definition fresh (d : dom) : ref := S (List.list_max (node_ids (trees d))).

Inductive parent :=
| ParentDocument
| ParentElement (p : ref).

(** [el.parentNode] *)
Definition parent_of (r : ref) (d : dom) : option parent :=
  if List.existsb (has_id r) (doc d) then Some ParentDocument
  else match first_some (parent_in r) (trees d) with
       | Some p => Some (ParentElement p)
       | None => None
       end.

(** [el.getAttribute(k)] on the element [r]. *)
Definition attribute (r : ref) (k : string) (d : dom) : option string :=
  match lookup r d with
  | Some (Elem _ e _) => attr_get (attrs e) (Str.to_lower k)
  | _ => None
  end.

(** [el.classList.contains(c)] on the element [r]. *)
Definition has_class (r : ref) (c : string) (d : dom) : bool :=
  match lookup r d with
  | Some (Elem _ e _) => mem c (class_tokens e)
  | _ => false
  end.

(** [el.textContent] on the element [r]. *)
Definition textContent (r : ref) (d : dom) : option string :=
  match lookup r d with
  | Some n => Some (text_of n)
  | None => None
  end.

(** The elements with a given identifier in the document, in tree order. *)
Definition has_identifier (x : string) (n : node) : bool :=
  match n with
  | Elem _ e _ =>
      match attr_get (attrs e) "id" with
      | Some v => String.eqb v x
      | None => false
      end
  | Text _ => false
  end.

Definition with_identifier (x : string) (d : dom) : list node :=
  List.filter (has_identifier x) (all_subtrees (doc d)).

(** The elements a query rooted at [scope] ranges over, in tree order. *)
Definition scope_elements (scope : target) (d : dom) : list node :=
  match scope with
  | TDocument => all_subtrees (doc d)
  | TNode r =>
      match lookup r d with
      | Some (Elem _ _ cs) => all_subtrees cs
      | _ => []
      end
  | _ => []
  end.

Definition node_target (o : option node) : target :=
  match o with
  | Some (Elem i _ _) => TNode i
  | _ => TNull
  end.

(** [document.head]: the first [head] child of the [html] document
    element. *)
Definition document_head (d : dom) : target :=
  match List.find is_elem (doc d) with
  | Some (Elem _ e cs) =>
      if String.eqb (tag e) "html"
      then node_target
             (List.find (fun c => match c with
                                  | Elem _ e' _ => String.eqb (tag e') "head"
                                  | Text _ => false
                                  end) cs)
      else TNull
  | _ => TNull
  end.

(** The browser's parts the library relies on without containing them. *)
Class Host := {
  (** does the string parse as a selector list? *)
  selector_valid : string -> bool;
  (** does the selector match this element of the tree (document children,
      detached roots), in a query rooted at the given scope? *)
  selector_matches : string -> forest -> forest -> target -> node -> bool;
  (** the HTML fragment parser, given the context element *)
  parse_fragment : edata -> string -> list markup;
  (** [String(v)] for a function or a node *)
  object_string : aval -> string;
  (** the value sanitization algorithm of an [input] whose [type] is one
      of [url], [email], [date], [month], [week], [time], [datetime-local],
      [number], [range] and [color] *)
  sanitize_value : edata -> string -> string
}.

(* ------------------------------------------------------------------ *)
(** ** Computations: state and exceptions *)

Inductive outcome (A : Type) :=
| Ret (a : A)
| Throw (e : exn).
Arguments Ret {A} a.
Arguments Throw {A} e.

Definition M (A : Type) : Type := dom -> outcome A * dom.

Definition ret {A : Type} (a : A) : M A := fun d => (Ret a, d).

Definition throw {A : Type} (e : exn) : M A := fun d => (Throw e, d).

(** A throw keeps the state reached so far: nothing is rolled back. *)
Definition bind {A B : Type} (m : M A) (k : A -> M B) : M B :=
  fun d => match m d with
           | (Ret a, d') => k a d'
           | (Throw e, d') => (Throw e, d')
           end.

Definition gets {A : Type} (f : dom -> A) : M A := fun d => (Ret (f d), d).

Definition modify (f : dom -> dom) : M unit := fun d => (Ret tt, f d).

Declare Scope dom_scope.
Delimit Scope dom_scope with dom.
Notation "x <- c1 ;; c2" := (bind c1 (fun x => c2))
  (at level 61, c1 at next level, right associativity) : dom_scope.
Notation "' p <- c1 ;; c2" := (bind c1 (fun x => match x with p => c2 end))
  (at level 61, p pattern, c1 at next level, right associativity) : dom_scope.
Notation "c1 ;; c2" := (bind c1 (fun _ => c2))
  (at level 61, right associativity) : dom_scope.
Open Scope dom_scope.

(** [forEach] over a list, stopping at the first throw. *)
Fixpoint for_each {A : Type} (f : A -> M unit) (l : list A) : M unit :=
  match l with
  | [] => ret tt
  | a :: l' => f a ;; for_each f l'
  end.

(* ------------------------------------------------------------------ *)
(** ** The host primitives the library calls *)

(** A valid element local name (DOM standard). *)
Definition valid_element_name (s : string) : bool :=
  match s with
  | EmptyString => false
  | String c s' =>
      if Str.is_alpha c
      then negb (Str.existsb (fun x => Str.is_ws x || (nat_of_ascii x =? 0)
                                       || (nat_of_ascii x =? 47) || (nat_of_ascii x =? 62)) s)
      else ((nat_of_ascii c =? 58) || (nat_of_ascii c =? 95) || (128 <=? nat_of_ascii c))
           && Str.forallb (fun x => Str.is_alpha x || Str.is_digit x
                                    || (nat_of_ascii x =? 45) || (nat_of_ascii x =? 46)
                                    || (nat_of_ascii x =? 58) || (nat_of_ascii x =? 95)
                                    || (128 <=? nat_of_ascii x)) s'
  end.

(** A valid attribute local name (DOM standard). *)
Definition valid_attribute_name (s : string) : bool :=
  negb (Str.is_empty s)
  && negb (Str.existsb (fun x => Str.is_ws x || (nat_of_ascii x =? 0)
                                 || (nat_of_ascii x =? 47) || (nat_of_ascii x =? 61)
                                 || (nat_of_ascii x =? 62)) s).

Inductive property := PValue | PInnerHTML | PTextContent.

(** The state of the [type] attribute of an [input]: its keyword in lower
    case; without the attribute the state is [text], as it is for a
    keyword that is none of the known ones. *)
Definition input_type (e : edata) : string :=
  match attr_get (attrs e) "type" with
  | Some v => Str.to_lower v
  | None => "text"
  end.

(** The states in which [value] is the [value] attribute. *)
Definition attribute_states : list string :=
  ["hidden"; "submit"; "image"; "reset"; "button"; "checkbox"; "radio"].

(** The states whose value sanitization algorithm is the host's. *)
Definition host_states : list string :=
  ["url"; "email"; "date"; "month"; "week"; "time"; "datetime-local";
   "number"; "range"; "color"].

Definition property_name (p : property) : string :=
  match p with
  | PValue => "value"
  | PInnerHTML => "innerHTML"
  | PTextContent => "textContent"
  end.

Definition get_expando (el : target) (k : string) (d : dom) : option aval :=
  match List.find (fun x => target_eqb (fst (fst x)) el && String.eqb (snd (fst x)) k)
                  (expandos d) with
  | Some x => Some (snd x)
  | None => None
  end.

(** Objects that have [addEventListener] and [dispatchEvent]. *)
Definition is_event_target (el : target) (d : dom) : bool :=
  match el with
  | TNode r => match lookup r d with Some _ => true | None => false end
  | TDocument | TWindow => true
  | _ => false
  end.

(** Putting the nodes [ns] among the children of the element [p]. *)
Definition graft (p : ref) (w : place) (ns : list node) : edata -> list node -> node :=
  fun e cs => Elem p e (put w ns cs).

Section Primitives.
Context {host : Host}.

(** [scope.querySelector(sel)]: the first element below [scope], in tree
    order, that the selector matches; [null] when there is none. *)
Definition querySelector (scope : target) (sel : string) : M target :=
  match scope with
  | TDocument | TNode _ =>
      if selector_valid sel
      then gets (fun d =>
             node_target (List.find (selector_matches sel (doc d) (detached d) scope)
                                    (scope_elements scope d)))
      else throw SyntaxError
  | _ => throw TypeError
  end.

(** [document.getElementById(x)] *)
Definition getElementById (x : string) : M target :=
  gets (fun d => if Str.is_empty x then TNull
                 else node_target (List.find (has_identifier x) (all_subtrees (doc d)))).

(** [document.createElement(t)]: a new element outside the document. *)
Definition createElement (t : string) : M target :=
  if valid_element_name t
  then fun d =>
         let r := fresh d in
         (Ret (TNode r),
          set_trees (doc d) (detached d ++ [Elem r (mk_edata (Str.to_lower t) [] "") []]) d)
  else throw InvalidCharacterError.

(** The receiver of an [Element] method or accessor. *)
Definition element (el : target) : M (ref * edata * list node) :=
  fun d =>
    match el with
    | TNode r =>
        match lookup r d with
        | Some (Elem _ e cs) => (Ret (r, e, cs), d)
        | _ => (Throw TypeError, d)
        end
    | _ => (Throw TypeError, d)
    end.

Definition check_token (c : string) : M unit :=
  if Str.is_empty c then throw SyntaxError
  else if Str.existsb Str.is_ws c then throw InvalidCharacterError
  else ret tt.

(** The update steps of a token list: write the set back to [class],
    unless there is no attribute and nothing to write. *)
Definition write_class (ts : list string) (e : edata) : edata :=
  match attr_get (attrs e) "class", ts with
  | None, [] => e
  | _, _ => set_attrs e (attr_set (attrs e) "class" (serialize ts))
  end.

Definition update_class (r : ref) (ts : list string) : M unit :=
  modify (alter_dom r (fun e cs => Elem r (write_class ts e) cs)).

Definition without (c : string) (ts : list string) : list string :=
  List.filter (fun t => negb (String.eqb c t)) ts.

(** [el.classList.add(c)] *)
Definition classList_add (el : target) (c : string) : M unit :=
  '(r, e, _) <- element el ;;
  check_token c ;;
  let ts := class_tokens e in
  update_class r (if mem c ts then ts else ts ++ [c]).

(** [el.classList.remove(c)] *)
Definition classList_remove (el : target) (c : string) : M unit :=
  '(r, e, _) <- element el ;;
  check_token c ;;
  update_class r (without c (class_tokens e)).

(** [el.classList.toggle(c)] *)
Definition classList_toggle (el : target) (c : string) : M unit :=
  '(r, e, _) <- element el ;;
  check_token c ;;
  let ts := class_tokens e in
  if mem c ts then update_class r (without c ts) else update_class r (ts ++ [c]).

(** [el.setAttribute(k, v)] *)
Definition setAttribute (el : target) (k v : string) : M unit :=
  '(r, _, _) <- element el ;;
  if valid_attribute_name k
  then modify (alter_dom r (fun e cs =>
                 Elem r (set_attrs e (attr_set (attrs e) (Str.to_lower k) v)) cs))
  else throw InvalidCharacterError.

(** [el.addEventListener(type, l)]: a string is no listener; a
    registration already there is not repeated. *)
Definition addEventListener (el : target) (type : string) (l : aval) : M unit :=
  fun d =>
    if is_event_target el d
    then match l with
         | AStr _ => (Throw TypeError, d)
         | _ =>
             if List.existsb (fun x => target_eqb (fst (fst x)) el
                                       && String.eqb (snd (fst x)) type
                                       && aval_eqb (snd x) l) (listeners d)
             then (Ret tt, d)
             else (Ret tt, add_listener (el, type, l) d)
         end
    else (Throw TypeError, d).

(** [el.dispatchEvent(new CustomEvent(x))]: the call is recorded; running
    the listeners is the host's. *)
Definition dispatchEvent (el : target) (x : target) : M unit :=
  fun d =>
    if is_event_target el d then (Ret tt, add_dispatched (el, x) d)
    else (Throw TypeError, d).

(** Replace the children of [r]; the elements among the old children
    become roots of their own. *)
Definition replace_children (r : ref) (new : list node) : M unit :=
  fun d =>
    match lookup r d with
    | Some (Elem _ _ old) =>
        let d' := alter_dom r (fun e _ => Elem r e new) d in
        (Ret tt, set_trees (doc d') (detached d' ++ List.filter is_elem old) d')
    | _ => (Throw TypeError, d)
    end.

(** The setter of [value] (HTML standard), on the data of the element.
    On an [input] it goes by the state of [type]: the [value] attribute
    is written in the states where the value is that attribute; a file
    input refuses every string but the empty one, which clears a
    selection the state does not carry; in all other states the string
    becomes the value and is sanitized, in the states [text], [search],
    [tel] and [password] by taking the line breaks out.  A [textarea]
    keeps the string as its raw value.  [update] reaches the setter for
    [INPUT] and [TEXTAREA] only. *)
Definition set_value (e : edata) (s : string) : outcome edata :=
  if String.eqb (Str.to_upper (tag e)) "INPUT"
  then
    let state := input_type e in
    if mem state attribute_states
    then Ret (set_attrs e (attr_set (attrs e) "value" s))
    else if String.eqb state "file"
    then (if Str.is_empty s then Ret e else Throw InvalidStateError)
    else if mem state host_states
    then Ret (set_input_value e (sanitize_value e s))
    else Ret (set_input_value e (Str.strip_newlines s))
  else Ret (set_input_value e s).

(** [el.value = s], [el.innerHTML = s], [el.textContent = s].  On the
    window and the document the assignment adds a property, except that
    [document.textContent] ignores it; a string or nothing cannot be
    assigned to. *)
Definition assign (el : target) (p : property) (s : string) : M unit :=
  match el with
  | TNode r =>
      '(_, e, _) <- element el ;;
      match p with
      | PValue =>
          match set_value e s with
          | Ret e' => modify (alter_dom r (fun _ cs => Elem r e' cs))
          | Throw x => throw x
          end
      | PTextContent => replace_children r (if Str.is_empty s then [] else [Text s])
      | PInnerHTML =>
          n <- gets fresh ;;
          replace_children r (build_all (parse_fragment e s) n)
      end
  | TDocument =>
      match p with
      | PTextContent => ret tt
      | _ => modify (add_expando (TDocument, property_name p, AStr s))
      end
  | TWindow => modify (add_expando (TWindow, property_name p, AStr s))
  | _ => throw TypeError
  end.

(** [el.tagName]: upper case on an element, whatever was stored on the
    window or the document, [undefined] on a string. *)
Definition tagName (el : target) : M (option aval) :=
  match el with
  | TUndef | TNull => throw TypeError
  | TNode r => '(_, e, _) <- element el ;; ret (Some (AStr (Str.to_upper (tag e))))
  | TStr _ => ret None
  | _ => gets (get_expando el "tagName")
  end.

(** Move the element [c] among the children of [p]: refused when [p] is
    [c] or inside it. *)
Definition move_into (p : ref) (w : place) (c : ref) : M unit :=
  fun d =>
    match lookup c d with
    | Some n =>
        if List.existsb (has_id p) (subtrees n)
        then (Throw HierarchyRequestError, d)
        else
          let g := graft p w [n] in
          (Ret tt, set_trees (List.map (alter p g) (prune_forest c (doc d)))
                             (List.map (alter p g) (prune_forest c (detached d))) d)
    | None => (Throw TypeError, d)
    end.

(** [el.appendChild(v)] *)
Definition appendChild (el : target) (v : aval) : M unit :=
  '(r, _, _) <- element el ;;
  match v with
  | ANode c => move_into r AtEnd c
  | _ => throw TypeError
  end.

(** [el.insertAdjacentElement(position, code)] *)
Definition insertAdjacentElement (el : target) (position : string) (code : target)
  : M unit :=
  '(r, _, _) <- element el ;;
  '(c, _, _) <- element code ;;
  let beside (w : place) : M unit :=
    p <- gets (parent_of r) ;;
    match p with
    | None => ret tt
    | Some ParentDocument => throw HierarchyRequestError
    | Some (ParentElement q) => if c =? r then ret tt else move_into q w c
    end in
  let pos := Str.to_lower position in
  if String.eqb pos "beforebegin" then beside (Before r)
  else if String.eqb pos "afterbegin" then move_into r AtStart c
  else if String.eqb pos "beforeend" then move_into r AtEnd c
  else if String.eqb pos "afterend" then beside (After r)
  else throw SyntaxError.

(** [el.insertAdjacentHTML(position, text)] *)
Definition insertAdjacentHTML (el : target) (position : string) (text : string)
  : M unit :=
  '(r, e, _) <- element el ;;
  let inside (w : place) : M unit :=
    n <- gets fresh ;;
    modify (alter_dom r (graft r w (build_all (parse_fragment e text) n))) in
  let beside (w : place) : M unit :=
    p <- gets (parent_of r) ;;
    match p with
    | Some (ParentElement q) =>
        '(_, eq, _) <- element (TNode q) ;;
        n <- gets fresh ;;
        modify (alter_dom q (graft q w (build_all (parse_fragment eq text) n)))
    | _ => throw NoModificationAllowedError
    end in
  let pos := Str.to_lower position in
  if String.eqb pos "beforebegin" then beside (Before r)
  else if String.eqb pos "afterbegin" then inside AtStart
  else if String.eqb pos "beforeend" then inside AtEnd
  else if String.eqb pos "afterend" then beside (After r)
  else throw SyntaxError.

(** [el.remove()]: nothing to do without a parent. *)
Definition remove_method (el : target) : M unit :=
  '(r, e, cs) <- element el ;;
  p <- gets (parent_of r) ;;
  match p with
  | None => ret tt
  | Some _ =>
      modify (fun d => set_trees (prune_forest r (doc d))
                                 (prune_forest r (detached d) ++ [Elem r e cs]) d)
  end.

(** [console.warn(msg, v)] *)
Definition console_warn (msg : string) (v : target) : M unit :=
  modify (add_warning (msg, v)).

(** [el.on], read and written. *)
Definition get_on (el : target) : M (option aval) :=
  match el with
  | TUndef | TNull => throw TypeError
  | TStr _ => ret None
  | _ => gets (get_expando el "on")
  end.

Definition set_on (el : target) (f : func) : M unit :=
  match el with
  | TNode _ | TDocument | TWindow => modify (add_expando (el, "on", AFun f))
  | _ => throw TypeError
  end.

(** [String(v)] of a property value. *)
Definition string_of (v : aval) : string :=
  match v with
  | AStr s => s
  | _ => object_string v
  end.

End Primitives.

(* ------------------------------------------------------------------ *)
(** ** The library: [src/kingdom.js]

    An omitted argument is [TUndef] or [None]; a default value applies to
    it the way a JS default parameter does. *)

Definition default {A : Type} (a : A) (o : option A) : A :=
  match o with Some x => x | None => a end.

Definition or_target (a : target) (v : target) : target :=
  match v with TUndef => a | _ => v end.

Definition is_function (v : aval) : bool :=
  match v with AFun _ => true | _ => false end.

Definition tag_is (tn : option aval) (name : string) : bool :=
  match tn with
  | Some (AStr s) => String.eqb s name
  | _ => false
  end.

(** [String(content)] *)
Definition item_string (i : item) : string :=
  match i with
  | IStr s => s
  | IObj _ _ => "[object Object]"
  end.

Definition content_string (c : content) : string :=
  match c with
  | CStr s => s
  | CArr l => Str.join "," (List.map item_string l)
  end.

Definition dquote : string := String (ascii_of_nat 34) EmptyString.

(** The [<option>] an item of a [SELECT] becomes. *)
Definition option_markup (i : item) : string :=
  match i with
  | IObj v l =>
      String.concat "" ["<option value="; dquote; v; dquote; ">"; l; "</option>"]
  | IStr s =>
      String.concat "" ["<option value="; dquote; s; dquote; ">"; s; "</option>"]
  end.

Section Library.
Context {host : Host}.

(** [export default function $ (target)]: in the non-string branch the
    initializer of [el] reads [el] itself, which is not initialized yet. *)
Definition dollar (t : target) : M target :=
  el <- match t with
        | TStr s => querySelector TDocument s
        | _ => throw ReferenceError
        end ;;
  o <- get_on el ;;
  (if negb (aval_truthy o) then set_on el (OnShorthand el) else ret tt) ;;
  ret el.

(** [function get (target, parent=document)] *)
Definition get (t : target) (parent : target) : M target :=
  let parent := or_target TDocument parent in
  el <- match t with
        | TStr s => querySelector parent s
        | _ => ret t
        end ;;
  (if negb (truthy el) then console_warn "Element not found:" t else ret tt) ;;
  ret el.

(** [function exists (target, parent=document)] *)
Definition exists_ (t : target) (parent : target) : M bool :=
  let parent := or_target TDocument parent in
  el <- match t with
        | TStr s => querySelector parent s
        | _ => ret t
        end ;;
  ret (negb (target_eqb el TNull)).

(** [function toggle (target, className = 'd-none', force)] *)
Definition toggle (t : target) (className : option string) (force : option bool)
  : M target :=
  let className := default "d-none" className in
  el <- get t TUndef ;;
  match force with
  | Some true => classList_add el className
  | Some false => classList_remove el className
  | None => classList_toggle el className
  end ;;
  ret el.

(** [function update(target, content, type='html')] *)
Definition update (t : target) (c : content) (type : option string) : M target :=
  let type := default "html" type in
  el <- get t TUndef ;;
  tn <- tagName el ;;
  let c := match c with
           | CArr l =>
               if tag_is tn "SELECT"
               then CStr (Str.join "" (List.map option_markup l))
               else c
           | CStr _ => c
           end in
  (if tag_is tn "INPUT" || tag_is tn "TEXTAREA"
   then assign el PValue (content_string c)
   else if String.eqb type "html" then assign el PInnerHTML (content_string c)
   else if String.eqb type "text" then assign el PTextContent (content_string c)
   else ret tt) ;;
  ret el.

(** [function update (target, content, type='html')] of the second copy:
    no case for form controls. *)
Definition update_plain (t : target) (c : string) (type : option string) : M target :=
  let type := default "html" type in
  el <- get t TUndef ;;
  (if String.eqb type "html" then assign el PInnerHTML c
   else if String.eqb type "text" then assign el PTextContent c
   else ret tt) ;;
  ret el.

(** [function show (target, force=true)] *)
Definition show (t : target) (force : option bool) : M unit :=
  let force := default true force in
  el <- get t TUndef ;;
  if force then classList_remove el "d-none" else classList_add el "d-none".

(** [function hide (target)] *)
Definition hide (t : target) : M unit :=
  el <- get t TUndef ;;
  classList_add el "d-none".

(** [function remove (target)] *)
Definition remove (t : target) : M unit :=
  el <- get t TUndef ;;
  remove_method el.

(** [function append (target, code, position = 'beforeend')] *)
Definition append (t : target) (code : target) (position : option string)
  : M target :=
  let position := default "beforeend" position in
  t' <- get t TUndef ;;
  match code with
  | TStr s => insertAdjacentHTML t' position s
  | _ => insertAdjacentElement t' position code
  end ;;
  ret t'.

(** [function create (tag, attributes = {}, parent, position)] *)
Definition create (tag : string) (attributes : obj) (parent : target)
                  (position : option string) : M target :=
  el <- createElement tag ;;
  for_each (fun attr =>
              match obj_get attributes attr with
              | Some v =>
                  if Str.startsWith "on" attr || is_function v
                  then addEventListener el (Str.strip_on attr) v
                  else if String.eqb attr "text" then assign el PTextContent (string_of v)
                  else if String.eqb attr "html" then assign el PInnerHTML (string_of v)
                  else if String.eqb attr "child" then appendChild el v
                  else setAttribute el attr (string_of v)
              | None => ret tt   (* a key of the object has a value *)
              end)
           (obj_keys attributes) ;;
  (if truthy parent then append parent el position ;; ret tt else ret tt) ;;
  ret el.

(** [function dispatch (target, evt)] *)
Definition dispatch (t : target) (evt : target) : M unit :=
  let '(t, evt) := if negb (truthy evt) then (TWindow, t) else (t, evt) in
  dispatchEvent t evt.

(** [function load (src, props = {}, parent = document.head)] *)
Definition load (src : string) (props : obj) (parent : target) : M target :=
  head <- gets document_head ;;
  let parent := or_target head parent in
  let inject : M target :=
    if Str.endsWith ".css" src
    then create "link"
                (obj_spread [("rel", AStr "stylesheet"); ("href", AStr src)] props)
                parent None
    else create "script" (obj_spread [("src", AStr src)] props) parent None in
  match obj_get props "id" with
  | Some v =>
      if aval_truthy (Some v)
      then el <- getElementById (string_of v) ;;
           if truthy el then ret el else inject
      else inject
  | None => inject
  end.

End Library.

(* ------------------------------------------------------------------ *)
(** ** A host and a page for the examples

    The selector engine of the examples knows [#id], [.class] and tag
    selectors; its fragment parser knows text without markup; its value
    sanitization knows the states [url] and [email], where line breaks and
    the white space around the value go.  The page is the one of the
    repository's test file. *)

Module Page.

Definition name_ok (s : string) : bool :=
  negb (Str.is_empty s)
  && Str.forallb (fun c => Str.is_alpha c || Str.is_digit c
                           || (nat_of_ascii c =? 45) || (nat_of_ascii c =? 95)) s.

Definition simple_valid (s : string) : bool :=
  match s with
  | String c s' =>
      if (nat_of_ascii c =? 35) || (nat_of_ascii c =? 46) then name_ok s' else name_ok s
  | EmptyString => false
  end.

Definition simple_matches (s : string) (_ _ : forest) (_ : target) (n : node) : bool :=
  match n, s with
  | Elem _ e _, String c s' =>
      if nat_of_ascii c =? 35 then has_identifier s' n
      else if nat_of_ascii c =? 46 then mem s' (class_tokens e)
      else String.eqb (tag e) (Str.to_lower s)
  | _, _ => false
  end.

#[export] Instance simple_host : Host := {
  selector_valid := simple_valid;
  selector_matches := simple_matches;
  parse_fragment := fun _ s => if Str.is_empty s then [] else [MText s];
  object_string := fun _ => "[object Object]";
  sanitize_value := fun _ s => Str.trim (Str.strip_newlines s)
}.

Definition el (i : ref) (t : string) (a : list (string * string)) (cs : list node)
  : node := Elem i (mk_edata t a "") cs.

Definition page : dom :=
  mk_dom
    [el 1 "html" []
        [el 2 "head" [] [];
         el 3 "body" []
            [el 4 "div" [("id", "test-div"); ("class", "d-none")] [];
             Elem 5 (mk_edata "input" [("id", "test-input"); ("type", "text");
                                       ("value", "initial")] "initial") [];
             el 6 "select" [("id", "test-select")]
                [el 7 "option" [("value", "1")] [Text "One"];
                 el 8 "option" [("value", "2")] [Text "Two"]];
             el 9 "button" [("id", "test-button")] [Text "Click me"]]]]
    [] [] [] [] [].

(** A page where two elements share an identifier. *)
Definition twin_page : dom :=
  mk_dom
    [el 1 "html" []
        [el 2 "head" [] [];
         el 3 "body" []
            [el 4 "div" [("id", "twin")] [];
             el 5 "div" [("id", "twin")] []]]]
    [] [] [] [] [].

(** A page with two hidden elements. *)
Definition hidden_pair_page : dom :=
  mk_dom
    [el 1 "html" []
        [el 2 "head" [] [];
         el 3 "body" []
            [el 4 "div" [("class", "d-none")] [];
             el 5 "div" [("class", "d-none")] []]]]
    [] [] [] [] [].

(** A page whose head was removed. *)
Definition headless_page : dom :=
  mk_dom
    [el 1 "html" [] [el 3 "body" [] [el 4 "div" [("id", "test-div")] []]]]
    [el 2 "head" [] []] [] [] [] [].

End Page.
Import Page.


(* ------------------------------------------------------------------ *)
(** ** What it means for a target to resolve *)

Definition is_element (r : ref) (d : dom) : bool :=
  match lookup r d with
  | Some (Elem _ _ _) => true
  | _ => false
  end.

(** The class tokens of the element [r]. *)
Definition classes (r : ref) (d : dom) : list string :=
  match lookup r d with
  | Some (Elem _ e _) => class_tokens e
  | _ => []
  end.

(** A state that differs from [d] at most in the [class] attribute of
    [r]: what [show], [hide] and [toggle] can make of [d]. *)
Inductive class_variant (r : ref) (d : dom) : dom -> Prop :=
| variant_same : class_variant r d d
| variant_write (d' : dom) (ts : list string) :
    class_variant r d d' ->
    class_variant r d (alter_dom r (fun e cs => Elem r (write_class ts e) cs) d').

(** What [alter] does to the element it reaches. *)
Definition on_node (g : edata -> list node -> node) (n : node) : node :=
  match n with
  | Elem _ e cs => g e cs
  | Text s => Text s
  end.

(** [g] returns an element with identity [r]. *)
Definition keeps (r : ref) (g : edata -> list node -> node) : Prop :=
  forall e cs, exists e' cs', g e cs = Elem r e' cs'.

(** Changing the data of [r] and keeping its children. *)
Definition with_data (r : ref) (f : edata -> edata) : edata -> list node -> node :=
  fun e cs => Elem r (f e) cs.

(** The tokens [classList] accepts, as a proposition. *)
Definition acceptable (t : string) : Prop := token_ok t = true.

(** What the three operations of [classList] make of a token set. *)
Definition tokens_add (c : string) (ts : list string) : list string :=
  if mem c ts then ts else ts ++ [c].

Definition tokens_toggle (c : string) (ts : list string) : list string :=
  if mem c ts then without c ts else ts ++ [c].

(** The token set [toggle] writes, by its [force] argument. *)
Definition tokens_forced (force : option bool) (c : string) (ts : list string)
  : list string :=
  match force with
  | Some true => tokens_add c ts
  | Some false => without c ts
  | None => tokens_toggle c ts
  end.

(** Setting the [class] attribute to a value. *)
Definition set_class (v : string) (e : edata) : edata :=
  set_attrs e (attr_set (attrs e) "class" v).

(** The elements [update] assigns a [value] to. *)
Definition text_control (e : edata) : bool :=
  String.eqb (Str.to_upper (tag e)) "INPUT"
  || String.eqb (Str.to_upper (tag e)) "TEXTAREA".

(** A state with one more root outside the document. *)
Definition with_root (n : node) (d : dom) : dom :=
  set_trees (doc d) (detached d ++ [n]) d.

(** Is the element [r] one that [update] assigns a [value] to? *)
Definition is_text_control (r : ref) (d : dom) : bool :=
  match lookup r d with
  | Some (Elem _ e _) => text_control e
  | _ => false
  end.

(** What [load] injects for a style sheet and for a script. *)
Definition link_node (r : ref) (src x : string) : node :=
  Elem r (mk_edata "link" [("rel", "stylesheet"); ("href", src); ("id", x)] "") [].

Definition script_node (r : ref) (src x : string) : node :=
  Elem r (mk_edata "script" [("src", src); ("id", x)] "") [].

(** The state after the new element [n] went to the end of the children
    of [h]. *)
Definition injected (h : ref) (n : node) (d : dom) : dom :=
  set_trees (List.map (alter h (graft h AtEnd [n])) (doc d)) (detached d) d.

(** What an [#id] selector sees of an element: its identity, and whether
    it has the identifier. *)
Definition ident_key (x : string) (n : node) : ref * bool :=
  match n with
  | Elem i _ _ => (i, has_identifier x n)
  | Text _ => (0, false)
  end.

(** Node identities are unique: no element occurs twice. *)
Fixpoint nodupb (l : list ref) : bool :=
  match l with
  | [] => true
  | x :: l' => negb (List.existsb (Nat.eqb x) l') && nodupb l'
  end.

Definition wf (d : dom) : bool := nodupb (node_ids (trees d)).

(* ------------------------------------------------------------------ *)
(** ** The rest of the library: [on], [each], [set], [disable], [enable],
    [focus]

    [setStyle] and [checked] are not embedded: the first needs the CSS
    declaration parser behind [el.style], the second the checkedness of
    form controls, which the state above does not carry. *)

(** [l] without the attribute [k]. *)
Fixpoint attr_remove (l : list (string * string)) (k : string)
  : list (string * string) :=
  match l with
  | [] => []
  | (k', v) :: l' =>
      if String.eqb k k' then attr_remove l' k else (k', v) :: attr_remove l' k
  end.

(** The second argument of [on]: an event name, or, when the target is
    left out, the handler. *)
Inductive evarg :=
| EName (s : string)
| EHandler (f : func)
| EOmitted.

(** What [each] is given: an array or node list, or a selector. *)
Inductive collection :=
| CList (l : list target)
| CSelector (s : string).

(** What [set] returns: the attribute read, or the element written to. *)
Inductive set_result :=
| Got (v : option string)
| SetOn (el : target).

(** A callback of [each]: called with the member and its index. *)
Definition visitor := target -> nat -> M unit.

(** [Array.prototype.forEach] and [NodeList.prototype.forEach], from the
    index [i] on; a throw of the callback ends the iteration. *)
Fixpoint forEach_from (i : nat) (cb : visitor) (l : list target) : M unit :=
  match l with
  | [] => ret tt
  | x :: l' => cb x i ;; forEach_from (S i) cb l'
  end.

(** The focusing steps of the host, run by [el.focus()]. *)
Class FocusHost := {
  focusing_steps : target -> dom -> dom
}.

Section MorePrimitives.
Context {host : Host}.

(** [el.getAttribute(k)] *)
Definition getAttribute (el : target) (k : string) : M (option string) :=
  '(_, e, _) <- element el ;;
  ret (attr_get (attrs e) (Str.to_lower k)).

(** [el.removeAttribute(k)] *)
Definition removeAttribute (el : target) (k : string) : M unit :=
  '(r, _, _) <- element el ;;
  modify (alter_dom r (fun e cs =>
            Elem r (set_attrs e (attr_remove (attrs e) (Str.to_lower k))) cs)).

(** [document.querySelectorAll(sel)]: the matching elements of the
    document, in tree order. *)
Definition querySelectorAll (sel : string) : M (list target) :=
  if selector_valid sel
  then gets (fun d =>
         List.map (fun n => node_target (Some n))
                  (List.filter (selector_matches sel (doc d) (detached d) TDocument)
                               (scope_elements TDocument d)))
  else throw SyntaxError.

(** [String(v)] of a target. *)
Definition target_string (t : target) : string :=
  match t with
  | TUndef => "undefined"
  | TNull => "null"
  | TStr s => s
  | TNode r => object_string (ANode r)
  | TDocument => "[object HTMLDocument]"
  | TWindow => "[object Window]"
  end.

Definition evarg_string (e : evarg) : string :=
  match e with
  | EName s => s
  | EHandler f => object_string (AFun f)
  | EOmitted => "undefined"
  end.

(** [el.addEventListener(type, l)] with what [on] may pass as listener:
    nothing is registered for [undefined]. *)
Definition listen (el : target) (type : string) (l : evarg) : M unit :=
  match l with
  | EHandler f => addEventListener el type (AFun f)
  | EName s => addEventListener el type (AStr s)
  | EOmitted =>
      fun d => if is_event_target el d then (Ret tt, d) else (Throw TypeError, d)
  end.

(** [typeof el.focus === 'function']: elements and the window. *)
Definition has_focus (el : target) (d : dom) : bool :=
  match el with
  | TNode r => is_element r d
  | TWindow => true
  | _ => false
  end.

End MorePrimitives.

Section MoreLibrary.
Context {host : Host}.

(** [function on (target, event, cb)] *)
Definition on (t : target) (event : evarg) (cb : option func) : M target :=
  let '(t, type, listener) :=
    match cb with
    | None => (TWindow, target_string t, event)
    | Some f => (t, evarg_string event, EHandler f)
    end in
  el <- get t TUndef ;;
  match el with
  | TUndef | TNull => ret tt
  | _ => listen el type listener
  end ;;
  ret el.

(** [function each(target, cb)] *)
Definition each (c : collection) (cb : option visitor) : M (list target) :=
  els <- match c with
         | CList l => ret l
         | CSelector s => querySelectorAll s
         end ;;
  match cb with
  | Some f => forEach_from 0 f els
  | None => ret tt
  end ;;
  ret els.

(** [function set (target, attr, value)] *)
Definition set (t : target) (attr : string) (value : option string) : M set_result :=
  el <- get t TUndef ;;
  match value with
  | None => v <- getAttribute el attr ;; ret (Got v)
  | Some v => setAttribute el attr v ;; ret (SetOn el)
  end.

(** [function disable (el)] *)
Definition disable (t : target) : M target :=
  el <- get t TUndef ;;
  setAttribute el "disabled" "disabled" ;;
  ret el.

(** [function enable (el)] *)
Definition enable (t : target) : M target :=
  el <- get t TUndef ;;
  removeAttribute el "disabled" ;;
  ret el.

(** [function focus(el)] *)
Definition focus {fh : FocusHost} (t : target) : M target :=
  el <- get t TUndef ;;
  f <- gets (has_focus el) ;;
  (if truthy el && f then modify (focusing_steps el) else ret tt) ;;
  ret el.

End MoreLibrary.

(** The attributes of the element [r]. *)
Definition attributes_of (r : ref) (d : dom) : list (string * string) :=
  match lookup r d with
  | Some (Elem _ e _) => attrs e
  | _ => []
  end.

(** The children of the element [r]. *)
Definition children_of (r : ref) (d : dom) : list node :=
  match lookup r d with
  | Some (Elem _ _ cs) => cs
  | _ => []
  end.

(** A callback for [each] that notes each call, member and index, in the
    listener table through [note]. *)
Definition noting (note : target -> nat -> target * string * aval) : visitor :=
  fun el i => modify (add_listener (note el i)).

(** The calls [each] makes on a list, from the index [i] on. *)
Fixpoint calls_from (i : nat) (note : target -> nat -> target * string * aval)
         (l : list target) : list (target * string * aval) :=
  match l with
  | [] => []
  | x :: l' => note x i :: calls_from (S i) note l'
  end.

(** Is the listener [l] registered on [el] for the event [type]? *)
Definition registered (el : target) (type : string) (l : aval) (d : dom) : bool :=
  List.existsb (fun x => target_eqb (fst (fst x)) el
                         && String.eqb (snd (fst x)) type
                         && aval_eqb (snd x) l) (listeners d).

(** Has the element [r] a parent? *)
Definition has_parent (r : ref) (d : dom) : bool :=
  match parent_of r d with
  | Some _ => true
  | None => false
  end.

(** Is [r] an element of the document? *)
Definition in_document (r : ref) (d : dom) : bool :=
  List.existsb (Nat.eqb r) (node_ids (doc d)).






(** The data of a node that is an element. *)
Definition node_data (n : node) : option edata :=
  match n with
  | Elem _ e _ => Some e
  | Text _ => None
  end.

(** The callback [el => hide(el)] for [each]. *)
Definition hiding {host : Host} : visitor := fun el _ => hide el.

(** A focus host for the examples: the focused element is noted as
    [document.activeElement]. *)
#[export] Instance noting_focus : FocusHost := {
  focusing_steps := fun el d =>
    match el with
    | TNode r => add_expando (TDocument, "activeElement", ANode r) d
    | _ => d
    end
}.

Section Resolution.
Context {host : Host}.

(** [t] resolves to the element [r] in [d]. *)
Definition resolves (t : target) (r : ref) (d : dom) : Prop :=
  is_element r d = true /\ fst (get t TUndef d) = Ret (TNode r).

(** A target as the interface documents it: a selector the engine
    accepts, or an element reference. *)
Definition selector_or_reference (t : target) : bool :=
  match t with
  | TStr s => selector_valid s
  | TNode _ => true
  | _ => false
  end.

(** A scope a query can be rooted at: the document (also by default) or
    an element. *)
Definition query_root (scope : target) : bool :=
  match scope with
  | TUndef | TDocument | TNode _ => true
  | _ => false
  end.

(** [n] consecutive [hide]-then-[show] round trips. *)
Fixpoint round_trips (t : target) (n : nat) (d : dom) : dom :=
  match n with
  | 0 => d
  | S k => round_trips t k (snd (show t None (snd (hide t d))))
  end.

End Resolution.

(* ------------------------------------------------------------------ *)
(** ** Resolution: [$], [get], [exists] *)

Section ResolutionFacts.
Context {host : Host}.

Lemma node_target_cases (o : option node) :
  node_target o = TNull \/ exists r, node_target o = TNode r.
Proof.
  destruct o as [[s | i e cs] | ]; simpl; eauto.
Qed.

(** A query never changes the state, whatever it returns. *)
Lemma querySelector_state (scope : target) (s : string) (d : dom) :
  snd (querySelector scope s d) = d.
Proof.
  unfold querySelector.
  destruct scope; try reflexivity; destruct (selector_valid s); reflexivity.
Qed.

(** On a query root, a valid selector yields an element or [null]. *)
Lemma querySelector_result (scope : target) (s : string) (d : dom) :
  query_root scope = true -> selector_valid s = true ->
  querySelector (or_target TDocument scope) s d = (Ret TNull, d)
  \/ exists r, querySelector (or_target TDocument scope) s d = (Ret (TNode r), d).
Proof.
  intros Hq Hs. unfold querySelector.
  destruct scope; try discriminate; simpl; rewrite Hs; unfold gets;
    match goal with
    | |- context [node_target ?o] =>
        destruct (node_target_cases o) as [E | [q E]]; rewrite E; eauto
    end.
Qed.

(** A target that resolved left no warning behind. *)
Lemma get_resolved (t scope : target) (r : ref) (d : dom) :
  fst (get t scope d) = Ret (TNode r) -> get t scope d = (Ret (TNode r), d).
Proof.
  unfold get, bind, console_warn, modify, ret.
  destruct t as [ | | s | q | | ]; simpl; try discriminate.
  - pose proof (querySelector_state (or_target TDocument scope) s d) as Hst.
    destruct (querySelector (or_target TDocument scope) s d) as [[v | e] d'] eqn:E;
      simpl in *; subst d'; [ | discriminate ].
    destruct v; simpl; try discriminate.
    + destruct (Str.is_empty s0); simpl; discriminate.
    + intros H; exact (f_equal (fun o => (o, d)) H).
  - intros H; exact (f_equal (fun o => (o, d)) H).
Qed.

(** What [get] does with a selector that matches nothing. *)
Lemma get_unmatched (s : string) (d : dom) :
  fst (querySelector TDocument s d) = Ret TNull ->
  get (TStr s) TUndef d = (Ret TNull, add_warning ("Element not found:", TStr s) d).
Proof.
  intros H. unfold get, bind. simpl or_target.
  pose proof (querySelector_state TDocument s d) as Hst.
  destruct (querySelector TDocument s d) as [o d'] eqn:E. simpl in *. subst.
  reflexivity.
Qed.

(** [get] leaves the trees as they are. *)
Lemma get_trees (t scope : target) (d : dom) :
  doc (snd (get t scope d)) = doc d /\ detached (snd (get t scope d)) = detached d.
Proof.
  unfold get, bind.
  destruct t as [ | | s | q | | ]; try (split; reflexivity).
  pose proof (querySelector_state (or_target TDocument scope) s d) as Hst.
  destruct (querySelector (or_target TDocument scope) s d) as [[v | e] d'];
    simpl in Hst; subst d'; [ | split; reflexivity ].
  destruct (negb (truthy v)); split; reflexivity.
Qed.

End ResolutionFacts.

Section ResolutionTheorems.
Context {host : Host}.

(** C10.  On a target that is not a string, [$] never returns the
    reference it was given: the selector-or-reference branch reads the
    binding [el] that is being initialized, and the call fails with a
    [ReferenceError] before anything else happens. *)
Theorem dollar_never_returns_reference (t : target) (d : dom) :
  is_string t = false -> dollar t d = (Throw ReferenceError, d).
Proof.
  intros H. destruct t; try discriminate; reflexivity.
Qed.

(** C7.  [get] leaves the document tree as it is, inside and outside the
    document, whatever the target and the scope, and on an element
    reference it returns that very reference. *)
Theorem get_leaves_tree (t scope : target) (r : ref) (d : dom) :
  doc (snd (get t scope d)) = doc d
  /\ detached (snd (get t scope d)) = detached d
  /\ get (TNode r) scope d = (Ret (TNode r), d).
Proof.
  assert (Hframe : forall v d0,
             doc (snd ((if negb (truthy v)
                        then console_warn "Element not found:" t
                        else ret tt) d0)) = doc d0
             /\ detached (snd ((if negb (truthy v)
                                then console_warn "Element not found:" t
                                else ret tt) d0)) = detached d0).
  { intros v d0. destruct (negb (truthy v)); split; reflexivity. }
  split; [ | split ]; [ | | reflexivity ].
  - unfold get, bind.
    destruct t as [ | | s | q | | ]; try reflexivity.
    pose proof (querySelector_state (or_target TDocument scope) s d) as Hst.
    destruct (querySelector (or_target TDocument scope) s d) as [[v | e] d'];
      simpl in Hst; subst d'; [ | reflexivity ].
    specialize (Hframe v d). destruct Hframe as [Hdoc _].
    destruct ((if negb (truthy v)
               then console_warn "Element not found:" (TStr s)
               else ret tt) d) as [[u | e] d'] eqn:E; simpl in *; exact Hdoc.
  - unfold get, bind.
    destruct t as [ | | s | q | | ]; try reflexivity.
    pose proof (querySelector_state (or_target TDocument scope) s d) as Hst.
    destruct (querySelector (or_target TDocument scope) s d) as [[v | e] d'];
      simpl in Hst; subst d'; [ | reflexivity ].
    specialize (Hframe v d). destruct Hframe as [_ Hdet].
    destruct ((if negb (truthy v)
               then console_warn "Element not found:" (TStr s)
               else ret tt) d) as [[u | e] d'] eqn:E; simpl in *; exact Hdet.
Qed.

(** C6.  On a selector or an element reference, within the document or an
    element, [exists] returns a boolean, throws nothing and leaves the
    state, the console included, as it was; the boolean is [true] exactly
    when [get] on the same arguments resolves to a node. *)
Theorem exists_total (t scope : target) (d : dom) :
  selector_or_reference t = true -> query_root scope = true ->
  exists b : bool,
    exists_ t scope d = (Ret b, d)
    /\ (b = true <-> exists r, fst (get t scope d) = Ret (TNode r)).
Proof.
  intros Ht Hs.
  destruct t as [ | | s | q | | ]; try discriminate; simpl in Ht.
  - unfold exists_, get, bind.
    destruct (querySelector_result scope s d Hs Ht) as [E | [r E]]; rewrite E.
    + exists false. split; [ reflexivity | ].
      split; [ discriminate | intros [r H]; discriminate ].
    + exists true. split; [ reflexivity | ].
      split; [ intros _; exists r; reflexivity | reflexivity ].
  - exists true. split; [ reflexivity | ].
    split; [ intros _; exists q; reflexivity | reflexivity ].
Qed.

End ResolutionTheorems.

Lemma dollar_never_returns_reference_witness :
  is_string (TNode 4) = false /\ dollar (TNode 4) page = (Throw ReferenceError, page).
Proof.
  split; [ reflexivity | ].
  apply (dollar_never_returns_reference (TNode 4) page). reflexivity.
Defined.

Lemma exists_total_witness :
  selector_or_reference (TStr "#test-input") = true
  /\ query_root TUndef = true
  /\ exists b : bool,
       exists_ (TStr "#test-input") TUndef page = (Ret b, page)
       /\ (b = true <-> exists r, fst (get (TStr "#test-input") TUndef page) = Ret (TNode r)).
Proof.
  split; [ reflexivity | ]. split; [ reflexivity | ].
  apply (exists_total (TStr "#test-input") TUndef page); reflexivity.
Defined.

(** The test file's two cases of [exists]. *)
Example exists_on_the_page :
  fst (exists_ (TStr "#test-input") TUndef page) = Ret true
  /\ fst (exists_ (TStr "#non-existent") TUndef page) = Ret false.
Proof. split; reflexivity. Qed.

(* ------------------------------------------------------------------ *)
(** ** [remove] and [dispatch] *)

Section RemoveDispatch.
Context {host : Host}.

(** C1, as the code has it.  When the selector matches no node,
    [remove] leaves the resolver's warning on the console and then fails
    with a [TypeError], calling [remove] on [null]; the tree, inside and
    outside the document, is unchanged. *)
Theorem remove_unmatched_selector (s : string) (d : dom) :
  fst (querySelector TDocument s d) = Ret TNull ->
  exists d',
    remove (TStr s) d = (Throw TypeError, d')
    /\ console d' = console d ++ [("Element not found:", TStr s)]
    /\ doc d' = doc d /\ detached d' = detached d.
Proof.
  intros H. exists (add_warning ("Element not found:", TStr s) d).
  split; [ | repeat split ].
  unfold remove, bind. rewrite (get_unmatched s d H). reflexivity.
Qed.

(** [dispatch] hands a string target to [dispatchEvent] as it is. *)
Lemma dispatch_string_target (s : string) (evt : target) (d : dom) :
  truthy evt = true -> dispatch (TStr s) evt d = (Throw TypeError, d).
Proof.
  intros H. unfold dispatch. rewrite H. reflexivity.
Qed.

(** With one argument, the event goes to the window. *)
Lemma dispatch_omitted_target (evt : target) (d : dom) :
  dispatch evt TUndef d = (Ret tt, add_dispatched (TWindow, evt) d).
Proof. reflexivity. Qed.

(** On an element reference the event is fired on that element. *)
Lemma dispatch_reference (r : ref) (evt : target) (d : dom) :
  truthy evt = true -> is_element r d = true ->
  dispatch (TNode r) evt d = (Ret tt, add_dispatched (TNode r, evt) d).
Proof.
  intros H Hr. unfold dispatch. rewrite H. simpl.
  unfold dispatchEvent, is_event_target. unfold is_element in Hr.
  destruct (lookup r d); [ reflexivity | discriminate ].
Qed.

End RemoveDispatch.

Lemma remove_unmatched_selector_witness :
  fst (querySelector TDocument "#non-existent" page) = Ret TNull
  /\ exists d',
       remove (TStr "#non-existent") page = (Throw TypeError, d')
       /\ console d' = console page ++ [("Element not found:", TStr "#non-existent")]
       /\ doc d' = doc page /\ detached d' = detached page.
Proof.
  split; [ reflexivity | ].
  apply (remove_unmatched_selector "#non-existent" page). reflexivity.
Defined.

(** C1 as stated fails: the selector matches nothing on the test page and
    [remove] raises. *)
Lemma remove_unmatched_raises :
  fst (querySelector TDocument "#non-existent" page) = Ret TNull
  /\ fst (remove (TStr "#non-existent") page) = Throw TypeError.
Proof. split; reflexivity. Qed.

(** C2 at the failing input: [#test-button] resolves to the button of the
    test page, yet [dispatch('#test-button', 'click')] fails with a
    [TypeError] and no event is fired, on the button or anywhere. *)
Theorem dispatch_selector_fails :
  fst (get (TStr "#test-button") TUndef page) = Ret (TNode 9)
  /\ dispatch (TStr "#test-button") (TStr "click") page = (Throw TypeError, page)
  /\ dispatched page = [].
Proof. repeat split. Qed.

(* ------------------------------------------------------------------ *)
(** ** Class tokens: the token set survives being written to [class] *)

Module TokenFacts.

Lemma append_nil_r (s : string) : String.append s "" = s.
Proof. induction s; simpl; congruence. Qed.

Lemma append_assoc (a b c : string) :
  String.append (String.append a b) c = String.append a (String.append b c).
Proof. induction a; simpl; congruence. Qed.

Lemma existsb_append (p : ascii -> bool) (a b : string) :
  Str.existsb p (String.append a b) = Str.existsb p a || Str.existsb p b.
Proof.
  induction a; simpl; [ reflexivity | ].
  rewrite IHa. apply orb_assoc.
Qed.

Lemma is_empty_append (a b : string) :
  Str.is_empty (String.append a b) = Str.is_empty a && Str.is_empty b.
Proof. destruct a; reflexivity. Qed.

Lemma ok_inv (t : string) :
  acceptable t -> Str.is_empty t = false /\ Str.existsb Str.is_ws t = false.
Proof.
  unfold acceptable, token_ok. intros H.
  apply andb_prop in H. destruct H as [H1 H2].
  split; [ destruct (Str.is_empty t) | destruct (Str.existsb Str.is_ws t) ];
    simpl in *; congruence.
Qed.

(** Splitting yields acceptable tokens only. *)
Lemma split_ws_from_ok (s cur : string) :
  Str.existsb Str.is_ws cur = false ->
  Forall acceptable (Str.split_ws_from cur s).
Proof.
  revert cur. induction s as [ | c s IH]; intros cur Hcur; simpl.
  - destruct (Str.is_empty cur) eqn:E; constructor; [ | constructor ].
    unfold acceptable, token_ok. rewrite E, Hcur. reflexivity.
  - destruct (Str.is_ws c) eqn:Ec.
    + destruct (Str.is_empty cur) eqn:E.
      * apply IH. reflexivity.
      * constructor; [ | apply IH; reflexivity ].
        unfold acceptable, token_ok. rewrite E, Hcur. reflexivity.
    + apply IH. rewrite existsb_append, Hcur. simpl. rewrite Ec. reflexivity.
Qed.

(** Reading a stretch without whitespace extends the current token. *)
Lemma split_ws_from_word (t cur rest : string) :
  Str.existsb Str.is_ws t = false ->
  Str.split_ws_from cur (String.append t rest)
  = Str.split_ws_from (String.append cur t) rest.
Proof.
  revert cur. induction t as [ | c t IH]; intros cur Ht; simpl.
  - rewrite append_nil_r. reflexivity.
  - simpl in Ht. apply orb_false_elim in Ht. destruct Ht as [Hc Ht].
    rewrite Hc, (IH _ Ht), append_assoc. reflexivity.
Qed.

(** Serializing acceptable tokens and splitting again is the identity. *)
Lemma split_serialize (ts : list string) :
  Forall acceptable ts -> Str.split_ws (serialize ts) = ts.
Proof.
  unfold serialize, Str.split_ws.
  induction ts as [ | x ts IH]; intros H; [ reflexivity | ].
  inversion H as [ | ? ? Hx Hts]; subst.
  destruct (ok_inv x Hx) as [Hne Hws].
  destruct ts as [ | y ts].
  - change (Str.join " " [x]) with x.
    rewrite <- (append_nil_r x) at 1.
    rewrite (split_ws_from_word x "" "" Hws).
    change (Str.split_ws_from (String.append "" x) "")
      with (if Str.is_empty x then [] else [x]).
    rewrite Hne. reflexivity.
  - change (Str.join " " (x :: y :: ts))
      with (String.append x (String.append " " (Str.join " " (y :: ts)))).
    specialize (IH Hts).
    remember (Str.join " " (y :: ts)) as rest eqn:Hrest. clear Hrest.
    rewrite (split_ws_from_word x "" _ Hws).
    change (Str.split_ws_from (String.append "" x) (String.append " " rest))
      with (if Str.is_empty x
            then Str.split_ws_from "" rest
            else x :: Str.split_ws_from "" rest).
    rewrite Hne, IH. reflexivity.
Qed.

Lemma mem_In (c : string) (l : list string) : mem c l = true <-> In c l.
Proof.
  unfold mem. rewrite existsb_exists. split.
  - intros [x [Hin Heq]]. apply String.eqb_eq in Heq. subst. exact Hin.
  - intros Hin. exists c. split; [ exact Hin | apply String.eqb_refl ].
Qed.

Lemma mem_false (c : string) (l : list string) : mem c l = false <-> ~ In c l.
Proof.
  rewrite <- mem_In. destruct (mem c l); split; congruence.
Qed.

Lemma filter_absent (x : string) (l : list string) :
  ~ In x l -> List.filter (fun y => negb (String.eqb x y)) l = l.
Proof.
  induction l as [ | a l IH]; intros H; simpl; [ reflexivity | ].
  destruct (String.eqb_spec x a) as [E | E]; simpl.
  - subst. exfalso. apply H. left. reflexivity.
  - rewrite IH; [ reflexivity | ]. intros Hin. apply H. right. exact Hin.
Qed.

Lemma dedupe_NoDup (l : list string) : NoDup (dedupe l).
Proof.
  induction l as [ | x l IH]; simpl; constructor.
  - intros Hin. apply filter_In in Hin. destruct Hin as [_ H].
    rewrite String.eqb_refl in H. discriminate.
  - apply NoDup_filter. exact IH.
Qed.

Lemma dedupe_fixed (l : list string) : NoDup l -> dedupe l = l.
Proof.
  induction l as [ | x l IH]; intros H; simpl; [ reflexivity | ].
  inversion H; subst. rewrite IH by assumption.
  rewrite filter_absent by assumption. reflexivity.
Qed.

Lemma dedupe_Forall (P : string -> Prop) (l : list string) :
  Forall P l -> Forall P (dedupe l).
Proof.
  induction 1 as [ | x l Hx Hl IH]; simpl; constructor; [ exact Hx | ].
  rewrite Forall_forall in *. intros y Hy.
  apply filter_In in Hy. destruct Hy as [Hy _]. apply IH. exact Hy.
Qed.

Lemma tokens_of_ok (s : string) : Forall acceptable (tokens_of s).
Proof.
  unfold tokens_of. apply dedupe_Forall.
  apply split_ws_from_ok. reflexivity.
Qed.

Lemma tokens_of_NoDup (s : string) : NoDup (tokens_of s).
Proof. apply dedupe_NoDup. Qed.

(** The round trip of the token set through the attribute value. *)
Lemma tokens_of_serialize (ts : list string) :
  Forall acceptable ts -> NoDup ts -> tokens_of (serialize ts) = ts.
Proof.
  intros Hok Hnd. unfold tokens_of.
  rewrite (split_serialize ts Hok). apply dedupe_fixed. exact Hnd.
Qed.

Lemma attr_get_set (l : list (string * string)) (k v : string) :
  attr_get (attr_set l k v) k = Some v.
Proof.
  induction l as [ | [k' v'] l IH]; simpl.
  - rewrite String.eqb_refl. reflexivity.
  - destruct (String.eqb k k') eqn:E; simpl; rewrite E; [ reflexivity | exact IH ].
Qed.

Lemma class_tokens_ok (e : edata) : Forall acceptable (class_tokens e).
Proof.
  unfold class_tokens. destruct (attr_get (attrs e) "class").
  - apply tokens_of_ok.
  - constructor.
Qed.

Lemma class_tokens_NoDup (e : edata) : NoDup (class_tokens e).
Proof.
  unfold class_tokens. destruct (attr_get (attrs e) "class").
  - apply tokens_of_NoDup.
  - constructor.
Qed.

(** Reading the classes after the update steps gives the set written. *)
Lemma class_tokens_write (ts : list string) (e : edata) :
  Forall acceptable ts -> NoDup ts -> class_tokens (write_class ts e) = ts.
Proof.
  intros Hok Hnd. unfold write_class.
  assert (Hset : class_tokens (set_attrs e (attr_set (attrs e) "class" (serialize ts)))
                 = ts).
  { unfold class_tokens. simpl. rewrite attr_get_set.
    apply tokens_of_serialize; assumption. }
  destruct (attr_get (attrs e) "class") eqn:E; [ exact Hset | ].
  destruct ts; [ | exact Hset ].
  unfold class_tokens. rewrite E. reflexivity.
Qed.

Lemma without_ok (c : string) (ts : list string) :
  Forall acceptable ts -> Forall acceptable (without c ts).
Proof.
  intros H. rewrite Forall_forall in *. intros x Hx.
  apply filter_In in Hx. apply H. tauto.
Qed.

Lemma without_NoDup (c : string) (ts : list string) :
  NoDup ts -> NoDup (without c ts).
Proof. apply NoDup_filter. Qed.

Lemma without_mem (c : string) (ts : list string) : mem c (without c ts) = false.
Proof.
  apply mem_false. intros H. apply filter_In in H. destruct H as [_ H].
  rewrite String.eqb_refl in H. discriminate.
Qed.

Lemma without_absent (c : string) (ts : list string) :
  mem c ts = false -> without c ts = ts.
Proof. intros H. apply filter_absent. apply mem_false. exact H. Qed.

Lemma without_idem (c : string) (ts : list string) :
  without c (without c ts) = without c ts.
Proof. apply without_absent. apply without_mem. Qed.

Lemma snoc_ok (c : string) (ts : list string) :
  acceptable c -> Forall acceptable ts -> Forall acceptable (ts ++ [c]).
Proof.
  intros Hc H. apply Forall_app. split; [ exact H | ].
  constructor; [ exact Hc | constructor ].
Qed.

Lemma snoc_NoDup (c : string) (ts : list string) :
  mem c ts = false -> NoDup ts -> NoDup (ts ++ [c]).
Proof.
  intros Hc H. apply mem_false in Hc.
  induction ts as [ | x ts IH]; simpl.
  - constructor; [ intros [] | constructor ].
  - inversion H; subst. constructor.
    + intros Hin. apply in_app_or in Hin. destruct Hin as [Hin | [Hin | []]].
      * contradiction.
      * subst. apply Hc. left. reflexivity.
    + apply IH; [ | assumption ]. intros Hin. apply Hc. right. exact Hin.
Qed.

Lemma snoc_mem (c : string) (ts : list string) : mem c (ts ++ [c]) = true.
Proof. apply mem_In. apply in_or_app. right. left. reflexivity. Qed.

Lemma without_snoc (c : string) (ts : list string) :
  mem c ts = false -> without c (ts ++ [c]) = ts.
Proof.
  intros H. unfold without. rewrite filter_app. simpl.
  rewrite String.eqb_refl. simpl. rewrite app_nil_r.
  apply filter_absent. apply mem_false. exact H.
Qed.

(** What [check_token] lets through. *)
Lemma check_token_ok (c : string) (d : dom) :
  token_ok c = true -> check_token c d = (Ret tt, d).
Proof.
  intros H. destruct (ok_inv c H) as [H1 H2].
  unfold check_token. rewrite H1, H2. reflexivity.
Qed.

Lemma check_token_bad (c : string) (d : dom) :
  token_ok c = false -> exists e, check_token c d = (Throw e, d).
Proof.
  unfold token_ok, check_token. intros H.
  destruct (Str.is_empty c); [ eexists; reflexivity | ].
  destruct (Str.existsb Str.is_ws c); [ eexists; reflexivity | discriminate ].
Qed.

End TokenFacts.

(* ------------------------------------------------------------------ *)
(** ** Trees: finding and altering an element *)

Module TreeFacts.

(** Induction on a tree, with the property available on the children. *)
Lemma node_induction (P : node -> Prop) :
  (forall s, P (Text s)) ->
  (forall i e cs, Forall P cs -> P (Elem i e cs)) ->
  forall n, P n.
Proof.
  intros HT HE.
  fix IH 1. intros [s | i e cs].
  - apply HT.
  - apply HE. induction cs as [ | c cs IHcs]; constructor.
    + apply IH.
    + exact IHcs.
Qed.

Lemma find_app {A : Type} (p : A -> bool) (l1 l2 : list A) :
  List.find p (l1 ++ l2)
  = match List.find p l1 with Some x => Some x | None => List.find p l2 end.
Proof.
  induction l1 as [ | a l1 IH]; simpl; [ reflexivity | ].
  destruct (p a); [ reflexivity | exact IH ].
Qed.

Lemma all_subtrees_app (f g : forest) :
  all_subtrees (f ++ g) = all_subtrees f ++ all_subtrees g.
Proof. apply flat_map_app. Qed.

Lemma keeps_with_data (r : ref) (f : edata -> edata) : keeps r (with_data r f).
Proof. intros e cs. exists (f e), cs. reflexivity. Qed.

Lemma find_node_id (r : ref) (f : forest) (n : node) :
  find_node r f = Some n -> exists e cs, n = Elem r e cs.
Proof.
  intros H. apply find_some in H. destruct H as [_ H].
  destruct n as [s | i e cs]; simpl in H; [ discriminate | ].
  apply Nat.eqb_eq in H. subst. eauto.
Qed.

Section Alter.
Variable r : ref.
Variable g : edata -> list node -> node.
Hypothesis g_keeps : keeps r g.

Lemma find_alter_forest (cs : forest) :
  Forall (fun n => List.find (has_id r) (subtrees (alter r g n))
                   = option_map (on_node g) (List.find (has_id r) (subtrees n))) cs ->
  List.find (has_id r) (all_subtrees (List.map (alter r g) cs))
  = option_map (on_node g) (List.find (has_id r) (all_subtrees cs)).
Proof.
  unfold all_subtrees.
  induction 1 as [ | c cs Hc Hcs IH]; simpl; [ reflexivity | ].
  rewrite !find_app, Hc, IH.
  destruct (List.find (has_id r) (subtrees c)); reflexivity.
Qed.

Lemma find_alter_node (n : node) :
  List.find (has_id r) (subtrees (alter r g n))
  = option_map (on_node g) (List.find (has_id r) (subtrees n)).
Proof.
  induction n as [s | i e cs IH] using node_induction; [ reflexivity | ].
  simpl alter. destruct (i =? r) eqn:E.
  - destruct (g_keeps e cs) as [e' [cs' Hg]].
    simpl. rewrite E. simpl. rewrite Hg. simpl. rewrite Nat.eqb_refl. reflexivity.
  - simpl. rewrite E. apply (find_alter_forest cs IH).
Qed.

(** The element found after [alter] is the altered element found
    before. *)
Lemma find_node_alter (f : forest) :
  find_node r (List.map (alter r g) f) = option_map (on_node g) (find_node r f).
Proof.
  apply find_alter_forest. apply Forall_forall. intros n _. apply find_alter_node.
Qed.

End Alter.

Lemma trees_alter_dom (r : ref) (g : edata -> list node -> node) (d : dom) :
  trees (alter_dom r g d) = List.map (alter r g) (trees d).
Proof. unfold trees, alter_dom. simpl. rewrite map_app. reflexivity. Qed.

Lemma lookup_alter_dom (r : ref) (g : edata -> list node -> node) (d : dom) :
  keeps r g -> lookup r (alter_dom r g d) = option_map (on_node g) (lookup r d).
Proof.
  intros Hg. unfold lookup. rewrite trees_alter_dom. apply find_node_alter. exact Hg.
Qed.

(** Two rewritings of [r] in a row are one. *)
Lemma alter_rewrite_twice (r : ref) (f1 f2 : edata -> edata) (n : node) :
  alter r (with_data r f2) (alter r (with_data r f1) n)
  = alter r (with_data r (fun e => f2 (f1 e))) n.
Proof.
  induction n as [s | i e cs IH] using node_induction; [ reflexivity | ].
  simpl. destruct (i =? r) eqn:E.
  - unfold with_data. simpl. rewrite Nat.eqb_refl. reflexivity.
  - simpl. rewrite E. f_equal. rewrite map_map.
    apply map_ext_Forall. exact IH.
Qed.

Lemma alter_rewrite_ext (r : ref) (f1 f2 : edata -> edata) (n : node) :
  (forall e, f1 e = f2 e) ->
  alter r (with_data r f1) n = alter r (with_data r f2) n.
Proof.
  intros Hf.
  induction n as [s | i e cs IH] using node_induction; [ reflexivity | ].
  simpl. destruct (i =? r).
  - unfold with_data. rewrite Hf. reflexivity.
  - f_equal. apply map_ext_Forall. exact IH.
Qed.

Lemma alter_dom_rewrite_twice (r : ref) (f1 f2 : edata -> edata) (d : dom) :
  alter_dom r (with_data r f2) (alter_dom r (with_data r f1) d)
  = alter_dom r (with_data r (fun e => f2 (f1 e))) d.
Proof.
  unfold alter_dom, set_trees. simpl. rewrite !map_map.
  f_equal; apply map_ext; intros n; apply alter_rewrite_twice.
Qed.

Lemma alter_dom_rewrite_ext (r : ref) (f1 f2 : edata -> edata) (d : dom) :
  (forall e, f1 e = f2 e) ->
  alter_dom r (with_data r f1) d = alter_dom r (with_data r f2) d.
Proof.
  intros Hf. unfold alter_dom, set_trees.
  f_equal; apply map_ext; intros n; apply alter_rewrite_ext; exact Hf.
Qed.

(** The element [r] of [d], when there is one. *)
Lemma is_element_lookup (r : ref) (d : dom) :
  is_element r d = true -> exists e cs, lookup r d = Some (Elem r e cs).
Proof.
  unfold is_element. destruct (lookup r d) as [n | ] eqn:E; [ | discriminate ].
  destruct (find_node_id r (trees d) n E) as [e [cs Hn]]. subst. eauto.
Qed.

Lemma is_element_rewrite (r : ref) (f : edata -> edata) (d : dom) :
  is_element r d = true -> is_element r (alter_dom r (with_data r f) d) = true.
Proof.
  intros H. destruct (is_element_lookup r d H) as [e [cs Hl]].
  unfold is_element. rewrite lookup_alter_dom by apply keeps_with_data.
  rewrite Hl. reflexivity.
Qed.

Lemma element_found (r : ref) (e : edata) (cs : list node) (d : dom) :
  lookup r d = Some (Elem r e cs) -> element (TNode r) d = (Ret (r, e, cs), d).
Proof. intros H. unfold element. rewrite H. reflexivity. Qed.

End TreeFacts.

(* ------------------------------------------------------------------ *)
(** ** Classes: [toggle], [show], [hide] *)

Module ClassFacts.
Import TokenFacts TreeFacts.

Lemma has_class_classes (r : ref) (c : string) (d : dom) :
  has_class r c d = mem c (classes r d).
Proof.
  unfold has_class, classes. destruct (lookup r d) as [[s | i e cs] | ]; reflexivity.
Qed.

Lemma classes_ok (r : ref) (d : dom) : Forall acceptable (classes r d).
Proof.
  unfold classes. destruct (lookup r d) as [[s | i e cs] | ];
    try constructor. apply class_tokens_ok.
Qed.

Lemma classes_NoDup (r : ref) (d : dom) : NoDup (classes r d).
Proof.
  unfold classes. destruct (lookup r d) as [[s | i e cs] | ];
    try constructor. apply class_tokens_NoDup.
Qed.

Lemma classes_written (r : ref) (ts : list string) (d : dom) :
  is_element r d = true -> Forall acceptable ts -> NoDup ts ->
  classes r (alter_dom r (with_data r (write_class ts)) d) = ts.
Proof.
  intros Hel Hok Hnd. destruct (is_element_lookup r d Hel) as [e [cs Hl]].
  unfold classes. rewrite lookup_alter_dom by apply keeps_with_data.
  rewrite Hl. simpl. apply class_tokens_write; assumption.
Qed.

Lemma tokens_add_ok (c : string) (ts : list string) :
  acceptable c -> Forall acceptable ts -> Forall acceptable (tokens_add c ts).
Proof.
  intros Hc H. unfold tokens_add. destruct (mem c ts); [ exact H | ].
  apply snoc_ok; assumption.
Qed.

Lemma tokens_add_NoDup (c : string) (ts : list string) :
  NoDup ts -> NoDup (tokens_add c ts).
Proof.
  intros H. unfold tokens_add. destruct (mem c ts) eqn:E; [ exact H | ].
  apply snoc_NoDup; assumption.
Qed.

Lemma tokens_add_mem (c : string) (ts : list string) : mem c (tokens_add c ts) = true.
Proof.
  unfold tokens_add. destruct (mem c ts) eqn:E; [ exact E | apply snoc_mem ].
Qed.

Lemma tokens_add_nonempty (c : string) (ts : list string) : tokens_add c ts <> [].
Proof.
  intros H. pose proof (tokens_add_mem c ts) as Hm. rewrite H in Hm. discriminate.
Qed.

Lemma tokens_forced_ok (force : option bool) (c : string) (ts : list string) :
  acceptable c -> Forall acceptable ts -> Forall acceptable (tokens_forced force c ts).
Proof.
  intros Hc H. destruct force as [[ | ] | ]; simpl.
  - apply tokens_add_ok; assumption.
  - apply without_ok; assumption.
  - unfold tokens_toggle. destruct (mem c ts).
    + apply without_ok; assumption.
    + apply snoc_ok; assumption.
Qed.

Lemma tokens_forced_NoDup (force : option bool) (c : string) (ts : list string) :
  NoDup ts -> NoDup (tokens_forced force c ts).
Proof.
  intros H. destruct force as [[ | ] | ]; simpl.
  - apply tokens_add_NoDup; assumption.
  - apply without_NoDup; assumption.
  - unfold tokens_toggle. destruct (mem c ts) eqn:E.
    + apply without_NoDup; assumption.
    + apply snoc_NoDup; assumption.
Qed.

(** Toggling twice restores the membership of the token. *)
Lemma tokens_toggle_involutive (c : string) (ts : list string) :
  mem c (tokens_toggle c (tokens_toggle c ts)) = mem c ts.
Proof.
  unfold tokens_toggle. destruct (mem c ts) eqn:E.
  - rewrite without_mem. apply snoc_mem.
  - rewrite snoc_mem, (without_snoc c ts E). exact E.
Qed.

(** Forcing twice is forcing once. *)
Lemma tokens_forced_idem (b : bool) (c : string) (ts : list string) :
  tokens_forced (Some b) c (tokens_forced (Some b) c ts) = tokens_forced (Some b) c ts.
Proof.
  destruct b; simpl.
  - unfold tokens_add at 1. rewrite tokens_add_mem. reflexivity.
  - apply without_idem.
Qed.

(** The three operations on an element and an acceptable token. *)
Lemma classList_add_step (r : ref) (c : string) (d : dom) :
  is_element r d = true -> token_ok c = true ->
  classList_add (TNode r) c d
  = (Ret tt, alter_dom r (with_data r (write_class (tokens_add c (classes r d)))) d).
Proof.
  intros Hel Hc. destruct (is_element_lookup r d Hel) as [e [cs Hl]].
  unfold classList_add, bind. rewrite (element_found r e cs d Hl).
  rewrite (check_token_ok c d Hc). unfold classes. rewrite Hl. reflexivity.
Qed.

Lemma classList_remove_step (r : ref) (c : string) (d : dom) :
  is_element r d = true -> token_ok c = true ->
  classList_remove (TNode r) c d
  = (Ret tt, alter_dom r (with_data r (write_class (without c (classes r d)))) d).
Proof.
  intros Hel Hc. destruct (is_element_lookup r d Hel) as [e [cs Hl]].
  unfold classList_remove, bind. rewrite (element_found r e cs d Hl).
  rewrite (check_token_ok c d Hc). unfold classes. rewrite Hl. reflexivity.
Qed.

Lemma classList_toggle_step (r : ref) (c : string) (d : dom) :
  is_element r d = true -> token_ok c = true ->
  classList_toggle (TNode r) c d
  = (Ret tt, alter_dom r (with_data r (write_class (tokens_toggle c (classes r d)))) d).
Proof.
  intros Hel Hc. destruct (is_element_lookup r d Hel) as [e [cs Hl]].
  unfold classList_toggle, bind. rewrite (element_found r e cs d Hl).
  rewrite (check_token_ok c d Hc). unfold classes, tokens_toggle. rewrite Hl.
  destruct (mem c (class_tokens e)); reflexivity.
Qed.

(** An unacceptable token stops each of them before anything changes. *)
Lemma classList_bad_token (r : ref) (c : string) (d : dom) :
  is_element r d = true -> token_ok c = false ->
  (exists e, classList_add (TNode r) c d = (Throw e, d))
  /\ (exists e, classList_remove (TNode r) c d = (Throw e, d))
  /\ (exists e, classList_toggle (TNode r) c d = (Throw e, d)).
Proof.
  intros Hel Hc. destruct (is_element_lookup r d Hel) as [e [cs Hl]].
  destruct (check_token_bad c d Hc) as [x Hx].
  unfold classList_add, classList_remove, classList_toggle, bind.
  rewrite (element_found r e cs d Hl), Hx.
  repeat split; exists x; reflexivity.
Qed.

End ClassFacts.

(** The elements a rewriting does not reach. *)
Module OtherElementFacts.
Import TreeFacts.

Section Other.
Variable r q : ref.
Variable f : edata -> edata.
Hypothesis q_other : q <> r.

Let data_in (l : list node) : option edata :=
  match List.find (has_id q) l with Some n => node_data n | None => None end.

Lemma data_in_app (l1 l2 : list node) :
  data_in (l1 ++ l2)
  = match data_in l1 with Some e => Some e | None => data_in l2 end.
Proof.
  unfold data_in. rewrite find_app.
  destruct (List.find (has_id q) l1) as [n | ] eqn:E; [ | reflexivity ].
  apply find_some in E. destruct E as [_ E].
  destruct n as [s | i e cs]; [ discriminate | reflexivity ].
Qed.

Lemma other_forest (cs : forest) :
  Forall (fun n => data_in (subtrees (alter r (with_data r f) n))
                   = data_in (subtrees n)) cs ->
  data_in (all_subtrees (List.map (alter r (with_data r f)) cs))
  = data_in (all_subtrees cs).
Proof.
  unfold all_subtrees.
  induction 1 as [ | c cs Hc Hcs IH]; [ reflexivity | ].
  cbn [List.map List.flat_map].
  rewrite !data_in_app, Hc, IH. reflexivity.
Qed.

Lemma other_node (n : node) :
  data_in (subtrees (alter r (with_data r f) n)) = data_in (subtrees n).
Proof.
  induction n as [s | i e cs IH] using node_induction; [ reflexivity | ].
  simpl alter. destruct (i =? r) eqn:E.
  - apply Nat.eqb_eq in E. subst i.
    assert (Hq : (r =? q) = false) by (apply Nat.eqb_neq; congruence).
    unfold data_in, with_data. simpl. rewrite Hq. reflexivity.
  - unfold data_in. simpl. destruct (i =? q); [ reflexivity | ].
    apply (other_forest cs IH).
Qed.

(** Changing the data of [r] leaves the data of every other element. *)
Lemma lookup_other (d : dom) :
  match lookup q (alter_dom r (with_data r f) d) with
  | Some n => node_data n
  | None => None
  end
  = match lookup q d with Some n => node_data n | None => None end.
Proof.
  unfold lookup. rewrite trees_alter_dom.
  apply other_forest. apply Forall_forall. intros n _. apply other_node.
Qed.

End Other.

Lemma is_element_data (q : ref) (d : dom) :
  is_element q d
  = match (match lookup q d with Some n => node_data n | None => None end) with
    | Some _ => true
    | None => false
    end.
Proof.
  unfold is_element. destruct (lookup q d) as [[s | i e cs] | ]; reflexivity.
Qed.

Lemma classes_data (q : ref) (d : dom) :
  classes q d
  = match (match lookup q d with Some n => node_data n | None => None end) with
    | Some e => class_tokens e
    | None => []
    end.
Proof.
  unfold classes. destruct (lookup q d) as [[s | i e cs] | ]; reflexivity.
Qed.

End OtherElementFacts.

Section ClassTheorems.
Context {host : Host}.
Import TokenFacts TreeFacts ClassFacts OtherElementFacts.

Lemma variant_is_element (r : ref) (d x : dom) :
  is_element r d = true -> class_variant r d x -> is_element r x = true.
Proof.
  intros Hel Hv. induction Hv as [ | x ts Hv IH]; [ exact Hel | ].
  apply (is_element_rewrite r (write_class ts) x IH).
Qed.

(** The call of [classList] that [toggle] makes for a value of [force]. *)
Let forced (force : option bool) (v : target) (c : string) : M unit :=
  match force with
  | Some true => classList_add v c
  | Some false => classList_remove v c
  | None => classList_toggle v c
  end.

(** It throws before anything changes, or it writes the forced token
    set to the element it was called on. *)
Lemma forced_cases (force : option bool) (v : target) (c : string) (x : dom) :
  (exists e, forced force v c x = (Throw e, x))
  \/ exists q,
       v = TNode q /\ is_element q x = true /\ token_ok c = true
       /\ forced force v c x
          = (Ret tt,
             alter_dom q (with_data q (write_class (tokens_forced force c (classes q x)))) x).
Proof.
  assert (Hno : forall e, element v x = (Throw e, x) ->
                          exists e', forced force v c x = (Throw e', x)).
  { intros e He. exists e.
    destruct force as [[ | ] | ]; unfold forced, classList_add, classList_remove,
      classList_toggle, bind; rewrite He; reflexivity. }
  destruct v as [ | | s | q | | ]; try (left; apply (Hno TypeError); reflexivity).
  destruct (is_element q x) eqn:Hel.
  - destruct (token_ok c) eqn:Hc.
    + right. exists q. repeat split; try assumption.
      destruct force as [[ | ] | ]; unfold forced, tokens_forced.
      * apply classList_add_step; assumption.
      * apply classList_remove_step; assumption.
      * apply classList_toggle_step; assumption.
    + left. destruct (classList_bad_token q c x Hel Hc) as [[e1 H1] [[e2 H2] [e3 H3]]].
      destruct force as [[ | ] | ]; unfold forced; eauto.
  - left. apply (Hno TypeError). unfold element. unfold is_element in Hel.
    destruct (lookup q x) as [[s | i e cs] | ]; [ reflexivity | discriminate | reflexivity ].
Qed.

(** A call of [toggle] on a target that resolves to [r]. *)
Lemma toggle_step (t : target) (r : ref) (c : string) (force : option bool) (x : dom) :
  resolves t r x -> token_ok c = true ->
  toggle t (Some c) force x
  = (Ret (TNode r),
     alter_dom r (with_data r (write_class (tokens_forced force c (classes r x)))) x).
Proof.
  intros [Hel Hget] Hc.
  unfold toggle, bind. rewrite (get_resolved t TUndef r x Hget).
  cbv beta iota zeta. unfold default.
  destruct force as [[ | ] | ]; simpl tokens_forced.
  - rewrite (classList_add_step r c x Hel Hc). reflexivity.
  - rewrite (classList_remove_step r c x Hel Hc). reflexivity.
  - rewrite (classList_toggle_step r c x Hel Hc). reflexivity.
Qed.

Lemma toggle_bad_token (t : target) (r : ref) (c : string) (force : option bool)
      (x : dom) :
  resolves t r x -> token_ok c = false ->
  snd (toggle t (Some c) force x) = x.
Proof.
  intros [Hel Hget] Hc.
  destruct (classList_bad_token r c x Hel Hc) as [[e1 H1] [[e2 H2] [e3 H3]]].
  unfold toggle, bind. rewrite (get_resolved t TUndef r x Hget).
  cbv beta iota zeta. unfold default.
  destruct force as [[ | ] | ]; [ rewrite H1 | rewrite H2 | rewrite H3 ]; reflexivity.
Qed.

(** The classes of [r] after a call of [toggle]. *)
Lemma toggle_step_classes (t : target) (r : ref) (c : string) (force : option bool)
      (x : dom) :
  resolves t r x -> token_ok c = true ->
  classes r (snd (toggle t (Some c) force x)) = tokens_forced force c (classes r x).
Proof.
  intros Hres Hc. rewrite (toggle_step t r c force x Hres Hc). simpl snd.
  apply classes_written; [ apply Hres | | ].
  - apply tokens_forced_ok; [ exact Hc | apply classes_ok ].
  - apply tokens_forced_NoDup. apply classes_NoDup.
Qed.

(** Whatever the target resolves to, a call of [toggle] leaves the class
    set of [r] as it was or writes the forced token set to it. *)
Lemma toggle_classes (t : target) (r : ref) (c : string) (force : option bool)
      (x : dom) :
  classes r (snd (toggle t (Some c) force x)) = classes r x
  \/ classes r (snd (toggle t (Some c) force x)) = tokens_forced force c (classes r x).
Proof.
  destruct (get_trees t TUndef x) as [Hdoc Hdet].
  assert (Hsame : forall q x', doc x' = doc x -> detached x' = detached x ->
                               classes q x' = classes q x).
  { intros q x' H1 H2. unfold classes, lookup, trees. rewrite H1, H2. reflexivity. }
  unfold toggle, bind, default.
  destruct (get t TUndef x) as [[v | e] x'];
    simpl in Hdoc, Hdet; [ | left; apply Hsame; assumption ].
  change (match force with
          | Some true => classList_add v c
          | Some false => classList_remove v c
          | None => classList_toggle v c
          end) with (forced force v c).
  destruct (forced_cases force v c x') as [[e He] | [q [Hv [Hel [Hc Hq]]]]].
  - rewrite He. left. apply Hsame; assumption.
  - rewrite Hq. simpl snd. destruct (Nat.eq_dec r q) as [<- | Hne].
    + right. rewrite <- (Hsame r x' Hdoc Hdet).
      apply classes_written; [ exact Hel | | ].
      * apply tokens_forced_ok; [ exact Hc | apply classes_ok ].
      * apply tokens_forced_NoDup. apply classes_NoDup.
    + left. rewrite <- (Hsame r x' Hdoc Hdet).
      rewrite !classes_data. rewrite (lookup_other q r _ Hne x'). reflexivity.
Qed.

(** C5, as the code has it.  Let the target [t] resolve to the element
    [r], and let [c] be any class name.  If [t] resolves to [r] again at
    the second call, two calls of [toggle(t, c)] without [force] leave [c]
    in the class set of [r] exactly if it was there before.  Two calls
    with the same [force] leave the class set of [r] as one call does,
    whatever [t] resolves to at the second call. *)
Theorem toggle_twice (t : target) (r : ref) (c : string) (d : dom) :
  resolves t r d ->
  (resolves t r (snd (toggle t (Some c) None d)) ->
   has_class r c (snd (toggle t (Some c) None (snd (toggle t (Some c) None d))))
   = has_class r c d)
  /\ forall b : bool,
       classes r (snd (toggle t (Some c) (Some b)
                                 (snd (toggle t (Some c) (Some b) d))))
       = classes r (snd (toggle t (Some c) (Some b) d)).
Proof.
  intros Hres. destruct (token_ok c) eqn:Hc.
  - split.
    + intros Hres1. rewrite !has_class_classes.
      rewrite (toggle_step_classes t r c None _ Hres1 Hc).
      rewrite (toggle_step_classes t r c None d Hres Hc).
      apply tokens_toggle_involutive.
    + intros b.
      destruct (toggle_classes t r c (Some b) (snd (toggle t (Some c) (Some b) d)))
        as [H | H]; rewrite H; [ reflexivity | ].
      rewrite (toggle_step_classes t r c (Some b) d Hres Hc).
      apply tokens_forced_idem.
  - assert (Hsame : forall force, snd (toggle t (Some c) force d) = d)
      by (intros force; apply (toggle_bad_token t r c force d Hres Hc)).
    split; [ intros _ | intros b ]; rewrite !Hsame; reflexivity.
Qed.

End ClassTheorems.

Lemma toggle_twice_witness :
  resolves (TStr ".d-none") 4 page
  /\ resolves (TStr ".d-none") 4 (snd (toggle (TStr ".d-none") (Some "active") None page))
  /\ has_class 4 "active"
       (snd (toggle (TStr ".d-none") (Some "active") None
                    (snd (toggle (TStr ".d-none") (Some "active") None page))))
     = has_class 4 "active" page
  /\ forall b : bool,
       classes 4 (snd (toggle (TStr ".d-none") (Some "active") (Some b)
                              (snd (toggle (TStr ".d-none") (Some "active") (Some b) page))))
       = classes 4 (snd (toggle (TStr ".d-none") (Some "active") (Some b) page)).
Proof.
  assert (H0 : resolves (TStr ".d-none") 4 page) by (split; reflexivity).
  assert (H1 : resolves (TStr ".d-none") 4
                 (snd (toggle (TStr ".d-none") (Some "active") None page)))
    by (split; reflexivity).
  split; [ exact H0 | ]. split; [ exact H1 | ].
  split; [ exact (proj1 (toggle_twice (TStr ".d-none") 4 "active" page H0) H1)
         | exact (proj2 (toggle_twice (TStr ".d-none") 4 "active" page H0)) ].
Defined.

(** C5 as stated fails for the selector [.d-none] and the class [d-none]
    on the test page.  The selector resolves to element 4, which has the
    class.  The first [toggle] takes the class away, after which the
    selector matches nothing: the second call fails on the resolver's
    [null], and the class is not back. *)
Lemma toggle_class_selector_twice :
  resolves (TStr ".d-none") 4 page
  /\ has_class 4 "d-none" page = true
  /\ fst (toggle (TStr ".d-none") (Some "d-none") None page) = Ret (TNode 4)
  /\ fst (toggle (TStr ".d-none") (Some "d-none") None
                 (snd (toggle (TStr ".d-none") (Some "d-none") None page)))
     = Throw TypeError
  /\ has_class 4 "d-none"
       (snd (toggle (TStr ".d-none") (Some "d-none") None
                    (snd (toggle (TStr ".d-none") (Some "d-none") None page))))
     = false.
Proof.
  split; [ split; reflexivity | ]. repeat split.
Qed.

(** With two hidden elements, the second forced call moves on to the
    other element: the class set of the first is what one call left, and
    the second element loses the class too. *)
Example forced_toggle_moves_on :
  fst (toggle (TStr ".d-none") (Some "d-none") (Some false) hidden_pair_page)
  = Ret (TNode 4)
  /\ fst (toggle (TStr ".d-none") (Some "d-none") (Some false)
                 (snd (toggle (TStr ".d-none") (Some "d-none") (Some false)
                              hidden_pair_page)))
     = Ret (TNode 5)
  /\ has_class 5 "d-none"
       (snd (toggle (TStr ".d-none") (Some "d-none") (Some false) hidden_pair_page))
     = true
  /\ has_class 5 "d-none"
       (snd (toggle (TStr ".d-none") (Some "d-none") (Some false)
                    (snd (toggle (TStr ".d-none") (Some "d-none") (Some false)
                                 hidden_pair_page))))
     = false.
Proof. repeat split. Qed.

(** The test file's case of [toggle], and its second call. *)
Example toggle_on_the_page :
  has_class 4 "d-none" page = true
  /\ has_class 4 "d-none" (snd (toggle (TStr "#test-div") (Some "d-none") None page))
     = false
  /\ has_class 4 "d-none"
       (snd (toggle (TStr "#test-div") (Some "d-none") None
                    (snd (toggle (TStr "#test-div") (Some "d-none") None page))))
     = true.
Proof. repeat split. Qed.

(* ------------------------------------------------------------------ *)
(** ** The [hide]-[show] round trip *)

Module VisibilityFacts.
Import TokenFacts.

Lemma attr_set_set (l : list (string * string)) (k v v' : string) :
  attr_set (attr_set l k v) k v' = attr_set l k v'.
Proof.
  induction l as [ | [k0 v0] l IH]; simpl.
  - rewrite String.eqb_refl. reflexivity.
  - destruct (String.eqb k k0) eqn:E; simpl; rewrite E; [ reflexivity | ].
    rewrite IH. reflexivity.
Qed.

(** Writing a token set that is not empty sets the attribute. *)
Lemma write_class_nonempty (ts : list string) (e : edata) :
  ts <> [] -> write_class ts e = set_class (serialize ts) e.
Proof.
  intros H. unfold write_class.
  destruct (attr_get (attrs e) "class"); [ reflexivity | ].
  destruct ts; [ contradiction | reflexivity ].
Qed.

(** Once the attribute is there, every write sets it. *)
Lemma write_class_after_set (ts : list string) (v : string) (e : edata) :
  write_class ts (set_class v e) = set_class (serialize ts) e.
Proof.
  unfold write_class, set_class. simpl.
  rewrite attr_get_set, attr_set_set. reflexivity.
Qed.

End VisibilityFacts.

Section RoundTrip.
Context {host : Host}.
Import TokenFacts TreeFacts ClassFacts VisibilityFacts.

Variable t : target.
Variable r : ref.
Variable d : dom.
Hypothesis t_resolves : resolves t r d.

(** The state [d] with the [class] attribute of [r] set to [v]. *)
Let classed (v : string) : dom := alter_dom r (with_data r (set_class v)) d.

Let written (ts : list string) (x : dom) : dom :=
  alter_dom r (with_data r (write_class ts)) x.

Lemma written_first (ts : list string) :
  ts <> [] -> written ts d = classed (serialize ts).
Proof.
  intros H. apply alter_dom_rewrite_ext. intros e.
  apply write_class_nonempty. exact H.
Qed.

Lemma written_next (ts : list string) (v : string) :
  written ts (classed v) = classed (serialize ts).
Proof.
  unfold written, classed. rewrite alter_dom_rewrite_twice.
  apply alter_dom_rewrite_ext. intros e. apply write_class_after_set.
Qed.

Lemma classed_is_element (v : string) : is_element r (classed v) = true.
Proof. apply is_element_rewrite. apply t_resolves. Qed.

(** A call of [hide], and one of [show], where [t] resolves to [r]. *)
Lemma hide_step (x : dom) :
  resolves t r x ->
  hide t x = (Ret tt, written (tokens_add "d-none" (classes r x)) x).
Proof.
  intros [Hel Hget].
  unfold hide, bind. rewrite (get_resolved t TUndef r x Hget).
  cbv beta iota zeta.
  rewrite (classList_add_step r "d-none" x Hel eq_refl). reflexivity.
Qed.

Lemma show_step (x : dom) :
  resolves t r x ->
  show t None x = (Ret tt, written (without "d-none" (classes r x)) x).
Proof.
  intros [Hel Hget].
  unfold show, bind. rewrite (get_resolved t TUndef r x Hget).
  cbv beta iota zeta. unfold default.
  rewrite (classList_remove_step r "d-none" x Hel eq_refl). reflexivity.
Qed.

(** The token sets on the way: hidden, then shown. *)
Let hidden_tokens : list string := tokens_add "d-none" (classes r d).
Let shown_tokens : list string := without "d-none" hidden_tokens.

Lemma hidden_tokens_ok : Forall acceptable hidden_tokens /\ NoDup hidden_tokens.
Proof.
  split.
  - apply tokens_add_ok; [ reflexivity | apply classes_ok ].
  - apply tokens_add_NoDup. apply classes_NoDup.
Qed.

Lemma shown_tokens_ok : Forall acceptable shown_tokens /\ NoDup shown_tokens.
Proof.
  destruct hidden_tokens_ok as [H1 H2]. split.
  - apply without_ok. exact H1.
  - apply without_NoDup. exact H2.
Qed.

(** A state that is [d] but for the [class] attribute of [r], which
    carries the token set [ts] in normal form. *)
Let carries (ts : list string) (x : dom) : Prop :=
  x = classed (serialize ts) /\ classes r x = ts.

Lemma carries_written (ts ts' : list string) (x : dom) :
  carries ts x -> Forall acceptable ts' -> NoDup ts' -> carries ts' (written ts' x).
Proof.
  intros [Hx Hc] Hok Hnd. split.
  - rewrite Hx. apply written_next.
  - apply classes_written; [ | exact Hok | exact Hnd ].
    rewrite Hx. apply classed_is_element.
Qed.

Lemma hide_carries : carries hidden_tokens (snd (hide t d)).
Proof.
  rewrite (hide_step d t_resolves). simpl snd.
  destruct hidden_tokens_ok as [Hok Hnd]. split.
  - apply written_first. apply tokens_add_nonempty.
  - apply classes_written; [ apply t_resolves | exact Hok | exact Hnd ].
Qed.

Lemma show_carries :
  resolves t r (snd (hide t d)) ->
  carries shown_tokens (snd (show t None (snd (hide t d)))).
Proof.
  intros Hres. pose proof hide_carries as Hh. pose proof Hh as [_ Hc].
  rewrite (show_step _ Hres). simpl snd. rewrite Hc.
  destruct shown_tokens_ok as [Hok Hnd].
  apply (carries_written hidden_tokens); assumption.
Qed.

Lemma shown_tokens_free : mem "d-none" shown_tokens = false.
Proof. apply without_mem. Qed.

(** From the shown state, [show] changes nothing. *)
Lemma show_again (x : dom) :
  carries shown_tokens x -> resolves t r x -> show t None x = (Ret tt, x).
Proof.
  intros [Heq Hc] Hres.
  rewrite (show_step x Hres). rewrite Hc.
  rewrite (without_absent "d-none" shown_tokens shown_tokens_free).
  f_equal.
  transitivity (written shown_tokens (classed (serialize shown_tokens)));
    [ rewrite <- Heq; reflexivity | ].
  rewrite written_next. symmetry. exact Heq.
Qed.

(** From the shown state, a round trip comes back to it. *)
Lemma round_trip_again (x : dom) :
  carries shown_tokens x -> resolves t r x -> resolves t r (snd (hide t x)) ->
  snd (show t None (snd (hide t x))) = x.
Proof.
  intros Hx Hres Hres'. pose proof Hx as [Heq Hc].
  destruct shown_tokens_ok as [Hok Hnd].
  assert (Hadd : tokens_add "d-none" shown_tokens = shown_tokens ++ ["d-none"])
    by (unfold tokens_add; rewrite shown_tokens_free; reflexivity).
  assert (Hh : carries (shown_tokens ++ ["d-none"]) (snd (hide t x))).
  { rewrite (hide_step x Hres). simpl snd. rewrite Hc, Hadd.
    apply (carries_written shown_tokens); [ exact Hx | | ].
    - apply snoc_ok; [ reflexivity | exact Hok ].
    - apply snoc_NoDup; [ apply shown_tokens_free | exact Hnd ]. }
  pose proof Hh as [Heq' Hc'].
  rewrite (show_step _ Hres'). simpl snd. rewrite Hc'.
  rewrite (without_snoc "d-none" shown_tokens shown_tokens_free).
  rewrite Heq', written_next. symmetry. exact Heq.
Qed.

Lemma round_trips_again (n : nat) (x : dom) :
  carries shown_tokens x -> resolves t r x -> resolves t r (snd (hide t x)) ->
  round_trips t n x = x.
Proof.
  intros Hx Hres Hres'. induction n as [ | n IH]; [ reflexivity | ].
  simpl. rewrite (round_trip_again x Hx Hres Hres'). exact IH.
Qed.

(** C9, as the code has it.  Let the target [t] resolve to the element
    [r].  After [hide(t)] the element has the marker class [d-none].  If
    [t] resolves to [r] again at the call of [show(t)], that call, with
    the default force, takes the class away.  From the state so reached,
    a further [show(t)] changes nothing at all if [t] resolves to [r] at
    that call too; and any number of [hide]-then-[show] round trips ends
    in that same state if [t] resolves to [r] at each of their calls. *)
Theorem hide_show_round_trip (n : nat) :
  resolves t r (snd (hide t d)) ->
  has_class r "d-none" (snd (hide t d)) = true
  /\ has_class r "d-none" (snd (show t None (snd (hide t d)))) = false
  /\ (resolves t r (snd (show t None (snd (hide t d)))) ->
      show t None (snd (show t None (snd (hide t d))))
      = (Ret tt, snd (show t None (snd (hide t d)))))
  /\ (resolves t r (snd (show t None (snd (hide t d)))) ->
      resolves t r (snd (hide t (snd (show t None (snd (hide t d)))))) ->
      round_trips t (S n) d = snd (show t None (snd (hide t d)))).
Proof.
  intros Hres1.
  pose proof hide_carries as [_ Hc1].
  pose proof (show_carries Hres1) as Hs. pose proof Hs as [_ Hc2].
  split; [ | split; [ | split ] ].
  - rewrite has_class_classes, Hc1. apply tokens_add_mem.
  - rewrite has_class_classes, Hc2. apply shown_tokens_free.
  - intros Hres2. apply show_again; assumption.
  - intros Hres2 Hres3. simpl. apply round_trips_again; assumption.
Qed.

End RoundTrip.

Lemma hide_show_round_trip_witness :
  resolves (TStr "div") 4 page
  /\ resolves (TStr "div") 4 (snd (hide (TStr "div") page))
  /\ resolves (TStr "div") 4 (snd (show (TStr "div") None (snd (hide (TStr "div") page))))
  /\ resolves (TStr "div") 4
       (snd (hide (TStr "div")
                  (snd (show (TStr "div") None (snd (hide (TStr "div") page))))))
  /\ has_class 4 "d-none" (snd (hide (TStr "div") page)) = true
  /\ has_class 4 "d-none" (snd (show (TStr "div") None (snd (hide (TStr "div") page))))
     = false
  /\ show (TStr "div") None (snd (show (TStr "div") None (snd (hide (TStr "div") page))))
     = (Ret tt, snd (show (TStr "div") None (snd (hide (TStr "div") page))))
  /\ round_trips (TStr "div") 3 page
     = snd (show (TStr "div") None (snd (hide (TStr "div") page))).
Proof.
  assert (H0 : resolves (TStr "div") 4 page) by (split; reflexivity).
  assert (H1 : resolves (TStr "div") 4 (snd (hide (TStr "div") page)))
    by (split; reflexivity).
  assert (H2 : resolves (TStr "div") 4
                 (snd (show (TStr "div") None (snd (hide (TStr "div") page)))))
    by (split; reflexivity).
  assert (H3 : resolves (TStr "div") 4
                 (snd (hide (TStr "div")
                            (snd (show (TStr "div") None (snd (hide (TStr "div") page)))))))
    by (split; reflexivity).
  destruct (hide_show_round_trip (TStr "div") 4 page H0 2 H1) as [A [B [C D]]].
  split; [ exact H0 | ]. split; [ exact H1 | ]. split; [ exact H2 | ].
  split; [ exact H3 | ]. split; [ exact A | ]. split; [ exact B | ].
  split; [ exact (C H2) | exact (D H2 H3) ].
Defined.

(** C9 as stated fails for the selector [.d-none].  On the test page it
    resolves to element 4, which [hide] leaves hidden and [show] un-hides;
    the selector then matches nothing, and a second [show] leaves a
    warning and fails on the resolver's [null].  On a page with two hidden
    elements the second [show] un-hides the other one. *)
Lemma show_class_selector_again :
  resolves (TStr ".d-none") 4 page
  /\ has_class 4 "d-none" (snd (hide (TStr ".d-none") page)) = true
  /\ fst (show (TStr ".d-none") None (snd (hide (TStr ".d-none") page))) = Ret tt
  /\ show (TStr ".d-none") None
          (snd (show (TStr ".d-none") None (snd (hide (TStr ".d-none") page))))
     = (Throw TypeError,
        add_warning ("Element not found:", TStr ".d-none")
          (snd (show (TStr ".d-none") None (snd (hide (TStr ".d-none") page)))))
  /\ resolves (TStr ".d-none") 4 hidden_pair_page
  /\ has_class 5 "d-none"
       (snd (show (TStr ".d-none") None (snd (hide (TStr ".d-none") hidden_pair_page))))
     = true
  /\ has_class 5 "d-none"
       (snd (show (TStr ".d-none") None
                  (snd (show (TStr ".d-none") None
                             (snd (hide (TStr ".d-none") hidden_pair_page))))))
     = false.
Proof.
  split; [ split; reflexivity | ]. split; [ reflexivity | ].
  split; [ reflexivity | ]. split; [ reflexivity | ].
  split; [ split; reflexivity | ]. split; reflexivity.
Qed.

(** The test file's cases of [show] and [hide], by selector. *)
Example show_hide_on_the_page :
  has_class 4 "d-none" (snd (show (TStr "#test-div") None page)) = false
  /\ has_class 4 "d-none"
       (snd (hide (TStr "#test-div") (snd (show (TStr "#test-div") None page)))) = true.
Proof. split; reflexivity. Qed.

(* ------------------------------------------------------------------ *)
(** ** Trees: identities that do not occur, and new elements *)

Module FreshFacts.
Import TreeFacts.

Lemma node_ids_app (f g : forest) : node_ids (f ++ g) = node_ids f ++ node_ids g.
Proof.
  unfold node_ids. rewrite all_subtrees_app. apply flat_map_app.
Qed.

Lemma node_ids_elem (i : ref) (e : edata) (cs : list node) (f : forest) :
  node_ids (Elem i e cs :: f) = i :: node_ids cs ++ node_ids f.
Proof.
  change (Elem i e cs :: f) with ([Elem i e cs] ++ f).
  rewrite node_ids_app. unfold node_ids, all_subtrees. simpl.
  rewrite app_nil_r. reflexivity.
Qed.

Lemma node_ids_text (s : string) (f : forest) : node_ids (Text s :: f) = node_ids f.
Proof. reflexivity. Qed.

Lemma in_node_ids (i : ref) (e : edata) (cs : list node) (f : forest) :
  In (Elem i e cs) (all_subtrees f) -> In i (node_ids f).
Proof.
  intros H. unfold node_ids. apply in_flat_map.
  exists (Elem i e cs). split; [ exact H | left; reflexivity ].
Qed.

Lemma fresh_absent (d : dom) : ~ In (fresh d) (node_ids (trees d)).
Proof.
  unfold fresh. intros H.
  assert (Hle : Forall (fun k => k <= List.list_max (node_ids (trees d)))
                       (node_ids (trees d)))
    by (apply list_max_le; apply Nat.le_refl).
  rewrite Forall_forall in Hle. specialize (Hle _ H). lia.
Qed.

Lemma find_none_all {A : Type} (p : A -> bool) (l : list A) :
  (forall x, In x l -> p x = false) -> List.find p l = None.
Proof.
  induction l as [ | a l IH]; intros H; simpl; [ reflexivity | ].
  rewrite (H a (or_introl eq_refl)). apply IH.
  intros x Hx. apply H. right. exact Hx.
Qed.

Lemma absent_has_id (r : ref) (f : forest) (n : node) :
  ~ In r (node_ids f) -> In n (all_subtrees f) -> has_id r n = false.
Proof.
  intros Hr Hn. destruct n as [s | i e cs]; [ reflexivity | ].
  simpl. apply Nat.eqb_neq. intros E. subst.
  apply Hr. apply (in_node_ids r e cs f Hn).
Qed.

Lemma find_node_absent (r : ref) (f : forest) :
  ~ In r (node_ids f) -> find_node r f = None.
Proof.
  intros H. apply find_none_all. intros n Hn. apply (absent_has_id r f n H Hn).
Qed.

Lemma find_node_after_absent (r : ref) (f g : forest) :
  ~ In r (node_ids f) -> find_node r (f ++ g) = find_node r g.
Proof.
  intros H. unfold find_node. rewrite all_subtrees_app, find_app.
  change (List.find (has_id r) (all_subtrees f)) with (find_node r f).
  rewrite (find_node_absent r f H). reflexivity.
Qed.

Lemma find_node_before (r : ref) (f g : forest) (n : node) :
  find_node r f = Some n -> find_node r (f ++ g) = Some n.
Proof.
  intros H. unfold find_node in *. rewrite all_subtrees_app, find_app, H. reflexivity.
Qed.

Lemma find_node_present (r : ref) (f : forest) :
  In r (node_ids f) -> exists e cs, find_node r f = Some (Elem r e cs).
Proof.
  intros H. unfold node_ids in H. apply in_flat_map in H.
  destruct H as [n [Hn Hi]].
  destruct (find_node r f) as [m | ] eqn:E.
  - destruct (find_node_id r f m E) as [e [cs Hm]]. subst. eauto.
  - exfalso. unfold find_node in E.
    pose proof (find_none _ _ E n Hn) as Hf.
    destruct n as [s | i e cs]; simpl in Hi; [ contradiction | ].
    destruct Hi as [Hi | []]. subst. simpl in Hf. rewrite Nat.eqb_refl in Hf.
    discriminate.
Qed.

(** Without [r] in a tree, altering [r], pruning [r] and looking for the
    parent of [r] find nothing to do. *)
Section Absent.
Variable r : ref.

Lemma absent_children (i : ref) (e : edata) (cs : list node) :
  ~ In r (node_ids [Elem i e cs]) -> i <> r /\ ~ In r (node_ids cs).
Proof.
  rewrite node_ids_elem, app_nil_r. simpl. intros H. split.
  - intros E. apply H. left. exact E.
  - intros Hin. apply H. right. exact Hin.
Qed.

Lemma absent_split (c : node) (cs : list node) :
  ~ In r (node_ids (c :: cs)) -> ~ In r (node_ids [c]) /\ ~ In r (node_ids cs).
Proof.
  change (c :: cs) with ([c] ++ cs). rewrite node_ids_app. intros H. split.
  - intros Hin. apply H. apply in_or_app. left. exact Hin.
  - intros Hin. apply H. apply in_or_app. right. exact Hin.
Qed.

Lemma absent_Forall (P : node -> Prop) (cs : list node) :
  Forall (fun n => ~ In r (node_ids [n]) -> P n) cs ->
  ~ In r (node_ids cs) -> Forall P cs.
Proof.
  induction 1 as [ | c cs Hc Hcs IH]; intros H; constructor;
    destruct (absent_split c cs H) as [H1 H2]; auto.
Qed.

Lemma alter_absent_node (g : edata -> list node -> node) (n : node) :
  ~ In r (node_ids [n]) -> alter r g n = n.
Proof.
  induction n as [s | i e cs IH] using node_induction; intros H; [ reflexivity | ].
  destruct (absent_children i e cs H) as [Hi Hcs].
  simpl. apply Nat.eqb_neq in Hi. rewrite Hi. f_equal.
  pose proof (absent_Forall _ cs IH Hcs) as Hall.
  rewrite <- (map_id cs) at 2. apply map_ext_Forall. exact Hall.
Qed.

Lemma alter_absent (g : edata -> list node -> node) (f : forest) :
  ~ In r (node_ids f) -> List.map (alter r g) f = f.
Proof.
  intros H. rewrite <- (map_id f) at 2. apply map_ext_Forall.
  apply (absent_Forall (fun n => alter r g n = n) f); [ | exact H ].
  apply Forall_forall. intros n _. apply alter_absent_node.
Qed.

Lemma no_child_absent (cs : list node) :
  ~ In r (node_ids cs) -> List.existsb (has_id r) cs = false.
Proof.
  induction cs as [ | c cs IH]; intros H; [ reflexivity | ].
  destruct (absent_split c cs H) as [H1 H2]. simpl. rewrite (IH H2).
  destruct c as [s | i e cs']; [ reflexivity | ].
  destruct (absent_children i e cs' H1) as [Hi _].
  simpl. apply Nat.eqb_neq in Hi. rewrite Hi. reflexivity.
Qed.

Lemma first_some_none {A B : Type} (f : A -> option B) (l : list A) :
  Forall (fun a => f a = None) l -> first_some f l = None.
Proof.
  induction 1 as [ | a l Ha Hl IH]; simpl; [ reflexivity | ].
  rewrite Ha. exact IH.
Qed.

Lemma parent_in_absent (n : node) :
  ~ In r (node_ids [n]) -> parent_in r n = None.
Proof.
  induction n as [s | i e cs IH] using node_induction; intros H; [ reflexivity | ].
  destruct (absent_children i e cs H) as [_ Hcs].
  simpl. rewrite (no_child_absent cs Hcs).
  apply first_some_none. apply (absent_Forall _ cs IH Hcs).
Qed.

Lemma no_parent_absent (f : forest) :
  ~ In r (node_ids f) -> first_some (parent_in r) f = None.
Proof.
  intros H. apply first_some_none.
  apply (absent_Forall (fun n => parent_in r n = None) f); [ | exact H ].
  apply Forall_forall. intros n _. apply parent_in_absent.
Qed.

Lemma filter_no_child (cs : list node) :
  List.existsb (has_id r) cs = false ->
  List.filter (fun c => negb (has_id r c)) cs = cs.
Proof.
  induction cs as [ | c cs IH]; intros H; [ reflexivity | ].
  simpl in *. apply orb_false_elim in H. destruct H as [H1 H2].
  rewrite H1. simpl. rewrite (IH H2). reflexivity.
Qed.

Lemma prune_absent_node (n : node) : ~ In r (node_ids [n]) -> prune r n = n.
Proof.
  induction n as [s | i e cs IH] using node_induction; intros H; [ reflexivity | ].
  destruct (absent_children i e cs H) as [_ Hcs].
  simpl. f_equal.
  pose proof (absent_Forall _ cs IH Hcs) as Hall.
  assert (Hmap : List.map (prune r) cs = cs)
    by (rewrite <- (map_id cs) at 2; apply map_ext_Forall; exact Hall).
  rewrite Hmap. apply filter_no_child. apply no_child_absent. exact Hcs.
Qed.

Lemma prune_absent (f : forest) : ~ In r (node_ids f) -> prune_forest r f = f.
Proof.
  intros H. unfold prune_forest.
  assert (Hmap : List.map (prune r) f = f).
  { rewrite <- (map_id f) at 2. apply map_ext_Forall.
    apply (absent_Forall (fun n => prune r n = n) f); [ | exact H ].
    apply Forall_forall. intros n _. apply prune_absent_node. }
  rewrite Hmap. apply filter_no_child. apply no_child_absent. exact H.
Qed.

End Absent.

Lemma first_some_app {A B : Type} (f : A -> option B) (l1 l2 : list A) :
  first_some f (l1 ++ l2)
  = match first_some f l1 with Some b => Some b | None => first_some f l2 end.
Proof.
  induction l1 as [ | a l1 IH]; simpl; [ reflexivity | ].
  destruct (f a); [ reflexivity | exact IH ].
Qed.

Section NewRoot.
Variable d : dom.
Variable r : ref.
Hypothesis r_new : ~ In r (node_ids (trees d)).

Lemma new_absent_doc : ~ In r (node_ids (doc d)).
Proof.
  intros H. apply r_new. unfold trees. rewrite node_ids_app.
  apply in_or_app. left. exact H.
Qed.

Lemma new_absent_detached : ~ In r (node_ids (detached d)).
Proof.
  intros H. apply r_new. unfold trees. rewrite node_ids_app.
  apply in_or_app. right. exact H.
Qed.

Lemma lookup_new_root (e : edata) (cs : list node) :
  lookup r (with_root (Elem r e cs) d) = Some (Elem r e cs).
Proof.
  unfold lookup, with_root, trees. simpl. rewrite app_assoc.
  change (doc d ++ detached d) with (trees d).
  rewrite (find_node_after_absent r (trees d) _ r_new).
  unfold find_node, all_subtrees. simpl. rewrite Nat.eqb_refl. reflexivity.
Qed.

(** Altering the new root touches nothing else. *)
Lemma alter_new_root (g : edata -> list node -> node) (e : edata) (cs : list node) :
  alter_dom r g (with_root (Elem r e cs) d) = with_root (g e cs) d.
Proof.
  unfold alter_dom, with_root, set_trees. simpl.
  rewrite map_app, (alter_absent r g (doc d) new_absent_doc),
    (alter_absent r g (detached d) new_absent_detached).
  simpl. rewrite Nat.eqb_refl. reflexivity.
Qed.

(** A new root without element children has no parent. *)
Lemma new_root_no_parent (e : edata) (cs : list node) :
  List.forallb (fun c => negb (is_elem c)) cs = true ->
  parent_of r (with_root (Elem r e cs) d) = None.
Proof.
  intros Hcs. unfold parent_of, with_root. simpl.
  rewrite (no_child_absent r (doc d) new_absent_doc).
  unfold trees. simpl. rewrite app_assoc. change (doc d ++ detached d) with (trees d).
  rewrite first_some_app, (no_parent_absent r (trees d) r_new). simpl.
  assert (Hno : List.existsb (has_id r) cs = false
                /\ first_some (parent_in r) cs = None).
  { clear - Hcs. induction cs as [ | c cs' IH]; [ split; reflexivity | ].
    simpl in Hcs. apply andb_prop in Hcs. destruct Hcs as [Hc Hcs].
    destruct (IH Hcs) as [H1 H2].
    destruct c as [s | i e cs'']; [ | discriminate ].
    simpl. rewrite H1, H2. split; reflexivity. }
  destruct Hno as [H1 H2]. rewrite H1, H2. reflexivity.
Qed.

End NewRoot.

End FreshFacts.

(* ------------------------------------------------------------------ *)
(** ** Content and creation: [update], [create] *)

Section ContentTheorems.
Context {host : Host}.
Import TreeFacts FreshFacts.

Lemma text_of_children (i : ref) (e : edata) (s : string) :
  text_of (Elem i e (if Str.is_empty s then [] else [Text s])) = s.
Proof. destruct s; reflexivity. Qed.

(** Replacing the children of an element that is there. *)
Lemma replace_children_found (r : ref) (e : edata) (cs new : list node) (d : dom) :
  lookup r d = Some (Elem r e cs) ->
  exists d',
    replace_children r new d = (Ret tt, d')
    /\ lookup r d' = Some (Elem r e new).
Proof.
  intros Hl. unfold replace_children. rewrite Hl.
  eexists. split; [ reflexivity | ].
  unfold lookup, trees. simpl. rewrite app_assoc, <- map_app.
  apply find_node_before.
  change (doc d ++ detached d) with (trees d).
  rewrite find_node_alter.
  - change (find_node r (trees d)) with (lookup r d). rewrite Hl. reflexivity.
  - intros e' cs'. eauto.
Qed.

(** C3, as the code has it.  When [t] resolves to an element that is
    neither an [INPUT] nor a [TEXTAREA], [update(t, X, 'text')] returns that
    element, and its text content is then exactly the string [X], whatever
    characters [X] has. *)
Theorem update_sets_text (t : target) (r : ref) (X : string) (d : dom) :
  resolves t r d -> is_text_control r d = false ->
  exists d',
    update t (CStr X) (Some "text") d = (Ret (TNode r), d')
    /\ textContent r d' = Some X.
Proof.
  intros [Hel Hget] Hctl.
  destruct (is_element_lookup r d Hel) as [e [cs Hl]].
  unfold is_text_control in Hctl. rewrite Hl in Hctl.
  unfold text_control in Hctl. apply orb_false_elim in Hctl.
  destruct Hctl as [Hin Hta].
  destruct (replace_children_found r e cs (if Str.is_empty X then [] else [Text X]) d Hl)
    as [d' [Hrep Hl']].
  exists d'. split.
  - unfold update, bind. rewrite (get_resolved t TUndef r d Hget).
    cbv beta iota zeta. unfold tagName, bind.
    rewrite (element_found r e cs d Hl). cbv beta iota zeta.
    unfold ret at 1. cbv beta iota zeta. unfold tag_is. rewrite Hin, Hta.
    unfold default. simpl. unfold bind.
    rewrite (element_found r e cs d Hl). cbv beta iota zeta.
    rewrite Hrep. reflexivity.
  - unfold textContent. rewrite Hl'. rewrite text_of_children. reflexivity.
Qed.

(** On an [INPUT] or a [TEXTAREA], [update] hands the content, as a
    string, to the setter of [value], whatever the [type]. *)
Lemma update_on_control (t : target) (r : ref) (c : content) (type : option string)
      (e : edata) (cs : list node) (d : dom) :
  fst (get t TUndef d) = Ret (TNode r) ->
  lookup r d = Some (Elem r e cs) -> text_control e = true ->
  update t c type d
  = match set_value e (content_string c) with
    | Ret e' => (Ret (TNode r), alter_dom r (fun _ cs' => Elem r e' cs') d)
    | Throw x => (Throw x, d)
    end.
Proof.
  intros Hget Hl Hctl. unfold text_control in Hctl.
  assert (Hsel : String.eqb (Str.to_upper (tag e)) "SELECT" = false).
  { apply orb_prop in Hctl. destruct Hctl as [H | H];
      apply String.eqb_eq in H; rewrite H; reflexivity. }
  unfold update, bind. rewrite (get_resolved t TUndef r d Hget).
  cbv beta iota zeta. unfold tagName, bind.
  rewrite (element_found r e cs d Hl). cbv beta iota zeta.
  unfold ret at 1. cbv beta iota zeta. unfold tag_is. rewrite Hsel, Hctl.
  assert (Hc : match c with CStr _ => c | CArr _ => c end = c) by (destruct c; reflexivity).
  rewrite Hc. unfold assign, bind.
  rewrite (element_found r e cs d Hl). cbv beta iota zeta.
  destruct (set_value e (content_string c)); reflexivity.
Qed.

(** The setter of [value] refuses nothing but a string for a file
    input, and keeps the tag of the element. *)
Lemma set_value_cases (e : edata) (s : string) :
  set_value e s = Throw InvalidStateError
  \/ exists e', set_value e s = Ret e' /\ tag e' = tag e.
Proof.
  unfold set_value.
  destruct (String.eqb (Str.to_upper (tag e)) "INPUT"); [ | right; eexists; split; reflexivity ].
  destruct (mem (input_type e) attribute_states); [ right; eexists; split; reflexivity | ].
  destruct (String.eqb (input_type e) "file").
  - destruct (Str.is_empty s); [ right; eexists; split; reflexivity | left; reflexivity ].
  - destruct (mem (input_type e) host_states); right; eexists; split; reflexivity.
Qed.

(** On an [INPUT] or a [TEXTAREA] the string goes to the setter of
    [value], which only a file input refuses; the text content stays what
    it was either way. *)
Lemma update_sets_value (t : target) (r : ref) (X : string) (type : option string)
      (d : dom) :
  resolves t r d -> is_text_control r d = true ->
  textContent r (snd (update t (CStr X) type d)) = textContent r d
  /\ (fst (update t (CStr X) type d) = Ret (TNode r)
      \/ fst (update t (CStr X) type d) = Throw InvalidStateError).
Proof.
  intros [Hel Hget] Hctl.
  destruct (is_element_lookup r d Hel) as [e [cs Hl]].
  unfold is_text_control in Hctl. rewrite Hl in Hctl.
  rewrite (update_on_control t r (CStr X) type e cs d Hget Hl Hctl).
  destruct (set_value_cases e X) as [E | [e' [E _]]];
    change (content_string (CStr X)) with X; rewrite E.
  - split; [ reflexivity | right; reflexivity ].
  - split; [ | left; reflexivity ].
    unfold textContent. simpl snd.
    rewrite lookup_alter_dom by (intros e0 cs0; eauto). rewrite Hl. reflexivity.
Qed.

(** The second copy of [update] sets the text content of every element. *)
Lemma update_plain_text (t : target) (r : ref) (X : string) (d : dom) :
  resolves t r d ->
  exists d',
    update_plain t X (Some "text") d = (Ret (TNode r), d')
    /\ textContent r d' = Some X.
Proof.
  intros [Hel Hget].
  destruct (is_element_lookup r d Hel) as [e [cs Hl]].
  destruct (replace_children_found r e cs (if Str.is_empty X then [] else [Text X]) d Hl)
    as [d' [Hrep Hl']].
  exists d'. split.
  - unfold update_plain, bind. rewrite (get_resolved t TUndef r d Hget).
    cbv beta iota zeta. unfold default. simpl. unfold bind.
    rewrite (element_found r e cs d Hl). cbv beta iota zeta.
    rewrite Hrep. reflexivity.
  - unfold textContent. rewrite Hl'. rewrite text_of_children. reflexivity.
Qed.

End ContentTheorems.

Lemma update_sets_text_witness :
  resolves (TStr "#test-button") 9 page
  /\ is_text_control 9 page = false
  /\ exists d',
       update (TStr "#test-button") (CStr "<b>X</b>") (Some "text") page
       = (Ret (TNode 9), d')
       /\ textContent 9 d' = Some "<b>X</b>".
Proof.
  assert (H : resolves (TStr "#test-button") 9 page) by (split; reflexivity).
  split; [ exact H | ]. split; [ reflexivity | ].
  apply (update_sets_text (TStr "#test-button") 9 "<b>X</b>" page H). reflexivity.
Defined.

(** C3 as stated fails on the input of the test page: [update] returns the
    input, whose text content is still empty. *)
Lemma update_text_on_input :
  resolves (TStr "#test-input") 5 page
  /\ fst (update (TStr "#test-input") (CStr "X") (Some "text") page) = Ret (TNode 5)
  /\ textContent 5 (snd (update (TStr "#test-input") (CStr "X") (Some "text") page))
     = Some ""
  /\ textContent 5 (snd (update (TStr "#test-input") (CStr "X") (Some "text") page))
     <> Some "X".
Proof.
  split; [ split; reflexivity | ].
  split; [ reflexivity | ]. split; [ reflexivity | discriminate ].
Qed.

Module MonadFacts.

Lemma bind_step {A B : Type} (m : M A) (k : A -> M B) (d d' : dom) (a : A) :
  m d = (Ret a, d') -> bind m k d = k a d'.
Proof. intros H. unfold bind. rewrite H. reflexivity. Qed.

Lemma bind_throw {A B : Type} (m : M A) (k : A -> M B) (d d' : dom) (e : exn) :
  m d = (Throw e, d') -> bind m k d = (Throw e, d').
Proof. intros H. unfold bind. rewrite H. reflexivity. Qed.

Lemma bind_assoc {A B C : Type} (m : M A) (f : A -> M B) (k : B -> M C) (d : dom) :
  bind (bind m f) k d = bind m (fun x => bind (f x) k) d.
Proof.
  unfold bind. destruct (m d) as [[a | e] d']; [ | reflexivity ].
  destruct (f a d') as [[b | e] d'']; reflexivity.
Qed.

End MonadFacts.

Section CreateFacts.
Context {host : Host}.
Import TreeFacts FreshFacts.

Variable d : dom.
Variable r : ref.
Hypothesis r_new : ~ In r (node_ids (trees d)).

Lemma element_new_root (e : edata) (cs : list node) :
  element (TNode r) (with_root (Elem r e cs) d) = (Ret (r, e, cs), with_root (Elem r e cs) d).
Proof. apply element_found. apply lookup_new_root. exact r_new. Qed.

Lemma setAttribute_new_root (k v : string) (e : edata) (cs : list node) :
  valid_attribute_name k = true ->
  setAttribute (TNode r) k v (with_root (Elem r e cs) d)
  = (Ret tt,
     with_root (Elem r (set_attrs e (attr_set (attrs e) (Str.to_lower k) v)) cs) d).
Proof.
  intros Hk. unfold setAttribute, bind. rewrite element_new_root, Hk.
  unfold modify. rewrite (alter_new_root d r r_new). reflexivity.
Qed.

Lemma assign_text_new_root (s : string) (e : edata) :
  assign (TNode r) PTextContent s (with_root (Elem r e []) d)
  = (Ret tt, with_root (Elem r e (if Str.is_empty s then [] else [Text s])) d).
Proof.
  unfold assign, bind. rewrite element_new_root.
  unfold replace_children. rewrite (lookup_new_root d r r_new).
  rewrite (alter_new_root d r r_new). unfold with_root, set_trees. simpl.
  rewrite app_nil_r. reflexivity.
Qed.

End CreateFacts.

Section CreateTheorems.
Context {host : Host}.
Import TreeFacts FreshFacts MonadFacts.

(** C8.  In any state, [create('div', {id:'a', text:'hi'})] without a
    parent returns an element that was not there before, whose [id]
    attribute is ['a'], whose text content is ['hi'], and which has no
    parent. *)
Theorem create_detached_div (d : dom) :
  exists r d',
    create "div" [("id", AStr "a"); ("text", AStr "hi")] TUndef None d
    = (Ret (TNode r), d')
    /\ lookup r d = None
    /\ attribute r "id" d' = Some "a"
    /\ textContent r d' = Some "hi"
    /\ parent_of r d' = None.
Proof.
  pose proof (fresh_absent d) as Hnew.
  exists (fresh d),
    (with_root (Elem (fresh d) (mk_edata "div" [("id", "a")] "") [Text "hi"]) d).
  split; [ | split; [ | split; [ | split ] ] ].
  - unfold create.
    rewrite (bind_step (createElement "div") _ d
               (with_root (Elem (fresh d) (mk_edata "div" [] "") []) d)
               (TNode (fresh d)) eq_refl).
    change (for_each _ (obj_keys [("id", AStr "a"); ("text", AStr "hi")]))
      with (setAttribute (TNode (fresh d)) "id" "a" ;;
            (assign (TNode (fresh d)) PTextContent "hi" ;; ret tt)).
    rewrite !bind_assoc.
    rewrite (bind_step _ _ _ _ _
               (setAttribute_new_root d (fresh d) Hnew "id" "a" _ [] eq_refl)).
    cbv beta. rewrite !bind_assoc.
    rewrite (bind_step _ _ _ _ _ (assign_text_new_root d (fresh d) Hnew "hi" _)).
    reflexivity.
  - apply find_node_absent. exact Hnew.
  - unfold attribute. rewrite (lookup_new_root d (fresh d) Hnew). reflexivity.
  - unfold textContent. rewrite (lookup_new_root d (fresh d) Hnew). reflexivity.
  - apply (new_root_no_parent d (fresh d) Hnew). reflexivity.
Qed.

End CreateTheorems.

(** The test file's case of [create], with the body as parent. *)
Example create_on_the_page :
  exists d',
    create "div" [("id", AStr "new-div"); ("text", AStr "Hello")] (TNode 3) None page
    = (Ret (TNode 10), d')
    /\ attribute 10 "id" d' = Some "new-div"
    /\ textContent 10 d' = Some "Hello"
    /\ parent_of 10 d' = Some (ParentElement 3).
Proof. eexists. repeat split. Qed.

(* ------------------------------------------------------------------ *)
(** ** Injection: [load] *)

Module GraftFacts.
Import TreeFacts FreshFacts.

Lemma nodupb_NoDup (l : list ref) : nodupb l = true -> NoDup l.
Proof.
  induction l as [ | a l IH]; intros H; constructor;
    simpl in H; apply andb_prop in H; destruct H as [H1 H2].
  - intros Hin. apply negb_true_iff in H1.
    assert (Hex : List.existsb (Nat.eqb a) l = true).
    { apply existsb_exists. exists a. split; [ exact Hin | apply Nat.eqb_refl ]. }
    congruence.
  - apply IH. exact H2.
Qed.

Lemma NoDup_app_parts {A : Type} (a b : list A) :
  NoDup (a ++ b) -> NoDup a /\ NoDup b /\ (forall x, In x a -> ~ In x b).
Proof.
  induction a as [ | y a IH]; simpl; intros H.
  - split; [ constructor | split; [ exact H | intros x [] ] ].
  - inversion H as [ | ? ? Hy Hab]; subst.
    destruct (IH Hab) as [Ha [Hb Hd]].
    split; [ | split; [ exact Hb | ] ].
    + constructor; [ | exact Ha ].
      intros Hin. apply Hy. apply in_or_app. left. exact Hin.
    + intros x [Hx | Hx] Hxb.
      * subst. apply Hy. apply in_or_app. right. exact Hxb.
      * apply (Hd x Hx Hxb).
Qed.

Lemma filter_none {A : Type} (p : A -> bool) (l : list A) :
  (forall m, In m l -> p m = false) -> List.filter p l = [].
Proof.
  induction l as [ | a l IH]; intros H; simpl; [ reflexivity | ].
  rewrite (H a (or_introl eq_refl)). apply IH.
  intros m Hm. apply H. right. exact Hm.
Qed.

Lemma filter_head_false {A : Type} (p : A -> bool) (a : A) (l : list A) :
  p a = false -> List.filter p (a :: l) = List.filter p l.
Proof. intros H. simpl. rewrite H. reflexivity. Qed.

Lemma find_filter {A : Type} (p : A -> bool) (l : list A) :
  List.find p l = List.hd_error (List.filter p l).
Proof.
  induction l as [ | a l IH]; simpl; [ reflexivity | ].
  destruct (p a); [ reflexivity | exact IH ].
Qed.

(** Grafting [n] at the end of the children of [h] in a tree where no
    element has the identifier [x]: the elements with that identifier are
    then those of [n]. *)
Section Graft.
Variable x : string.
Variable h : ref.
Variable n : node.

Let g := graft h AtEnd [n].

Lemma graft_forest (f : forest) :
  Forall (fun t =>
            (forall m, In m (subtrees t) -> has_identifier x m = false) ->
            NoDup (node_ids [t]) -> In h (node_ids [t]) ->
            List.filter (has_identifier x) (subtrees (alter h g t))
            = List.filter (has_identifier x) (subtrees n)) f ->
  (forall m, In m (all_subtrees f) -> has_identifier x m = false) ->
  NoDup (node_ids f) -> In h (node_ids f) ->
  List.filter (has_identifier x) (all_subtrees (List.map (alter h g) f))
  = List.filter (has_identifier x) (subtrees n).
Proof.
  induction 1 as [ | c f Hc Hf IH]; intros Hnone Hnd Hin; [ destruct Hin | ].
  change (c :: f) with ([c] ++ f) in Hnd, Hin. rewrite node_ids_app in Hnd, Hin.
  destruct (NoDup_app_parts _ _ Hnd) as [Hndc [Hndf Hdis]].
  assert (Hnc : forall m, In m (subtrees c) -> has_identifier x m = false).
  { intros m Hm. apply Hnone. unfold all_subtrees. simpl.
    apply in_or_app. left. exact Hm. }
  assert (Hnf : forall m, In m (all_subtrees f) -> has_identifier x m = false).
  { intros m Hm. apply Hnone. unfold all_subtrees. simpl.
    apply in_or_app. right. exact Hm. }
  unfold all_subtrees. simpl. rewrite filter_app.
  destruct (in_dec Nat.eq_dec h (node_ids [c])) as [Hhc | Hhc].
  - rewrite (Hc Hnc Hndc Hhc).
    rewrite (alter_absent h g f (Hdis h Hhc)).
    change (List.flat_map subtrees f) with (all_subtrees f).
    rewrite (filter_none _ _ Hnf). apply app_nil_r.
  - rewrite (alter_absent_node h g c Hhc), (filter_none _ _ Hnc). simpl.
    apply IH; [ exact Hnf | exact Hndf | ].
    apply in_app_or in Hin. destruct Hin as [Hin | Hin]; [ contradiction | exact Hin ].
Qed.

Lemma graft_node (t : node) :
  (forall m, In m (subtrees t) -> has_identifier x m = false) ->
  NoDup (node_ids [t]) -> In h (node_ids [t]) ->
  List.filter (has_identifier x) (subtrees (alter h g t))
  = List.filter (has_identifier x) (subtrees n).
Proof.
  induction t as [s | i e cs IH] using node_induction; intros Hnone Hnd Hin;
    [ destruct Hin | ].
  rewrite node_ids_elem, app_nil_r in Hnd, Hin.
  assert (Hhead : has_identifier x (Elem i e cs) = false)
    by (apply Hnone; left; reflexivity).
  assert (Hcs : forall m, In m (all_subtrees cs) -> has_identifier x m = false)
    by (intros m Hm; apply Hnone; right; exact Hm).
  simpl alter. destruct (i =? h) eqn:E.
  - unfold g, graft.
    change (subtrees (Elem h e (put AtEnd [n] cs)))
      with (Elem h e (cs ++ [n]) :: all_subtrees (cs ++ [n])).
    rewrite (filter_head_false _ (Elem h e (cs ++ [n])) _ Hhead).
    rewrite all_subtrees_app, filter_app, (filter_none _ _ Hcs).
    unfold all_subtrees. simpl. rewrite app_nil_r. reflexivity.
  - change (subtrees (Elem i e (List.map (alter h g) cs)))
      with (Elem i e (List.map (alter h g) cs) :: all_subtrees (List.map (alter h g) cs)).
    rewrite (filter_head_false _ (Elem i e (List.map (alter h g) cs)) _ Hhead).
    apply (graft_forest cs IH Hcs).
    + inversion Hnd. assumption.
    + destruct Hin as [Hin | Hin]; [ | exact Hin ].
      apply Nat.eqb_neq in E. contradiction.
Qed.

Lemma graft_identified (f : forest) :
  (forall m, In m (all_subtrees f) -> has_identifier x m = false) ->
  NoDup (node_ids f) -> In h (node_ids f) ->
  List.filter (has_identifier x) (all_subtrees (List.map (alter h g) f))
  = List.filter (has_identifier x) (subtrees n).
Proof.
  apply graft_forest. apply Forall_forall. intros t _. apply graft_node.
Qed.

End Graft.

(** The head of the document is one of its elements. *)
Lemma head_in_doc (h : ref) (d : dom) :
  document_head d = TNode h -> In h (node_ids (doc d)).
Proof.
  unfold document_head. intros H.
  destruct (List.find is_elem (doc d)) as [[s | i e cs] | ] eqn:E; try discriminate.
  destruct (String.eqb (tag e) "html"); [ | discriminate ].
  destruct (List.find _ cs) as [[s | j e' cs'] | ] eqn:E'; try discriminate.
  simpl in H. injection H as ->.
  apply find_some in E, E'. destruct E as [E _]. destruct E' as [E' _].
  apply (in_node_ids h e' cs'). unfold all_subtrees. apply in_flat_map.
  exists (Elem i e cs). split; [ exact E | ].
  simpl. right. apply in_flat_map. exists (Elem h e' cs').
  split; [ exact E' | left; reflexivity ].
Qed.

End GraftFacts.

Section LoadFacts.
Context {host : Host}.
Import TreeFacts FreshFacts MonadFacts GraftFacts.

Variable d : dom.
Variable h : ref.
Hypothesis d_wf : wf d = true.
Hypothesis h_in_doc : In h (node_ids (doc d)).

Variable r : ref.
Hypothesis r_fresh : r = fresh d.

Lemma r_new : ~ In r (node_ids (trees d)).
Proof. rewrite r_fresh. apply fresh_absent. Qed.

Lemma head_not_new : r <> h.
Proof.
  intros E. apply r_new. rewrite E.
  unfold trees. rewrite node_ids_app. apply in_or_app. left. exact h_in_doc.
Qed.

Lemma head_not_detached : ~ In h (node_ids (detached d)).
Proof.
  pose proof (nodupb_NoDup _ d_wf) as Hnd.
  unfold trees in Hnd. rewrite node_ids_app in Hnd.
  destruct (NoDup_app_parts _ _ Hnd) as [_ [_ Hdis]]. apply Hdis. exact h_in_doc.
Qed.

Lemma element_head (n : node) :
  exists e cs,
    element (TNode h) (with_root n d) = (Ret (h, e, cs), with_root n d).
Proof.
  destruct (find_node_present h (doc d) h_in_doc) as [e [cs Hf]].
  exists e, cs. apply element_found.
  unfold lookup, with_root, trees. simpl. apply find_node_before. exact Hf.
Qed.

Lemma move_into_head (e : edata) :
  move_into h AtEnd r (with_root (Elem r e []) d)
  = (Ret tt, injected h (Elem r e []) d).
Proof.
  pose proof r_new as Hnew.
  unfold move_into. rewrite (lookup_new_root d r Hnew).
  change (List.existsb (has_id h) (subtrees (Elem r e []))) with ((r =? h) || false).
  pose proof head_not_new as Hne.
  apply Nat.eqb_neq in Hne. rewrite Hne. simpl orb. cbv iota. cbv zeta.
  unfold injected, with_root, set_trees. simpl.
  rewrite (prune_absent r (doc d) (new_absent_doc d r Hnew)).
  assert (Hdet : prune_forest r (detached d ++ [Elem r e []]) = detached d).
  { unfold prune_forest. rewrite map_app, filter_app.
    change (List.filter (fun c => negb (has_id r c)) (List.map (prune r) (detached d)))
      with (prune_forest r (detached d)).
    rewrite (prune_absent r (detached d) (new_absent_detached d r Hnew)).
    simpl. rewrite Nat.eqb_refl. simpl. apply app_nil_r. }
  rewrite Hdet.
  rewrite (alter_absent h _ (detached d) head_not_detached). reflexivity.
Qed.

Lemma append_to_head (e : edata) :
  append (TNode h) (TNode r) None (with_root (Elem r e []) d)
  = (Ret (TNode h), injected h (Elem r e []) d).
Proof.
  pose proof r_new as Hnew.
  destruct (element_head (Elem r e [])) as [eh [ch Hh]].
  unfold append.
  rewrite (bind_step (get (TNode h) TUndef) _ _ _ (TNode h) eq_refl).
  change (insertAdjacentElement (TNode h) (default "beforeend" None) (TNode r))
    with (bind (element (TNode h))
               (fun a => match a with
                         | (r0, _, _) =>
                             bind (element (TNode r))
                                  (fun b => match b with
                                            | (c, _, _) => move_into r0 AtEnd c
                                            end)
                         end)).
  rewrite ?bind_assoc.
  rewrite (bind_step _ _ _ _ _ Hh). cbv beta iota. rewrite ?bind_assoc.
  rewrite (bind_step _ _ _ _ _ (element_new_root d r Hnew e [])). cbv beta iota.
  rewrite (bind_step _ _ _ _ _ (move_into_head e)). reflexivity.
Qed.

Lemma create_link (src x : string) :
  create "link"
         (obj_spread [("rel", AStr "stylesheet"); ("href", AStr src)] [("id", AStr x)])
         (TNode h) None d
  = (Ret (TNode r), injected h (link_node r src x) d).
Proof.
  pose proof r_new as Hnew.
  unfold create.
  assert (Hce : createElement "link" d
                = (Ret (TNode r), with_root (Elem r (mk_edata "link" [] "") []) d))
    by (rewrite r_fresh; reflexivity).
  rewrite (bind_step _ _ _ _ _ Hce). cbv beta.
  change (for_each _ (obj_keys _))
    with (setAttribute (TNode r) "rel" "stylesheet" ;;
          (setAttribute (TNode r) "href" src ;;
           (setAttribute (TNode r) "id" x ;; ret tt))).
  rewrite ?bind_assoc.
  rewrite (bind_step _ _ _ _ _ (setAttribute_new_root d r Hnew "rel" _ _ [] eq_refl)).
  cbv beta. rewrite ?bind_assoc.
  rewrite (bind_step _ _ _ _ _ (setAttribute_new_root d r Hnew "href" _ _ [] eq_refl)).
  cbv beta. rewrite ?bind_assoc.
  rewrite (bind_step _ _ _ _ _ (setAttribute_new_root d r Hnew "id" _ _ [] eq_refl)).
  cbv beta.
  change (truthy (TNode h)) with true. cbv iota. rewrite ?bind_assoc.
  rewrite (bind_step (ret tt) _ _ _ tt eq_refl). cbv beta. rewrite ?bind_assoc.
  rewrite (bind_step _ _ _ _ _ (append_to_head _)). reflexivity.
Qed.

Lemma create_script (src x : string) :
  create "script" (obj_spread [("src", AStr src)] [("id", AStr x)]) (TNode h) None d
  = (Ret (TNode r), injected h (script_node r src x) d).
Proof.
  pose proof r_new as Hnew.
  unfold create.
  assert (Hce : createElement "script" d
                = (Ret (TNode r), with_root (Elem r (mk_edata "script" [] "") []) d))
    by (rewrite r_fresh; reflexivity).
  rewrite (bind_step _ _ _ _ _ Hce). cbv beta.
  change (for_each _ (obj_keys _))
    with (setAttribute (TNode r) "src" src ;;
          (setAttribute (TNode r) "id" x ;; ret tt)).
  rewrite ?bind_assoc.
  rewrite (bind_step _ _ _ _ _ (setAttribute_new_root d r Hnew "src" _ _ [] eq_refl)).
  cbv beta. rewrite ?bind_assoc.
  rewrite (bind_step _ _ _ _ _ (setAttribute_new_root d r Hnew "id" _ _ [] eq_refl)).
  cbv beta.
  change (truthy (TNode h)) with true. cbv iota. rewrite ?bind_assoc.
  rewrite (bind_step (ret tt) _ _ _ tt eq_refl). cbv beta. rewrite ?bind_assoc.
  rewrite (bind_step _ _ _ _ _ (append_to_head _)). reflexivity.
Qed.

(** After the injection of an element with identifier [x] into a document
    that had none, the document has exactly that one. *)
Lemma injected_identified (x : string) (e : edata) :
  with_identifier x d = [] ->
  has_identifier x (Elem r e []) = true ->
  with_identifier x (injected h (Elem r e []) d) = [Elem r e []].
Proof.
  intros Hnone Hid. unfold with_identifier, injected. simpl doc.
  pose proof (nodupb_NoDup _ d_wf) as Hnd.
  unfold trees in Hnd. rewrite node_ids_app in Hnd.
  destruct (NoDup_app_parts _ _ Hnd) as [Hdoc _].
  rewrite (graft_identified x h (Elem r e []) (doc d)); [ | | exact Hdoc | exact h_in_doc ].
  - simpl. simpl in Hid. rewrite Hid. reflexivity.
  - intros m Hm. destruct (has_identifier x m) eqn:E; [ | reflexivity ].
    assert (Hin : In m (with_identifier x d))
      by (apply filter_In; split; assumption).
    rewrite Hnone in Hin. destruct Hin.
Qed.

End LoadFacts.

Section LoadTheorems.
Context {host : Host}.
Import TreeFacts FreshFacts MonadFacts GraftFacts.

(** With an identifier that is not empty, [load] looks it up first. *)
Lemma load_found (src x : string) (parent : target) (r : ref) (d : dom) :
  Str.is_empty x = false ->
  fst (getElementById x d) = Ret (TNode r) ->
  load src [("id", AStr x)] parent d = (Ret (TNode r), d).
Proof.
  intros Hx Hget. unfold load.
  rewrite (bind_step (gets document_head) _ d d (document_head d) eq_refl).
  cbv beta zeta.
  change (obj_get [("id", AStr x)] "id") with (Some (AStr x)). cbv iota.
  unfold aval_truthy. rewrite Hx. change (negb false) with true. cbv iota.
  assert (Hg : getElementById x d = (Ret (TNode r), d)).
  { unfold getElementById, gets in *. simpl in Hget. simpl. rewrite Hget. reflexivity. }
  change (string_of (AStr x)) with x. rewrite (bind_step _ _ _ _ _ Hg). reflexivity.
Qed.

Lemma load_not_found (src x : string) (h : ref) (d : dom) :
  Str.is_empty x = false -> document_head d = TNode h ->
  fst (getElementById x d) = Ret TNull ->
  load src [("id", AStr x)] TUndef d
  = if Str.endsWith ".css" src
    then create "link"
                (obj_spread [("rel", AStr "stylesheet"); ("href", AStr src)]
                            [("id", AStr x)])
                (TNode h) None d
    else create "script" (obj_spread [("src", AStr src)] [("id", AStr x)])
                (TNode h) None d.
Proof.
  intros Hx Hh Hget. unfold load.
  rewrite (bind_step (gets document_head) _ d d (document_head d) eq_refl).
  cbv beta zeta.
  change (obj_get [("id", AStr x)] "id") with (Some (AStr x)). cbv iota.
  unfold aval_truthy. rewrite Hx. change (negb false) with true. cbv iota.
  assert (Hg : getElementById x d = (Ret TNull, d)).
  { unfold getElementById, gets in *. simpl in Hget. simpl. rewrite Hget. reflexivity. }
  change (string_of (AStr x)) with x. rewrite (bind_step _ _ _ _ _ Hg). cbv beta.
  change (truthy TNull) with false. cbv iota. rewrite Hh.
  change (or_target (TNode h) TUndef) with (TNode h).
  destruct (Str.endsWith ".css" src); reflexivity.
Qed.

(** What [getElementById] returns, by the elements with that identifier. *)
Lemma getElementById_none (x : string) (d : dom) :
  Str.is_empty x = false ->
  fst (getElementById x d) = Ret TNull -> with_identifier x d = [].
Proof.
  intros Hx. unfold getElementById, gets, with_identifier. simpl. rewrite Hx.
  rewrite find_filter.
  destruct (List.filter (has_identifier x) (all_subtrees (doc d))) as [ | m l] eqn:E;
    [ reflexivity | ].
  assert (Hm : In m (List.filter (has_identifier x) (all_subtrees (doc d))))
    by (rewrite E; left; reflexivity).
  apply filter_In in Hm. destruct Hm as [_ Hm].
  destruct m as [s | i e cs]; [ discriminate | ]. simpl. discriminate.
Qed.

Lemma getElementById_cases (x : string) (d : dom) :
  Str.is_empty x = false ->
  fst (getElementById x d) = Ret TNull
  \/ exists r l e cs,
       fst (getElementById x d) = Ret (TNode r)
       /\ with_identifier x d = Elem r e cs :: l.
Proof.
  intros Hx. unfold getElementById, gets, with_identifier. simpl. rewrite Hx.
  rewrite find_filter.
  destruct (List.filter (has_identifier x) (all_subtrees (doc d))) as [ | m l] eqn:E;
    [ left; reflexivity | ].
  assert (Hm : In m (List.filter (has_identifier x) (all_subtrees (doc d))))
    by (rewrite E; left; reflexivity).
  apply filter_In in Hm. destruct Hm as [_ Hm].
  destruct m as [s | i e cs]; [ discriminate | ].
  right. exists i, l, e, cs. split; reflexivity.
Qed.

Lemma getElementById_single (x : string) (n : node) (r : ref) (e : edata)
      (cs : list node) (d : dom) :
  Str.is_empty x = false -> with_identifier x d = [Elem r e cs] ->
  fst (getElementById x d) = Ret (TNode r).
Proof.
  intros Hx H. unfold getElementById, gets, with_identifier in *. simpl.
  rewrite Hx, find_filter, H. reflexivity.
Qed.

(** C4, as the code has it.  In a well-formed state whose document has a
    head, and for an identifier [x] that is not empty: two calls of
    [load(src, {id: x})] return the same node, which is in the document
    and has the identifier [x]; the second call changes nothing; and if the
    document had at most one element with the identifier [x] before, it
    has exactly one after. *)
Theorem load_twice (src x : string) (h : ref) (d : dom) :
  wf d = true -> Str.is_empty x = false -> document_head d = TNode h ->
  exists r d1,
    load src [("id", AStr x)] TUndef d = (Ret (TNode r), d1)
    /\ load src [("id", AStr x)] TUndef d1 = (Ret (TNode r), d1)
    /\ List.existsb (has_id r) (with_identifier x d1) = true
    /\ (length (with_identifier x d) <= 1 -> length (with_identifier x d1) = 1).
Proof.
  intros Hwf Hx Hh.
  destruct (getElementById_cases x d Hx) as [Hnone | [r [l [e [cs [Hsome Hwith]]]]]].
  - pose proof (head_in_doc h d Hh) as Hin.
    pose proof (getElementById_none x d Hx Hnone) as Hempty.
    assert (Hinj : exists e,
               load src [("id", AStr x)] TUndef d
               = (Ret (TNode (fresh d)), injected h (Elem (fresh d) e []) d)
               /\ has_identifier x (Elem (fresh d) e []) = true).
    { rewrite (load_not_found src x h d Hx Hh Hnone).
      destruct (Str.endsWith ".css" src).
      - eexists. split.
        + apply (create_link d h Hwf Hin (fresh d) eq_refl).
        + simpl. apply String.eqb_refl.
      - eexists. split.
        + apply (create_script d h Hwf Hin (fresh d) eq_refl).
        + simpl. apply String.eqb_refl. }
    destruct Hinj as [e [Hload Hid]].
    pose proof (injected_identified d h Hwf Hin (fresh d) x e Hempty Hid)
      as Hone.
    exists (fresh d), (injected h (Elem (fresh d) e []) d).
    split; [ exact Hload | ]. split; [ | split ].
    + apply load_found; [ exact Hx | ].
      apply (getElementById_single x (Elem (fresh d) e []) (fresh d) e [] _ Hx Hone).
    + rewrite Hone. simpl. rewrite Nat.eqb_refl. reflexivity.
    + intros _. rewrite Hone. reflexivity.
  - exists r, d.
    pose proof (load_found src x TUndef r d Hx Hsome) as Hload.
    split; [ exact Hload | ]. split; [ exact Hload | ]. split.
    + rewrite Hwith. simpl. rewrite Nat.eqb_refl. reflexivity.
    + rewrite Hwith. simpl. intros Hle. destruct l; [ reflexivity | simpl in Hle; lia ].
Qed.

End LoadTheorems.

Lemma load_twice_witness :
  wf page = true
  /\ Str.is_empty "test-css" = false
  /\ document_head page = TNode 2
  /\ exists r d1,
       load "test.css" [("id", AStr "test-css")] TUndef page = (Ret (TNode r), d1)
       /\ load "test.css" [("id", AStr "test-css")] TUndef d1 = (Ret (TNode r), d1)
       /\ List.existsb (has_id r) (with_identifier "test-css" d1) = true
       /\ (length (with_identifier "test-css" page) <= 1 ->
           length (with_identifier "test-css" d1) = 1).
Proof.
  split; [ reflexivity | ]. split; [ reflexivity | ]. split; [ reflexivity | ].
  apply (load_twice "test.css" "test-css" 2 page); reflexivity.
Defined.

(** C4 as stated fails in three ways.  With the empty identifier the two
    calls inject two different nodes.  On a page where two elements share
    the identifier, both calls return the first and both elements remain.
    On a page without a head, the new element stays outside the document
    and the second call makes another. *)
Lemma load_injects_again :
  (fst (load "a.js" [("id", AStr "")] TUndef page) = Ret (TNode 10)
   /\ fst (load "a.js" [("id", AStr "")] TUndef
                (snd (load "a.js" [("id", AStr "")] TUndef page))) = Ret (TNode 11))
  /\ (load "a.js" [("id", AStr "twin")] TUndef twin_page = (Ret (TNode 4), twin_page)
      /\ length (with_identifier "twin" twin_page) = 2)
  /\ (fst (load "a.js" [("id", AStr "x")] TUndef headless_page) = Ret (TNode 5)
      /\ fst (load "a.js" [("id", AStr "x")] TUndef
                   (snd (load "a.js" [("id", AStr "x")] TUndef headless_page)))
         = Ret (TNode 6)
      /\ with_identifier "x"
           (snd (load "a.js" [("id", AStr "x")] TUndef
                      (snd (load "a.js" [("id", AStr "x")] TUndef headless_page))))
         = []).
Proof. repeat split. Qed.

(** The test file's case of [load]. *)
Example load_on_the_page :
  fst (load "test.css" [("id", AStr "test-css")] TUndef page) = Ret (TNode 10)
  /\ attribute 10 "id" (snd (load "test.css" [("id", AStr "test-css")] TUndef page))
     = Some "test-css"
  /\ parent_of 10 (snd (load "test.css" [("id", AStr "test-css")] TUndef page))
     = Some (ParentElement 2).
Proof. repeat split. Qed.

(* ------------------------------------------------------------------ *)
(** ** Targets that resolve to the same element at every call

    Every call of the library resolves its target again.  A node
    reference resolves to its element every time.  With the selector
    engine of the examples, so does an [#id] selector: the classes of an
    element do not change what the selector finds.  A selector on the
    class that is toggled does not. *)

Section NamingTargets.
Import TreeFacts.

Lemma attr_get_set_other (l : list (string * string)) (k k' v : string) :
  String.eqb k' k = false -> attr_get (attr_set l k v) k' = attr_get l k'.
Proof.
  intros Hk. induction l as [ | [k0 v0] l IH]; simpl.
  - rewrite Hk. reflexivity.
  - destruct (String.eqb k k0) eqn:E; simpl.
    + apply String.eqb_eq in E. subst k0. rewrite Hk. reflexivity.
    + destruct (String.eqb k' k0); [ reflexivity | exact IH ].
Qed.

Lemma write_class_keeps_id (ts : list string) (e : edata) :
  attr_get (attrs (write_class ts e)) "id" = attr_get (attrs e) "id".
Proof.
  unfold write_class.
  destruct (attr_get (attrs e) "class"); [ | destruct ts; [ reflexivity | ] ];
    simpl; apply attr_get_set_other; reflexivity.
Qed.

Lemma keys_alter_forest (x : string) (r : ref) (f : edata -> edata) (cs : forest) :
  Forall (fun n => List.map (ident_key x) (subtrees (alter r (with_data r f) n))
                   = List.map (ident_key x) (subtrees n)) cs ->
  List.map (ident_key x) (all_subtrees (List.map (alter r (with_data r f)) cs))
  = List.map (ident_key x) (all_subtrees cs).
Proof.
  unfold all_subtrees. induction 1 as [ | c cs Hc Hcs IH]; simpl; [ reflexivity | ].
  rewrite !map_app, Hc, IH. reflexivity.
Qed.

Lemma keys_alter_node (x : string) (r : ref) (f : edata -> edata) (n : node) :
  (forall e, attr_get (attrs (f e)) "id" = attr_get (attrs e) "id") ->
  List.map (ident_key x) (subtrees (alter r (with_data r f) n))
  = List.map (ident_key x) (subtrees n).
Proof.
  intros Hf. induction n as [s | i e cs IH] using node_induction; [ reflexivity | ].
  simpl alter. destruct (i =? r) eqn:E.
  - apply Nat.eqb_eq in E. subst i. unfold with_data. simpl. rewrite Hf. reflexivity.
  - simpl. f_equal. apply (keys_alter_forest x r f cs IH).
Qed.

Lemma keys_variant (x : string) (r : ref) (d d' : dom) :
  class_variant r d d' ->
  List.map (ident_key x) (all_subtrees (doc d'))
  = List.map (ident_key x) (all_subtrees (doc d)).
Proof.
  induction 1 as [ | d' ts Hv IH]; [ reflexivity | ].
  rewrite <- IH. simpl doc.
  apply keys_alter_forest. apply Forall_forall. intros n _.
  apply keys_alter_node. intros e. apply write_class_keeps_id.
Qed.

Lemma find_by_keys (x : string) (l l' : list node) :
  List.map (ident_key x) l = List.map (ident_key x) l' ->
  node_target (List.find (has_identifier x) l)
  = node_target (List.find (has_identifier x) l').
Proof.
  revert l'. induction l as [ | a l IH]; intros [ | a' l'] H; try discriminate;
    [ reflexivity | ].
  simpl in H. injection H as Ha Hl. simpl.
  destruct a as [s | i e cs], a' as [s' | i' e' cs']; simpl in Ha.
  - apply IH. exact Hl.
  - injection Ha as Hi Hb. simpl. rewrite <- Hb. apply IH. exact Hl.
  - injection Ha as Hi Hb. simpl. rewrite Hb. apply IH. exact Hl.
  - injection Ha as Hi Hb. simpl. simpl in Hb. rewrite Hb. subst i'.
    destruct (match attr_get (attrs e') "id" with
              | Some v => String.eqb v x
              | None => false
              end); [ reflexivity | apply IH; exact Hl ].
Qed.

Lemma find_same {A : Type} (p q : A -> bool) (l : list A) :
  (forall a, p a = q a) -> List.find p l = List.find q l.
Proof.
  intros H. induction l as [ | a l IH]; simpl; [ reflexivity | ].
  rewrite H, IH. reflexivity.
Qed.

(** With the engine of the examples, the selector [#x] resolves to the
    first element of the document with the identifier [x], and goes on
    doing so however the classes of that element change: at every call of
    [toggle], [show] and [hide]. *)
Lemma id_selector_resolves (x : string) (r : ref) (d d' : dom) :
  name_ok x = true -> is_element r d = true ->
  node_target (List.find (has_identifier x) (all_subtrees (doc d))) = TNode r ->
  class_variant r d d' ->
  resolves (TStr (String "#" x)) r d'.
Proof.
  intros Hx Hel Hfind Hv. split; [ exact (variant_is_element r d d' Hel Hv) | ].
  assert (Hq : querySelector TDocument (String "#" x) d' = (Ret (TNode r), d')).
  { unfold querySelector.
    change (selector_valid (String "#" x)) with (name_ok x). rewrite Hx.
    unfold gets. f_equal. f_equal.
    change (scope_elements TDocument d') with (all_subtrees (doc d')).
    rewrite (find_same (selector_matches (String "#" x) (doc d') (detached d') TDocument)
                       (has_identifier x)).
    - rewrite (find_by_keys x _ _ (keys_variant x r d d' Hv)). exact Hfind.
    - intros [s | i e cs]; reflexivity. }
  unfold get. change (or_target TDocument TUndef) with TDocument.
  rewrite (MonadFacts.bind_step _ _ _ _ _ Hq). reflexivity.
Qed.

End NamingTargets.

(** The selector [#test-div] resolves to the element 4 of the test page
    whatever the classes of that element are. *)
Example test_div_resolves (d' : dom) :
  class_variant 4 page d' -> resolves (TStr "#test-div") 4 d'.
Proof. apply id_selector_resolves; reflexivity. Qed.

(* ------------------------------------------------------------------ *)
(** ** Further properties: resolution and events *)

Module MoreFacts.
Import TreeFacts MonadFacts.

Lemma target_eqb_refl (t : target) : target_eqb t t = true.
Proof.
  destruct t; simpl; try reflexivity; [ apply String.eqb_refl | apply Nat.eqb_refl ].
Qed.

Lemma aval_eqb_refl (a : aval) : aval_eqb a a = true.
Proof.
  destruct a as [s | [h | o] | r]; simpl.
  - apply String.eqb_refl.
  - apply Nat.eqb_refl.
  - apply target_eqb_refl.
  - apply Nat.eqb_refl.
Qed.

(** The registration test, as [addEventListener] makes it. *)
Lemma addEventListener_function (el : target) (type : string) (f : func) (d : dom) :
  is_event_target el d = true ->
  addEventListener el type (AFun f) d
  = (Ret tt, if registered el type (AFun f) d then d
             else add_listener (el, type, AFun f) d).
Proof.
  intros H. unfold addEventListener, registered. rewrite H.
  destruct (List.existsb _ (listeners d)); reflexivity.
Qed.

Lemma registered_after (el : target) (type : string) (l : aval) (d : dom) :
  registered el type l
             (if registered el type l d then d else add_listener (el, type, l) d)
  = true.
Proof.
  destruct (registered el type l d) eqn:E; [ exact E | ].
  unfold registered, add_listener. simpl. rewrite existsb_app. simpl.
  rewrite target_eqb_refl, String.eqb_refl, aval_eqb_refl. simpl.
  apply orb_true_r.
Qed.

End MoreFacts.

Section MoreResolution.
Context {host : Host}.
Import TreeFacts MonadFacts MoreFacts.

(** A query sees the trees only. *)
Lemma querySelector_same_trees (scope : target) (s : string) (d d' : dom) :
  doc d' = doc d -> detached d' = detached d ->
  fst (querySelector scope s d') = fst (querySelector scope s d).
Proof.
  intros Hdoc Hdet. unfold querySelector.
  destruct scope; try reflexivity; destruct (selector_valid s); try reflexivity;
    unfold gets, scope_elements, lookup, trees; simpl; rewrite Hdoc, Hdet; reflexivity.
Qed.

Lemma get_same_trees (t scope : target) (d d' : dom) :
  doc d' = doc d -> detached d' = detached d ->
  fst (get t scope d') = fst (get t scope d).
Proof.
  intros Hdoc Hdet. unfold get, bind.
  destruct t as [ | | s | q | | ]; try reflexivity.
  pose proof (querySelector_same_trees (or_target TDocument scope) s d d' Hdoc Hdet) as H.
  pose proof (querySelector_state (or_target TDocument scope) s d) as H1.
  pose proof (querySelector_state (or_target TDocument scope) s d') as H2.
  destruct (querySelector (or_target TDocument scope) s d) as [o1 x1].
  destruct (querySelector (or_target TDocument scope) s d') as [o2 x2].
  simpl in *. subst. destruct o1 as [v | e]; [ | reflexivity ].
  destruct (negb (truthy v)); reflexivity.
Qed.

Lemma is_element_same_trees (r : ref) (d d' : dom) :
  doc d' = doc d -> detached d' = detached d -> is_element r d' = is_element r d.
Proof.
  intros Hdoc Hdet. unfold is_element, lookup, trees. rewrite Hdoc, Hdet. reflexivity.
Qed.

Lemma resolves_same_trees (t : target) (r : ref) (d d' : dom) :
  doc d' = doc d -> detached d' = detached d -> resolves t r d -> resolves t r d'.
Proof.
  intros Hdoc Hdet [H1 H2]. split.
  - rewrite (is_element_same_trees r d d' Hdoc Hdet). exact H1.
  - rewrite (get_same_trees t TUndef d d' Hdoc Hdet). exact H2.
Qed.

Lemma querySelector_found (scope : target) (s : string) (v : target) (d : dom) :
  fst (querySelector scope s d) = Ret v -> querySelector scope s d = (Ret v, d).
Proof.
  intros H. pose proof (querySelector_state scope s d) as Hst.
  destruct (querySelector scope s d) as [o x]. simpl in *. subst. reflexivity.
Qed.

(** X1.  On a selector the engine accepts, within the document (also by
    default) or an element, [get] does not throw and returns the matching
    element: the first one of the scope, in tree order, that the selector
    matches, with the state, console included, as it was.  When the
    selector matches none, [get] returns [null], and the only change is
    one warning that names the selector. *)
Theorem get_selector_outcome (s : string) (scope : target) (d : dom) :
  selector_valid s = true -> query_root scope = true ->
  match List.find (selector_matches s (doc d) (detached d) (or_target TDocument scope))
                  (scope_elements (or_target TDocument scope) d) with
  | Some (Elem r _ _) => get (TStr s) scope d = (Ret (TNode r), d)
  | _ => get (TStr s) scope d
         = (Ret TNull, add_warning ("Element not found:", TStr s) d)
  end.
Proof.
  intros Hs Hq. unfold get, bind, querySelector.
  destruct scope; try discriminate; unfold or_target; cbv beta iota;
    rewrite Hs; unfold gets;
    match goal with
    | |- context [List.find ?p ?l] => destruct (List.find p l) as [[x | i e cs] | ]
    end; reflexivity.
Qed.

(** X2.  When the selector matches an element, [$] returns it with a
    truthy [on] property, leaves the trees alone, and a second call returns
    the same element and changes nothing. *)
Theorem dollar_installs_once (s : string) (r : ref) (d : dom) :
  fst (querySelector TDocument s d) = Ret (TNode r) ->
  exists d1,
    dollar (TStr s) d = (Ret (TNode r), d1)
    /\ aval_truthy (get_expando (TNode r) "on" d1) = true
    /\ doc d1 = doc d /\ detached d1 = detached d
    /\ dollar (TStr s) d1 = (Ret (TNode r), d1).
Proof.
  intros Hq.
  assert (Hstep : forall x, doc x = doc d -> detached x = detached d ->
                    aval_truthy (get_expando (TNode r) "on" x) = true ->
                    dollar (TStr s) x = (Ret (TNode r), x)).
  { intros x Hdoc Hdet Hon.
    assert (Hx : querySelector TDocument s x = (Ret (TNode r), x)).
    { apply querySelector_found.
      rewrite (querySelector_same_trees TDocument s d x Hdoc Hdet). exact Hq. }
    unfold dollar. rewrite (bind_step _ _ _ _ _ Hx).
    rewrite (bind_step (get_on (TNode r)) _ x x (get_expando (TNode r) "on" x) eq_refl).
    rewrite Hon. reflexivity. }
  destruct (aval_truthy (get_expando (TNode r) "on" d)) eqn:Hon.
  - exists d. pose proof (Hstep d eq_refl eq_refl Hon) as H.
    repeat split; assumption.
  - assert (Hon1 : aval_truthy (get_expando (TNode r) "on"
                      (add_expando (TNode r, "on", AFun (OnShorthand (TNode r))) d))
                   = true).
    { unfold get_expando, add_expando. simpl. rewrite Nat.eqb_refl. reflexivity. }
    exists (add_expando (TNode r, "on", AFun (OnShorthand (TNode r))) d).
    split; [ | split; [ exact Hon1 | split; [ reflexivity | split; [ reflexivity | ] ] ] ].
    + unfold dollar. rewrite (bind_step _ _ _ _ _ (querySelector_found _ _ _ _ Hq)).
      rewrite (bind_step (get_on (TNode r)) _ d d (get_expando (TNode r) "on" d) eq_refl).
      rewrite Hon. reflexivity.
    + apply Hstep; [ reflexivity | reflexivity | exact Hon1 ].
Qed.

(** X3.  When the selector matches nothing, [$] fails with a [TypeError]
    on the [null] it got, and leaves no warning: the state is unchanged. *)
Theorem dollar_unmatched (s : string) (d : dom) :
  fst (querySelector TDocument s d) = Ret TNull ->
  dollar (TStr s) d = (Throw TypeError, d).
Proof.
  intros Hq. unfold dollar.
  rewrite (bind_step _ _ _ _ _ (querySelector_found _ _ _ _ Hq)). reflexivity.
Qed.

(** X4.  [on] is safe on a selector that matches nothing: it returns
    [null], registers no listener, throws nothing, and the only change is
    the resolver's warning. *)
Theorem on_unmatched (s ev : string) (cb : func) (d : dom) :
  fst (querySelector TDocument s d) = Ret TNull ->
  on (TStr s) (EName ev) (Some cb) d
  = (Ret TNull, add_warning ("Element not found:", TStr s) d).
Proof.
  intros Hq. unfold on. rewrite (bind_step _ _ _ _ _ (get_unmatched s d Hq)).
  reflexivity.
Qed.

(** X5.  With two arguments, [on(name, handler)] takes the first for the
    event name and the window for the target: the string is never used as a
    selector, the handler is registered on the window, the window is
    returned, and the trees and the console are untouched. *)
Theorem on_global (name : string) (f : func) (d : dom) :
  exists d',
    on (TStr name) (EHandler f) None d = (Ret TWindow, d')
    /\ registered TWindow name (AFun f) d' = true
    /\ doc d' = doc d /\ detached d' = detached d /\ console d' = console d.
Proof.
  exists (if registered TWindow name (AFun f) d then d
          else add_listener (TWindow, name, AFun f) d).
  split; [ | split; [ apply registered_after | ] ].
  - unfold on. simpl target_string.
    rewrite (bind_step (get TWindow TUndef) _ d d TWindow eq_refl).
    unfold listen.
    rewrite (bind_step _ _ _ _ _ (addEventListener_function TWindow name f d eq_refl)).
    reflexivity.
  - destruct (registered TWindow name (AFun f) d); repeat split.
Qed.

(** X6.  When [t] resolves to an element, [on(t, name, handler)] returns
    that element with the handler registered on it for the event, leaves
    the trees and the console alone, and a second identical call changes
    nothing more. *)
Theorem on_registers (t : target) (r : ref) (name : string) (f : func) (d : dom) :
  resolves t r d ->
  exists d',
    on t (EName name) (Some f) d = (Ret (TNode r), d')
    /\ registered (TNode r) name (AFun f) d' = true
    /\ doc d' = doc d /\ detached d' = detached d /\ console d' = console d
    /\ on t (EName name) (Some f) d' = (Ret (TNode r), d').
Proof.
  intros Hres.
  assert (Hstep : forall x, resolves t r x ->
                    on t (EName name) (Some f) x
                    = (Ret (TNode r),
                       if registered (TNode r) name (AFun f) x then x
                       else add_listener (TNode r, name, AFun f) x)).
  { intros x [Hel Hget].
    assert (Het : is_event_target (TNode r) x = true).
    { unfold is_event_target. unfold is_element in Hel.
      destruct (lookup r x); [ reflexivity | discriminate ]. }
    unfold on. simpl evarg_string.
    rewrite (bind_step _ _ _ _ _ (get_resolved t TUndef r x Hget)).
    unfold listen.
    rewrite (bind_step _ _ _ _ _ (addEventListener_function (TNode r) name f x Het)).
    reflexivity. }
  exists (if registered (TNode r) name (AFun f) d then d
          else add_listener (TNode r, name, AFun f) d).
  pose proof (registered_after (TNode r) name (AFun f) d) as Hreg.
  assert (Htrees : doc (if registered (TNode r) name (AFun f) d then d
                        else add_listener (TNode r, name, AFun f) d) = doc d
                   /\ detached (if registered (TNode r) name (AFun f) d then d
                                else add_listener (TNode r, name, AFun f) d)
                      = detached d
                   /\ console (if registered (TNode r) name (AFun f) d then d
                               else add_listener (TNode r, name, AFun f) d)
                      = console d)
    by (destruct (registered (TNode r) name (AFun f) d); repeat split).
  destruct Htrees as [Hdoc [Hdet Hcon]].
  split; [ apply Hstep; exact Hres | ].
  split; [ exact Hreg | ]. split; [ exact Hdoc | ]. split; [ exact Hdet | ].
  split; [ exact Hcon | ].
  rewrite (Hstep _ (resolves_same_trees t r d _ Hdoc Hdet Hres)), Hreg. reflexivity.
Qed.

End MoreResolution.

(* ------------------------------------------------------------------ *)
(** ** Further properties: attributes and content *)

Module AttributeFacts.

Lemma attr_get_remove (l : list (string * string)) (k : string) :
  attr_get (attr_remove l k) k = None.
Proof.
  induction l as [ | [k' v'] l IH]; simpl; [ reflexivity | ].
  destruct (String.eqb k k') eqn:E; [ exact IH | ].
  simpl. rewrite E. exact IH.
Qed.

Lemma attr_remove_absent (l : list (string * string)) (k : string) :
  attr_get l k = None -> attr_remove l k = l.
Proof.
  induction l as [ | [k' v'] l IH]; simpl; [ reflexivity | ].
  destruct (String.eqb k k'); [ discriminate | ].
  intros H. rewrite (IH H). reflexivity.
Qed.

(** Removing an attribute that was just added gives the list back. *)
Lemma attr_remove_set (l : list (string * string)) (k v : string) :
  attr_get l k = None -> attr_remove (attr_set l k v) k = l.
Proof.
  induction l as [ | [k' v'] l IH]; simpl.
  - rewrite String.eqb_refl. reflexivity.
  - destruct (String.eqb k k') eqn:E; [ discriminate | ].
    intros H. simpl. rewrite E, (IH H). reflexivity.
Qed.

End AttributeFacts.

Section AttributeTheorems.
Context {host : Host}.
Import TreeFacts MonadFacts TokenFacts AttributeFacts.

Lemma setAttribute_step (r : ref) (k v : string) (d : dom) :
  is_element r d = true -> valid_attribute_name k = true ->
  setAttribute (TNode r) k v d
  = (Ret tt,
     alter_dom r (with_data r (fun e =>
                     set_attrs e (attr_set (attrs e) (Str.to_lower k) v))) d).
Proof.
  intros Hel Hk. destruct (is_element_lookup r d Hel) as [e [cs Hl]].
  unfold setAttribute. rewrite (bind_step _ _ _ _ _ (element_found r e cs d Hl)).
  rewrite Hk. reflexivity.
Qed.

Lemma removeAttribute_step (r : ref) (k : string) (d : dom) :
  is_element r d = true ->
  removeAttribute (TNode r) k d
  = (Ret tt,
     alter_dom r (with_data r (fun e =>
                     set_attrs e (attr_remove (attrs e) (Str.to_lower k)))) d).
Proof.
  intros Hel. destruct (is_element_lookup r d Hel) as [e [cs Hl]].
  unfold removeAttribute. rewrite (bind_step _ _ _ _ _ (element_found r e cs d Hl)).
  reflexivity.
Qed.

Lemma getAttribute_step (r : ref) (k : string) (d : dom) :
  is_element r d = true ->
  getAttribute (TNode r) k d = (Ret (attr_get (attributes_of r d) (Str.to_lower k)), d).
Proof.
  intros Hel. destruct (is_element_lookup r d Hel) as [e [cs Hl]].
  unfold getAttribute. rewrite (bind_step _ _ _ _ _ (element_found r e cs d Hl)).
  unfold attributes_of. rewrite Hl. reflexivity.
Qed.

(** The attributes of [r] after its data was changed. *)
Lemma attributes_of_with_data (r : ref) (f : edata -> edata) (d : dom) :
  is_element r d = true ->
  exists e cs,
    lookup r d = Some (Elem r e cs)
    /\ attributes_of r (alter_dom r (with_data r f) d) = attrs (f e).
Proof.
  intros Hel. destruct (is_element_lookup r d Hel) as [e [cs Hl]].
  exists e, cs. split; [ exact Hl | ].
  unfold attributes_of. rewrite lookup_alter_dom by apply keeps_with_data.
  rewrite Hl. reflexivity.
Qed.

(** X7.  [set] is a setter and a getter that agree: after
    [set(t, a, v)] with an attribute name the host accepts, which returns
    the element, [set(t, a')] returns [v] and changes nothing, for every
    spelling [a'] of the name that differs from [a] in letter case only,
    as long as [t] still resolves to the element. *)
Theorem set_round_trip (t : target) (r : ref) (a a' v : string) (d : dom) :
  valid_attribute_name a = true -> Str.to_lower a' = Str.to_lower a ->
  resolves t r d -> resolves t r (snd (set t a (Some v) d)) ->
  fst (set t a (Some v) d) = Ret (SetOn (TNode r))
  /\ set t a' None (snd (set t a (Some v) d))
     = (Ret (Got (Some v)), snd (set t a (Some v) d)).
Proof.
  intros Ha Hcase [Hel Hget].
  assert (Hset : set t a (Some v) d
                 = (Ret (SetOn (TNode r)),
                    alter_dom r (with_data r (fun e =>
                       set_attrs e (attr_set (attrs e) (Str.to_lower a) v))) d)).
  { unfold set. rewrite (bind_step _ _ _ _ _ (get_resolved t TUndef r d Hget)).
    rewrite (bind_step _ _ _ _ _ (setAttribute_step r a v d Hel Ha)). reflexivity. }
  rewrite Hset. simpl fst. simpl snd. intros [Hel1 Hget1].
  split; [ reflexivity | ].
  unfold set. rewrite (bind_step _ _ _ _ _ (get_resolved t TUndef r _ Hget1)).
  rewrite (bind_step _ _ _ _ _ (getAttribute_step r a' _ Hel1)).
  destruct (attributes_of_with_data r
              (fun e => set_attrs e (attr_set (attrs e) (Str.to_lower a) v)) d Hel)
    as [e [cs [_ Hattrs]]].
  rewrite Hattrs, Hcase. simpl attrs. rewrite attr_get_set. reflexivity.
Qed.

(** X8.  [disable(t)] returns the element with [disabled="disabled"];
    [enable(t)] after it returns the element without a [disabled]
    attribute, and if the element had none to begin with its attributes are
    again exactly what they were. *)
Theorem disable_enable (t : target) (r : ref) (d : dom) :
  resolves t r d -> resolves t r (snd (disable t d)) ->
  fst (disable t d) = Ret (TNode r)
  /\ attribute r "disabled" (snd (disable t d)) = Some "disabled"
  /\ fst (enable t (snd (disable t d))) = Ret (TNode r)
  /\ attribute r "disabled" (snd (enable t (snd (disable t d)))) = None
  /\ (attribute r "disabled" d = None ->
      attributes_of r (snd (enable t (snd (disable t d)))) = attributes_of r d).
Proof.
  intros [Hel Hget].
  assert (Hdis : disable t d
                 = (Ret (TNode r),
                    alter_dom r (with_data r (fun e =>
                       set_attrs e (attr_set (attrs e) "disabled" "disabled"))) d)).
  { unfold disable. rewrite (bind_step _ _ _ _ _ (get_resolved t TUndef r d Hget)).
    rewrite (bind_step _ _ _ _ _ (setAttribute_step r "disabled" "disabled" d Hel eq_refl)).
    reflexivity. }
  rewrite Hdis. simpl fst. simpl snd. intros [Hel1 Hget1].
  assert (Hen : enable t (alter_dom r (with_data r (fun e =>
                   set_attrs e (attr_set (attrs e) "disabled" "disabled"))) d)
                = (Ret (TNode r),
                   alter_dom r (with_data r (fun e =>
                      set_attrs e (attr_remove (attrs e) "disabled")))
                     (alter_dom r (with_data r (fun e =>
                        set_attrs e (attr_set (attrs e) "disabled" "disabled"))) d))).
  { unfold enable. rewrite (bind_step _ _ _ _ _ (get_resolved t TUndef r _ Hget1)).
    rewrite (bind_step _ _ _ _ _ (removeAttribute_step r "disabled" _ Hel1)).
    reflexivity. }
  rewrite Hen. simpl fst. simpl snd.
  destruct (is_element_lookup r d Hel) as [e [cs Hl]].
  assert (Hl1 : lookup r (alter_dom r (with_data r (fun e =>
                   set_attrs e (attr_set (attrs e) "disabled" "disabled"))) d)
                = Some (Elem r (set_attrs e (attr_set (attrs e) "disabled" "disabled")) cs)).
  { rewrite lookup_alter_dom by apply keeps_with_data. rewrite Hl. reflexivity. }
  assert (Hl2 : lookup r (alter_dom r (with_data r (fun e =>
                   set_attrs e (attr_remove (attrs e) "disabled")))
                     (alter_dom r (with_data r (fun e =>
                        set_attrs e (attr_set (attrs e) "disabled" "disabled"))) d))
                = Some (Elem r (set_attrs (set_attrs e (attr_set (attrs e) "disabled"
                                                                 "disabled"))
                                          (attr_remove (attr_set (attrs e) "disabled"
                                                                 "disabled")
                                                       "disabled")) cs)).
  { rewrite lookup_alter_dom by apply keeps_with_data. rewrite Hl1. reflexivity. }
  split; [ reflexivity | ]. split; [ | split; [ reflexivity | split ] ].
  - unfold attribute. rewrite Hl1. simpl. apply attr_get_set.
  - unfold attribute. rewrite Hl2. simpl. apply attr_get_remove.
  - unfold attribute, attributes_of. rewrite Hl, Hl2. simpl. apply attr_remove_set.
Qed.



End AttributeTheorems.

(* ------------------------------------------------------------------ *)
(** ** Further properties: structure, iteration, focus *)

Module DetachFacts.
Import TreeFacts FreshFacts.

Lemma has_id_prune (r q : ref) (n : node) : has_id r (prune q n) = has_id r n.
Proof. destruct n; reflexivity. Qed.

Lemma prune_forest_cons (r : ref) (c : node) (cs : forest) :
  prune_forest r (c :: cs)
  = if has_id r c then prune_forest r cs else prune r c :: prune_forest r cs.
Proof.
  unfold prune_forest. simpl. rewrite has_id_prune.
  destruct (has_id r c); reflexivity.
Qed.

Lemma node_ids_cons (c : node) (cs : forest) :
  node_ids (c :: cs) = node_ids [c] ++ node_ids cs.
Proof. change (c :: cs) with ([c] ++ cs). apply node_ids_app. Qed.

Lemma pruned_forest (r : ref) (cs : forest) :
  Forall (fun n => has_id r n = false -> ~ In r (node_ids [prune r n])) cs ->
  ~ In r (node_ids (prune_forest r cs)).
Proof.
  induction 1 as [ | c cs Hc Hcs IH]; [ intros [] | ].
  rewrite prune_forest_cons. destruct (has_id r c) eqn:E; [ exact IH | ].
  rewrite node_ids_cons. intros Hin. apply in_app_or in Hin.
  destruct Hin as [Hin | Hin]; [ exact (Hc eq_refl Hin) | exact (IH Hin) ].
Qed.

Lemma pruned_node (r : ref) (n : node) :
  has_id r n = false -> ~ In r (node_ids [prune r n]).
Proof.
  induction n as [s | i e cs IH] using node_induction; intros H; [ intros [] | ].
  change (prune r (Elem i e cs)) with (Elem i e (prune_forest r cs)).
  rewrite node_ids_elem, app_nil_r. simpl in H. apply Nat.eqb_neq in H.
  intros [Hin | Hin]; [ exact (H Hin) | exact (pruned_forest r cs IH Hin) ].
Qed.

(** After pruning, [r] occurs nowhere. *)
Lemma prune_removes (r : ref) (f : forest) : ~ In r (node_ids (prune_forest r f)).
Proof.
  apply pruned_forest. apply Forall_forall. intros n _. apply pruned_node.
Qed.

Lemma in_document_spec (r : ref) (d : dom) :
  in_document r d = true <-> In r (node_ids (doc d)).
Proof.
  unfold in_document. rewrite existsb_exists. split.
  - intros [x [Hx E]]. apply Nat.eqb_eq in E. subst. exact Hx.
  - intros H. exists r. split; [ exact H | apply Nat.eqb_refl ].
Qed.

End DetachFacts.

Section StructureTheorems.
Context {host : Host}.
Import TreeFacts FreshFacts MonadFacts GraftFacts DetachFacts.

(** What [get] returns for a selector is what the query returns. *)
Lemma get_selector_result (s : string) (scope : target) (d : dom) :
  fst (get (TStr s) scope d) = fst (querySelector (or_target TDocument scope) s d).
Proof.
  unfold get, bind.
  destruct (querySelector (or_target TDocument scope) s d) as [[v | e] x];
    [ | reflexivity ].
  destruct (negb (truthy v)); reflexivity.
Qed.

(** A document query returns elements of the document only. *)
Lemma get_selector_in_document (s : string) (r : ref) (d : dom) :
  fst (get (TStr s) TUndef d) = Ret (TNode r) -> In r (node_ids (doc d)).
Proof.
  rewrite get_selector_result. simpl or_target. unfold querySelector.
  destruct (selector_valid s); [ | discriminate ].
  unfold gets. simpl.
  destruct (List.find _ (all_subtrees (doc d))) as [[x | i e cs] | ] eqn:E;
    try discriminate.
  simpl. intros H. injection H as ->.
  apply find_some in E. destruct E as [E _]. apply (in_node_ids r e cs _ E).
Qed.

(** X11.  In a well-formed state, [create(tag, {}, parent)] with a tag the
    host accepts and an element of the document as parent returns an
    element that was not there before and is now the last child of the
    parent, after the children the parent had. *)
Theorem create_appends_last (tag : string) (h : ref) (d : dom) :
  wf d = true -> in_document h d = true -> valid_element_name tag = true ->
  exists r d',
    create tag [] (TNode h) None d = (Ret (TNode r), d')
    /\ lookup r d = None
    /\ children_of h d'
       = children_of h d ++ [Elem r (mk_edata (Str.to_lower tag) [] "") []].
Proof.
  intros Hwf Hdoc Htag. apply in_document_spec in Hdoc.
  pose proof (fresh_absent d) as Hnew.
  destruct (find_node_present h (doc d) Hdoc) as [e [cs Hf]].
  exists (fresh d),
    (injected h (Elem (fresh d) (mk_edata (Str.to_lower tag) [] "") []) d).
  split; [ | split ].
  - unfold create.
    assert (Hce : createElement tag d
                  = (Ret (TNode (fresh d)),
                     with_root (Elem (fresh d) (mk_edata (Str.to_lower tag) [] "") []) d))
      by (unfold createElement; rewrite Htag; reflexivity).
    rewrite (bind_step _ _ _ _ _ Hce). cbv beta.
    change (for_each _ (obj_keys [])) with (ret tt : M unit).
    rewrite (bind_step (ret tt) _ _ _ tt eq_refl). cbv beta.
    change (truthy (TNode h)) with true. cbv iota. rewrite ?bind_assoc.
    rewrite (bind_step _ _ _ _ _ (append_to_head d h Hwf Hdoc (fresh d) eq_refl _)).
    reflexivity.
  - apply find_node_absent. exact Hnew.
  - unfold children_of, lookup, injected, trees. simpl doc. simpl detached.
    rewrite (find_node_before h _ (detached d) _ Hf).
    assert (Hg : keeps h (graft h AtEnd
                   [Elem (fresh d) (mk_edata (Str.to_lower tag) [] "") []]))
      by (intros e' cs'; unfold graft; eauto).
    pose proof (find_node_alter h _ Hg (doc d)) as Ha. rewrite Hf in Ha. simpl in Ha.
    rewrite (find_node_before h _ (detached d) _ Ha). reflexivity.
Qed.

(** X12.  [remove] on an element reference does not throw and keeps the
    element, with its subtree, as a node.  Without a parent nothing
    changes.  With a parent the element is gone from the document, so that
    afterwards no selector, in any selector engine, resolves to it. *)
Theorem remove_detaches (r : ref) (d : dom) :
  is_element r d = true ->
  exists d',
    remove (TNode r) d = (Ret tt, d')
    /\ is_element r d' = true
    /\ children_of r d' = children_of r d
    /\ (has_parent r d = false -> d' = d)
    /\ (has_parent r d = true ->
        in_document r d' = false
        /\ forall s, fst (get (TStr s) TUndef d') <> Ret (TNode r)).
Proof.
  intros Hel. destruct (is_element_lookup r d Hel) as [e [cs Hl]].
  assert (Hrm : remove (TNode r) d
                = match parent_of r d with
                  | None => (Ret tt, d)
                  | Some _ =>
                      (Ret tt, set_trees (prune_forest r (doc d))
                                         (prune_forest r (detached d) ++ [Elem r e cs]) d)
                  end).
  { unfold remove. rewrite (bind_step (get (TNode r) TUndef) _ d d (TNode r) eq_refl).
    unfold remove_method. rewrite (bind_step _ _ _ _ _ (element_found r e cs d Hl)).
    cbv beta iota. rewrite (bind_step (gets (parent_of r)) _ d d (parent_of r d) eq_refl).
    destruct (parent_of r d); reflexivity. }
  unfold has_parent. destruct (parent_of r d) as [p | ] eqn:Hp.
  - exists (set_trees (prune_forest r (doc d))
                      (prune_forest r (detached d) ++ [Elem r e cs]) d).
    assert (Hl' : lookup r (set_trees (prune_forest r (doc d))
                              (prune_forest r (detached d) ++ [Elem r e cs]) d)
                  = Some (Elem r e cs)).
    { unfold lookup, trees. simpl. rewrite app_assoc.
      rewrite find_node_after_absent.
      - unfold find_node, all_subtrees. simpl. rewrite Nat.eqb_refl. reflexivity.
      - rewrite node_ids_app. intros Hin. apply in_app_or in Hin.
        destruct Hin as [Hin | Hin]; exact (prune_removes r _ Hin). }
    split; [ exact Hrm | ]. split; [ unfold is_element; rewrite Hl'; reflexivity | ].
    split; [ unfold children_of; rewrite Hl', Hl; reflexivity | ].
    split; [ discriminate | ]. intros _.
    assert (Hout : ~ In r (node_ids (prune_forest r (doc d)))) by apply prune_removes.
    split.
    + destruct (in_document r (set_trees (prune_forest r (doc d))
                                 (prune_forest r (detached d) ++ [Elem r e cs]) d))
        eqn:E; [ | reflexivity ].
      apply in_document_spec in E. contradiction.
    + intros s H. apply get_selector_in_document in H. contradiction.
  - exists d. split; [ exact Hrm | ]. split; [ exact Hel | ].
    split; [ reflexivity | ]. split; [ reflexivity | discriminate ].
Qed.

(** X13.  With a selector the engine accepts and no callback, [each]
    returns the matching elements, all the elements of the document that
    the selector matches and no others, in tree order, without any change
    of state; and [get] on the same selector resolves to the first of
    them, or to [null] when there is none. *)
Theorem each_first_is_get (s : string) (d : dom) :
  selector_valid s = true ->
  let found :=
    List.map (fun n => node_target (Some n))
             (List.filter (selector_matches s (doc d) (detached d) TDocument)
                          (all_subtrees (doc d))) in
  each (CSelector s) None d = (Ret found, d)
  /\ fst (get (TStr s) TUndef d) = Ret (List.hd TNull found).
Proof.
  intros Hs found. split.
  - unfold each, querySelectorAll. rewrite Hs. reflexivity.
  - rewrite get_selector_result. simpl or_target. unfold querySelector.
    rewrite Hs. unfold gets. simpl fst. rewrite find_filter.
    change (scope_elements TDocument d) with (all_subtrees (doc d)).
    unfold found.
    destruct (List.filter _ (all_subtrees (doc d))); reflexivity.
Qed.

(** The calls of a noting callback, in the listener table. *)
Lemma forEach_noting (note : target -> nat -> target * string * aval)
      (l : list target) (i : nat) (d : dom) :
  forEach_from i (noting note) l d
  = (Ret tt, mk_dom (doc d) (detached d) (console d)
                    (listeners d ++ calls_from i note l) (expandos d) (dispatched d)).
Proof.
  revert i d. induction l as [ | x l IH]; intros i d.
  - simpl. rewrite app_nil_r. destruct d; reflexivity.
  - simpl forEach_from.
    rewrite (bind_step (noting note x i) _ d (add_listener (note x i) d) tt eq_refl).
    rewrite IH. unfold add_listener. simpl. rewrite <- app_assoc. reflexivity.
Qed.

(** X14.  On an array or node list, [each] calls the callback once for
    every member, in the order of the list, with the member and its index
    counted from 0, and returns the list it was given: a callback that
    notes its calls leaves exactly that sequence of notes. *)
Theorem each_visits_in_order (note : target -> nat -> target * string * aval)
        (l : list target) (d : dom) :
  each (CList l) (Some (noting note)) d
  = (Ret l, mk_dom (doc d) (detached d) (console d)
                   (listeners d ++ calls_from 0 note l) (expandos d) (dispatched d)).
Proof.
  unfold each. rewrite (bind_step (ret l) _ d d l eq_refl).
  rewrite (bind_step _ _ _ _ _ (forEach_noting note l 0 d)). reflexivity.
Qed.

(** X15.  [focus] is safe on a selector that matches nothing: it returns
    [null], runs no focusing steps and throws nothing; the only change is
    the resolver's warning. *)
Theorem focus_unmatched {fh : FocusHost} (s : string) (d : dom) :
  fst (querySelector TDocument s d) = Ret TNull ->
  focus (TStr s) d = (Ret TNull, add_warning ("Element not found:", TStr s) d).
Proof.
  intros Hq. unfold focus. rewrite (bind_step _ _ _ _ _ (get_unmatched s d Hq)).
  reflexivity.
Qed.

(** X16.  [hide(t)] leaves the state that [toggle(t, 'd-none', true)]
    leaves, and [show(t)] the state that [toggle(t, 'd-none', false)]
    leaves, the class name being the default of [toggle]; [show(t, false)]
    is [hide(t)].  This holds for every target, also when the calls
    fail. *)
Theorem toggle_force_is_show_hide (t : target) (d : dom) :
  snd (toggle t None (Some true) d) = snd (hide t d)
  /\ snd (toggle t None (Some false) d) = snd (show t None d)
  /\ show t (Some false) d = hide t d.
Proof.
  split; [ | split ]; [ | | reflexivity ].
  - unfold toggle, hide, bind, default.
    destruct (get t TUndef d) as [[el | e] d1]; [ | reflexivity ].
    destruct (classList_add el "d-none" d1) as [[u | e] d2]; reflexivity.
  - unfold toggle, show, bind, default.
    destruct (get t TUndef d) as [[el | e] d1]; [ | reflexivity ].
    destruct (classList_remove el "d-none" d1) as [[u | e] d2]; reflexivity.
Qed.

(** X17.  On an element reference, [dispatch(el, name)] fires one event
    named [name] on the element and touches nothing else.  When [name] is
    falsy, left out or the empty string, the arguments shift instead: the
    event is fired on the window, with the element as its name, and nothing
    is fired on the element. *)
Theorem dispatch_on_element (r : ref) (evt : target) (d : dom) :
  is_element r d = true ->
  dispatch (TNode r) evt d
  = (Ret tt,
     add_dispatched (if truthy evt then (TNode r, evt) else (TWindow, TNode r)) d).
Proof.
  intros Hel. destruct (truthy evt) eqn:E.
  - apply dispatch_reference; assumption.
  - unfold dispatch. rewrite E. reflexivity.
Qed.

End StructureTheorems.

(* ------------------------------------------------------------------ *)
(** ** Further properties: [each] with [hide] *)

Section EachHide.
Context {host : Host}.
Import TokenFacts TreeFacts MonadFacts ClassFacts OtherElementFacts.

(** One [hide] on an element reference: the element is hidden, the other
    elements keep their classes, and every element stays one. *)
Lemma hide_reference (r : ref) (d : dom) :
  is_element r d = true ->
  exists d',
    hide (TNode r) d = (Ret tt, d')
    /\ has_class r "d-none" d' = true
    /\ (forall q, is_element q d = true -> is_element q d' = true)
    /\ (forall q, has_class q "d-none" d = true -> has_class q "d-none" d' = true).
Proof.
  intros Hel.
  exists (alter_dom r (with_data r (write_class (tokens_add "d-none" (classes r d)))) d).
  assert (Hhid : classes r (alter_dom r (with_data r (write_class
                                (tokens_add "d-none" (classes r d)))) d)
                 = tokens_add "d-none" (classes r d)).
  { apply classes_written; [ exact Hel | | ].
    - apply tokens_add_ok; [ reflexivity | apply classes_ok ].
    - apply tokens_add_NoDup. apply classes_NoDup. }
  split; [ | split; [ | split ] ].
  - unfold hide. rewrite (bind_step (get (TNode r) TUndef) _ d d (TNode r) eq_refl).
    apply (classList_add_step r "d-none" d Hel eq_refl).
  - rewrite has_class_classes, Hhid. apply tokens_add_mem.
  - intros q Hq. destruct (Nat.eq_dec q r) as [-> | Hne].
    + apply is_element_rewrite. exact Hq.
    + rewrite is_element_data in *. rewrite (lookup_other r q _ Hne d). exact Hq.
  - intros q Hq. destruct (Nat.eq_dec q r) as [-> | Hne].
    + rewrite has_class_classes, Hhid. apply tokens_add_mem.
    + rewrite has_class_classes, classes_data in *.
      rewrite (lookup_other r q _ Hne d). exact Hq.
Qed.

Lemma forEach_hiding (rs : list ref) (i : nat) (d : dom) :
  List.forallb (fun r => is_element r d) rs = true ->
  exists d',
    forEach_from i hiding (List.map TNode rs) d = (Ret tt, d')
    /\ List.forallb (fun r => has_class r "d-none" d') rs = true
    /\ (forall q, is_element q d = true -> is_element q d' = true)
    /\ (forall q, has_class q "d-none" d = true -> has_class q "d-none" d' = true).
Proof.
  revert i d. induction rs as [ | r rs IH]; intros i d Hall.
  - exists d. repeat split; auto.
  - simpl in Hall. apply andb_prop in Hall. destruct Hall as [Hr Hrs].
    destruct (hide_reference r d Hr) as [d1 [Hhide [Hhid [Hkeep Hstay]]]].
    assert (Hrs1 : List.forallb (fun q => is_element q d1) rs = true).
    { apply forallb_forall. intros q Hq. apply Hkeep.
      apply (proj1 (forallb_forall _ _) Hrs q Hq). }
    destruct (IH (S i) d1 Hrs1) as [d' [Hrun [Hdone [Hkeep' Hstay']]]].
    exists d'. split; [ | split; [ | split ] ].
    + simpl List.map. simpl forEach_from.
      change (hiding (TNode r) i) with (hide (TNode r)).
      rewrite (bind_step _ _ _ _ _ Hhide). exact Hrun.
    + simpl. rewrite (Hstay' r Hhid). exact Hdone.
    + intros q Hq. apply Hkeep'. apply Hkeep. exact Hq.
    + intros q Hq. apply Hstay'. apply Hstay. exact Hq.
Qed.

(** X18.  [each(list, el => hide(el))] over a list of element references
    returns the list and leaves every member hidden: each of them has the
    marker class [d-none] afterwards, also the ones named twice. *)
Theorem each_hide_all (rs : list ref) (d : dom) :
  List.forallb (fun r => is_element r d) rs = true ->
  exists d',
    each (CList (List.map TNode rs)) (Some hiding) d = (Ret (List.map TNode rs), d')
    /\ List.forallb (fun r => has_class r "d-none" d') rs = true.
Proof.
  intros Hall. destruct (forEach_hiding rs 0 d Hall) as [d' [Hrun [Hdone _]]].
  exists d'. split; [ | exact Hdone ].
  unfold each. rewrite (bind_step (ret (List.map TNode rs)) _ d d _ eq_refl).
  rewrite (bind_step _ _ _ _ _ Hrun). reflexivity.
Qed.

End EachHide.

(* ------------------------------------------------------------------ *)
(** ** The further properties on the test page *)

Lemma get_selector_outcome_witness :
  selector_valid "option" = true
  /\ query_root (TNode 6) = true
  /\ get (TStr "option") (TNode 6) page = (Ret (TNode 7), page).
Proof.
  split; [ reflexivity | ]. split; [ reflexivity | ].
  exact (get_selector_outcome "option" (TNode 6) page eq_refl eq_refl).
Defined.

Lemma dollar_installs_once_witness :
  fst (querySelector TDocument "#test-div" page) = Ret (TNode 4)
  /\ exists d1,
       dollar (TStr "#test-div") page = (Ret (TNode 4), d1)
       /\ aval_truthy (get_expando (TNode 4) "on" d1) = true
       /\ doc d1 = doc page /\ detached d1 = detached page
       /\ dollar (TStr "#test-div") d1 = (Ret (TNode 4), d1).
Proof.
  split; [ reflexivity | ].
  apply (dollar_installs_once "#test-div" 4 page). reflexivity.
Defined.

Lemma dollar_unmatched_witness :
  fst (querySelector TDocument "#non-existent" page) = Ret TNull
  /\ dollar (TStr "#non-existent") page = (Throw TypeError, page).
Proof.
  split; [ reflexivity | ].
  apply (dollar_unmatched "#non-existent" page). reflexivity.
Defined.

Lemma on_unmatched_witness :
  fst (querySelector TDocument "#non-existent" page) = Ret TNull
  /\ on (TStr "#non-existent") (EName "click") (Some (Callback 1)) page
     = (Ret TNull, add_warning ("Element not found:", TStr "#non-existent") page).
Proof.
  split; [ reflexivity | ].
  apply (on_unmatched "#non-existent" "click" (Callback 1) page). reflexivity.
Defined.

Lemma on_registers_witness :
  resolves (TStr "#test-button") 9 page
  /\ exists d',
       on (TStr "#test-button") (EName "click") (Some (Callback 1)) page
       = (Ret (TNode 9), d')
       /\ registered (TNode 9) "click" (AFun (Callback 1)) d' = true
       /\ doc d' = doc page /\ detached d' = detached page /\ console d' = console page
       /\ on (TStr "#test-button") (EName "click") (Some (Callback 1)) d'
          = (Ret (TNode 9), d').
Proof.
  assert (H : resolves (TStr "#test-button") 9 page) by (split; reflexivity).
  split; [ exact H | ].
  apply (on_registers (TStr "#test-button") 9 "click" (Callback 1) page H).
Defined.

Lemma set_round_trip_witness :
  valid_attribute_name "DATA-Test" = true
  /\ Str.to_lower "data-test" = Str.to_lower "DATA-Test"
  /\ resolves (TStr "#test-div") 4 page
  /\ resolves (TStr "#test-div") 4
              (snd (set (TStr "#test-div") "DATA-Test" (Some "value") page))
  /\ fst (set (TStr "#test-div") "DATA-Test" (Some "value") page)
     = Ret (SetOn (TNode 4))
  /\ set (TStr "#test-div") "data-test" None
         (snd (set (TStr "#test-div") "DATA-Test" (Some "value") page))
     = (Ret (Got (Some "value")),
        snd (set (TStr "#test-div") "DATA-Test" (Some "value") page)).
Proof.
  assert (H1 : resolves (TStr "#test-div") 4 page) by (split; reflexivity).
  assert (H2 : resolves (TStr "#test-div") 4
                 (snd (set (TStr "#test-div") "DATA-Test" (Some "value") page)))
    by (split; reflexivity).
  split; [ reflexivity | ]. split; [ reflexivity | ].
  split; [ exact H1 | ]. split; [ exact H2 | ].
  apply (set_round_trip (TStr "#test-div") 4 "DATA-Test" "data-test" "value" page
                        eq_refl eq_refl H1 H2).
Defined.

Lemma disable_enable_witness :
  resolves (TStr "#test-input") 5 page
  /\ resolves (TStr "#test-input") 5 (snd (disable (TStr "#test-input") page))
  /\ fst (disable (TStr "#test-input") page) = Ret (TNode 5)
  /\ attribute 5 "disabled" (snd (disable (TStr "#test-input") page)) = Some "disabled"
  /\ fst (enable (TStr "#test-input") (snd (disable (TStr "#test-input") page)))
     = Ret (TNode 5)
  /\ attribute 5 "disabled"
       (snd (enable (TStr "#test-input") (snd (disable (TStr "#test-input") page))))
     = None
  /\ (attribute 5 "disabled" page = None ->
      attributes_of 5
        (snd (enable (TStr "#test-input") (snd (disable (TStr "#test-input") page))))
      = attributes_of 5 page).
Proof.
  assert (H1 : resolves (TStr "#test-input") 5 page) by (split; reflexivity).
  assert (H2 : resolves (TStr "#test-input") 5 (snd (disable (TStr "#test-input") page)))
    by (split; reflexivity).
  split; [ exact H1 | ]. split; [ exact H2 | ].
  apply (disable_enable (TStr "#test-input") 5 page H1 H2).
Defined.



Lemma create_appends_last_witness :
  wf page = true
  /\ in_document 6 page = true
  /\ valid_element_name "OPTION" = true
  /\ exists r d',
       create "OPTION" [] (TNode 6) None page = (Ret (TNode r), d')
       /\ lookup r page = None
       /\ children_of 6 d'
          = children_of 6 page ++ [Elem r (mk_edata (Str.to_lower "OPTION") [] "") []].
Proof.
  split; [ reflexivity | ]. split; [ reflexivity | ]. split; [ reflexivity | ].
  apply (create_appends_last "OPTION" 6 page); reflexivity.
Defined.

Lemma remove_detaches_witness :
  is_element 4 page = true
  /\ exists d',
       remove (TNode 4) page = (Ret tt, d')
       /\ is_element 4 d' = true
       /\ children_of 4 d' = children_of 4 page
       /\ (has_parent 4 page = false -> d' = page)
       /\ (has_parent 4 page = true ->
           in_document 4 d' = false
           /\ forall s, fst (get (TStr s) TUndef d') <> Ret (TNode 4)).
Proof.
  split; [ reflexivity | ].
  apply (remove_detaches 4 page). reflexivity.
Defined.

Lemma each_first_is_get_witness :
  selector_valid "option" = true
  /\ each (CSelector "option") None page = (Ret [TNode 7; TNode 8], page)
  /\ fst (get (TStr "option") TUndef page) = Ret (TNode 7).
Proof.
  split; [ reflexivity | ].
  exact (each_first_is_get "option" page eq_refl).
Defined.

Lemma focus_unmatched_witness :
  fst (querySelector TDocument "#non-existent" page) = Ret TNull
  /\ focus (TStr "#non-existent") page
     = (Ret TNull, add_warning ("Element not found:", TStr "#non-existent") page).
Proof.
  split; [ reflexivity | ].
  apply (focus_unmatched "#non-existent" page). reflexivity.
Defined.

Lemma dispatch_on_element_witness :
  is_element 9 page = true
  /\ dispatch (TNode 9) (TStr "") page
     = (Ret tt,
        add_dispatched (if truthy (TStr "") then (TNode 9, TStr "")
                        else (TWindow, TNode 9)) page).
Proof.
  split; [ reflexivity | ].
  apply (dispatch_on_element 9 (TStr "") page). reflexivity.
Defined.

Lemma each_hide_all_witness :
  List.forallb (fun r => is_element r page) [9; 5; 9] = true
  /\ exists d',
       each (CList (List.map TNode [9; 5; 9])) (Some hiding) page
       = (Ret (List.map TNode [9; 5; 9]), d')
       /\ List.forallb (fun r => has_class r "d-none" d') [9; 5; 9] = true.
Proof.
  split; [ reflexivity | ].
  apply (each_hide_all [9; 5; 9] page). reflexivity.
Defined.

(** The test file's cases of [set], [disable], [enable], [on] and [each]. *)
Example more_on_the_page :
  attribute 4 "data-test" (snd (set (TStr "#test-div") "data-test" (Some "value") page))
  = Some "value"
  /\ attribute 5 "disabled" (snd (disable (TStr "#test-input") page)) = Some "disabled"
  /\ attribute 5 "disabled"
       (snd (enable (TStr "#test-input") (snd (disable (TStr "#test-input") page))))
     = None
  /\ fst (each (CSelector "option") None page) = Ret [TNode 7; TNode 8]
  /\ fst (focus (TNode 5) page) = Ret (TNode 5)
  /\ get_expando TDocument "activeElement" (snd (focus (TNode 5) page))
     = Some (ANode 5).
Proof. repeat split. Qed.
